(** * NOAH assistant: command router and Gemini adapter

    A shallow embedding of [combined_noah.py] (class [AdvancedNOAHWithAI])
    and [chatbot_core.py] (class [EnhancedChatbot]; the file defines the
    class twice and Python keeps the second definition, which is the one
    embedded here), followed by the properties of the command router and of
    the chat backend adapter.

    Text is a [string].  Utterances and the texts the collaborators give
    are sequences of 7-bit ASCII characters: the case conversions act on
    the ASCII letters and the whitespace class is the ASCII part of
    Python's [str.isspace].  The few other signs in the fixed texts of the
    source stand in their UTF-8 encoding.  Printing and logging are taken
    as infallible, and every call to a collaborator is taken to answer, by
    a value or by an exception.  An exception of a collaborator of the
    router carries the name of its class.  [KeyboardInterrupt] is the
    class outside [Exception] that these collaborators are taken to
    raise: it passes every [except Exception] and is caught by a bare
    [except] and by [except KeyboardInterrupt]; [SystemExit] and
    [GeneratorExit], which come from a call of [sys.exit] and from the
    closing of a generator, are raised by none of them.  The chat service
    fails by an [Exception], which carries its message. *)

From Stdlib Require Import String Ascii List Bool Arith Lia.
Import ListNotations.
Open Scope list_scope.
Open Scope string_scope.

(** ** Python string and list methods used by the source *)

Module PyStr.

Definition code (c : ascii) : nat := nat_of_ascii c.

(** [str.isspace] on one character: TAB..CR, FS..US and the space. *)
Definition isspace (c : ascii) : bool :=
  let n := code c in
  ((9 <=? n)%nat && (n <=? 13)%nat) || ((28 <=? n)%nat && (n <=? 32)%nat).

Definition isupper (c : ascii) : bool :=
  let n := code c in (65 <=? n)%nat && (n <=? 90)%nat.

Definition islower (c : ascii) : bool :=
  let n := code c in (97 <=? n)%nat && (n <=? 122)%nat.

Definition lower_char (c : ascii) : ascii :=
  if isupper c then ascii_of_nat (code c + 32) else c.

Definition upper_char (c : ascii) : ascii :=
  if islower c then ascii_of_nat (code c - 32) else c.

Fixpoint map_chars (f : ascii -> ascii) (s : string) : string :=
  match s with
  | EmptyString => EmptyString
  | String c r => String (f c) (map_chars f r)
  end.

(** [s.lower()] and [s.upper()]. *)
Definition lower : string -> string := map_chars lower_char.
Definition upper : string -> string := map_chars upper_char.

(** [s.startswith(p)]. *)
Definition startswith (s p : string) : bool := String.prefix p s.

(** [sub in s] on strings. *)
Fixpoint contains (sub s : string) : bool :=
  String.prefix sub s ||
  match s with
  | EmptyString => false
  | String _ r => contains sub r
  end.

(** [any(p in s for p in ps)]. *)
Definition contains_any (ps : list string) (s : string) : bool :=
  existsb (fun p => contains p s) ps.

(** [s[n:]] and [s[:n]]. *)
Fixpoint drop (n : nat) (s : string) : string :=
  match n, s with
  | S k, String _ r => drop k r
  | _, _ => s
  end.

Fixpoint take (n : nat) (s : string) : string :=
  match n, s with
  | S k, String c r => String c (take k r)
  | _, _ => EmptyString
  end.

(** [s.replace(old, new)] for a non-empty [old]: occurrences are replaced
    from left to right and do not overlap; [skip] counts the characters
    of the occurrence being consumed. *)
Fixpoint replace_from (old new : string) (skip : nat) (s : string) : string :=
  match s with
  | EmptyString => EmptyString
  | String c r =>
      match skip with
      | S k => replace_from old new k r
      | O =>
          if String.prefix old s
          then new ++ replace_from old new (String.length old - 1) r
          else String c (replace_from old new 0 r)
      end
  end.

Definition replace (s old new : string) : string := replace_from old new 0 s.

(** [s.strip()]. *)
Fixpoint lstrip (s : string) : string :=
  match s with
  | String c r => if isspace c then lstrip r else s
  | EmptyString => EmptyString
  end.

Fixpoint rstrip (s : string) : string :=
  match s with
  | EmptyString => EmptyString
  | String c r =>
      match rstrip r with
      | EmptyString => if isspace c then EmptyString else String c EmptyString
      | t => String c t
      end
  end.

Definition strip (s : string) : string := rstrip (lstrip s).

(** [s.split()]: maximal runs of non-whitespace characters.  [cur] holds
    the characters of the current run, most recent first. *)
Definition flush (cur : list ascii) : list string :=
  match cur with
  | [] => []
  | _ => [string_of_list_ascii (rev cur)]
  end.

Fixpoint split_from (cur : list ascii) (s : string) : list string :=
  match s with
  | EmptyString => flush cur
  | String c r =>
      if isspace c then (flush cur ++ split_from [] r)%list
      else split_from (c :: cur) r
  end.

Definition split (s : string) : list string := split_from [] s.

(** [sep.join(ws)]. *)
Fixpoint join (sep : string) (ws : list string) : string :=
  match ws with
  | [] => EmptyString
  | [w] => w
  | w :: rest => w ++ sep ++ join sep rest
  end.

(** [s.title()]: a cased character is upper-cased when the character
    before it is uncased and lower-cased otherwise. *)
Fixpoint title_from (prev_cased : bool) (s : string) : string :=
  match s with
  | EmptyString => EmptyString
  | String c r =>
      if islower c then
        String (if prev_cased then c else upper_char c) (title_from true r)
      else if isupper c then
        String (if prev_cased then lower_char c else c) (title_from true r)
      else String c (title_from false r)
  end.

Definition title (s : string) : string := title_from false s.

(** [w in ws] and [ws.index(w)] on lists of strings; [index] is [None]
    where Python raises [ValueError]. *)
Definition mem (w : string) (ws : list string) : bool :=
  existsb (String.eqb w) ws.

Fixpoint index (w : string) (ws : list string) : option nat :=
  match ws with
  | [] => None
  | x :: rest =>
      if String.eqb x w then Some 0
      else option_map S (index w rest)
  end.

(** Truth value of a string: [if s:]. *)
Definition truthy (s : string) : bool :=
  match s with EmptyString => false | _ => true end.

End PyStr.

(** ** Configuration ([config.py]) *)

Record settings := {
  GEMINI_API_KEY : option string;   (* [CONFIG_API_KEY]; [None] when the import fails *)
  GEMINI_MODEL : string;
  DEFAULT_USER_NAME : string;
  DEFAULT_CITY : string
}.

(** The values of [config.py]. *)
Definition config_py : settings := {|
  GEMINI_API_KEY := Some "XXXXXXXXXXXXXXXXXXXXXX";
  GEMINI_MODEL := "gemini-1.5-flash";
  DEFAULT_USER_NAME := "Rudra";
  DEFAULT_CITY := "Mumbai"
|}.

(** ** The chat backend adapter ([chatbot_core.py], class [EnhancedChatbot]) *)

Module ChatbotCore.

(** The client object returned by [genai.GenerativeModel(name)]. *)
Inductive model := GenerativeModel (name : string).

(** What [generate_content] followed by [response.text] does: raise an
    [Exception] with a message, or give the text (empty for a response
    without text). *)
Inductive generation :=
| GenRaises (message : string)
| GenText (text : string).

(** The remote service and the process environment. *)
Record backend := {
  getenv_GEMINI_API_KEY : option string;
  (** [genai.configure(api_key=k)]: [Some msg] when it raises. *)
  genai_configure : string -> option string;
  (** [genai.GenerativeModel(name)]: [inl msg] when it raises. *)
  genai_GenerativeModel : string -> string + model;
  (** [model.generate_content(prompt, ...)] and [response.text]. *)
  generate_content : model -> string -> generation
}.

Record chatbot := {
  model_type : option string;
  gemini_model : option model;
  api_key : option string;
  concise_mode : bool
}.

(** [__init__]. *)
Definition init : chatbot := {|
  model_type := None;
  gemini_model := None;
  api_key := None;
  concise_mode := true
|}.

(** One entry of [chat_history]: a dict read with [msg.get]. *)
Record turn := {
  role : option string;
  content : option string
}.

(** Truth value of an optional string ([None] and [""] are false). *)
Definition truthy (k : option string) : bool :=
  match k with
  | Some s => PyStr.truthy s
  | None => false
  end.

(** [a or b]. *)
Definition py_or (a b : option string) : option string :=
  if truthy a then a else b.

Definition opt_eqb (k : option string) (s : string) : bool :=
  match k with
  | Some t => String.eqb t s
  | None => false
  end.

Definition placeholder : string := "YOUR_API_KEY_HERE".

Section Adapter.
Variable cfg : settings.
Variable b : backend.

(** The key the method stores in [self.api_key] before validating it. *)
Definition resolve_key (arg : option string) : option string :=
  if truthy arg then arg
  else py_or (getenv_GEMINI_API_KEY b) (py_or (GEMINI_API_KEY cfg) None).

(** [load_gemini_api(api_key=None)]: the returned flag and the object
    after the call.  Every [Exception] of the body is caught by the
    method and turned into [False]. *)
Definition load_gemini_api (arg : option string) (c : chatbot)
  : bool * chatbot :=
  let key := resolve_key arg in
  let c1 := {| model_type := model_type c;
               gemini_model := gemini_model c;
               api_key := key;
               concise_mode := concise_mode c |} in
  match key with
  | None => (false, c1)
  | Some k =>
      if negb (PyStr.truthy k) || String.eqb k placeholder then (false, c1)
      else
        match genai_configure b k with
        | Some _ => (false, c1)
        | None =>
            match genai_GenerativeModel b (GEMINI_MODEL cfg) with
            | inl _ => (false, c1)
            | inr m =>
                (true, {| model_type := Some "gemini";
                          gemini_model := Some m;
                          api_key := key;
                          concise_mode := concise_mode c |})
            end
        end
  end.

(** [is_model_loaded]. *)
Definition is_model_loaded (c : chatbot) : bool :=
  opt_eqb (model_type c) "gemini" &&
  match gemini_model c with Some _ => true | None => false end.

(** [get_model_info]. *)
Definition get_model_info (c : chatbot) : string :=
  if opt_eqb (model_type c) "gemini"
  then "Google " ++ GEMINI_MODEL cfg ++ " - Advanced AI Assistant (from config)"
  else "No model loaded".

(** [get_api_status]. *)
Definition get_api_status : string :=
  if truthy (GEMINI_API_KEY cfg) && negb (opt_eqb (GEMINI_API_KEY cfg) placeholder)
  then "✅ API key configured in config.py"
  else if truthy (getenv_GEMINI_API_KEY b)
  then "✅ API key found in environment variables"
  else "❌ No API key configured".

Definition nl : string := String (ascii_of_nat 10) EmptyString.

Definition system_instruction : string :=
  "You are NOAH, a helpful AI assistant. Follow these rules strictly:" ++ nl ++
  "- Keep responses under 120 words" ++ nl ++
  "- Be direct and actionable" ++ nl ++
  "- Use bullet points for lists (max 3 bullets)" ++ nl ++
  "- Give numbered steps for procedures" ++ nl ++
  "- Avoid filler words and repetition" ++ nl ++
  "- Don't add unnecessary disclaimers" ++ nl ++
  "- If unclear, give most likely answer + 1 clarification".

(** [chat_history[-6:]]. *)
Definition last_n {A} (n : nat) (l : list A) : list A :=
  skipn (List.length l - n) l.

(** The lines built from the recent turns. *)
Fixpoint recent_messages (h : list turn) : list string :=
  match h with
  | [] => []
  | msg :: rest =>
      let r := match role msg with Some r => r | None => "user" end in
      let c := PyStr.strip (match content msg with Some c => c | None => "" end) in
      if PyStr.truthy c then
        if String.eqb r "user" then ("User: " ++ c) :: recent_messages rest
        else if String.eqb r "assistant" then ("NOAH: " ++ c) :: recent_messages rest
        else recent_messages rest
      else recent_messages rest
  end.

Definition history_context (chat_history : list turn) : string :=
  match recent_messages (last_n 6 chat_history) with
  | [] => ""
  | ms => "Recent context:" ++ nl ++ PyStr.join nl ms ++ nl ++ nl
  end.

Definition style_modifier (c : chatbot) : string :=
  if concise_mode c
  then "ULTRA-CONCISE MODE: Maximum 3 sentences. No elaboration unless critical." ++ nl
  else "".

Definition final_prompt (c : chatbot) (message : string)
  (chat_history : list turn) : string :=
  system_instruction ++ nl ++ nl ++
  style_modifier c ++
  history_context chat_history ++
  "Current question: " ++ message ++ nl ++ nl ++
  "Provide a concise, helpful response:".

(** Lines 257-267: the cleaning of a non-empty [response.text]. *)
Definition clean_response (text : string) : string :=
  let clean := PyStr.strip text in
  let clean :=
    if (800 <? String.length clean)%nat
    then PyStr.take 800 clean ++ "..."
    else clean in
  if PyStr.startswith clean "NOAH:"
  then PyStr.strip (PyStr.drop 5 clean)
  else clean.

Definition no_text_reply : string :=
  "I'm having trouble generating a response right now. Please try again.".

Definition api_key_error_reply : string :=
  "API key error. Please check your Gemini API key in config.py.".
Definition quota_error_reply : string :=
  "API quota exceeded. Please check your usage limits.".
Definition safety_error_reply : string :=
  "Sorry, I cannot respond to that request due to safety filters.".
Definition network_error_reply : string :=
  "Network error. Please check your internet connection.".
Definition generic_error_reply : string :=
  "I encountered an error. Please try again in a moment.".

(** Lines 271-285: the [except] clause, on [str(e)]. *)
Definition error_reply (message : string) : string :=
  let error_msg := PyStr.upper message in
  if PyStr.contains "API_KEY" error_msg || PyStr.contains "AUTHENTICATION" error_msg
  then api_key_error_reply
  else if PyStr.contains "QUOTA" error_msg || PyStr.contains "LIMIT" error_msg
  then quota_error_reply
  else if PyStr.contains "BLOCKED" error_msg || PyStr.contains "SAFETY" error_msg
  then safety_error_reply
  else if PyStr.contains "NETWORK" error_msg || PyStr.contains "CONNECTION" error_msg
  then network_error_reply
  else generic_error_reply.

(** What the [try] block of [generate_gemini_response] does with the
    client [m]: the exception it raises, or the value it returns. *)
Definition generate_attempt (c : chatbot) (m : option model)
  (message : string) (chat_history : list turn) : string + string :=
  match m with
  | None =>
      (* [self.gemini_model] is [None]: the attribute access raises *)
      inl "'NoneType' object has no attribute 'generate_content'"
  | Some g =>
      match generate_content b g (final_prompt c message chat_history) with
      | GenRaises e => inl e
      | GenText text =>
          if PyStr.truthy text then inr (clean_response text)
          else inr no_text_reply
      end
  end.

(** [generate_gemini_response(message, chat_history=None)]. *)
Definition generate_gemini_response (c : chatbot) (message : string)
  (chat_history : list turn) : string :=
  match generate_attempt c (gemini_model c) message chat_history with
  | inr reply => reply
  | inl e => error_reply e
  end.

(** [get_response(message, chat_history=None)]. *)
Definition get_response (c : chatbot) (message : string)
  (chat_history : list turn) : string :=
  if is_model_loaded c
  then generate_gemini_response c message chat_history
  else "Please load Gemini model first by saying 'load ai model' or 'use gemini'.".

(** [toggle_concise_mode] and [set_concise_mode]. *)
Definition toggle_concise_mode (c : chatbot) : string * chatbot :=
  let c' := {| model_type := model_type c; gemini_model := gemini_model c;
               api_key := api_key c; concise_mode := negb (concise_mode c) |} in
  ("Concise mode is now " ++ (if concise_mode c' then "ON" else "OFF"), c').

Definition set_concise_mode (enabled : bool) (c : chatbot) : string * chatbot :=
  let c' := {| model_type := model_type c; gemini_model := gemini_model c;
               api_key := api_key c; concise_mode := enabled |} in
  ("Concise mode " ++ (if enabled then "enabled" else "disabled"), c').

End Adapter.

End ChatbotCore.

(** ** The assistant ([combined_noah.py], class [AdvancedNOAHWithAI]) *)

Module Noah.

Import PyStr.

(** A raised exception: its class and [str(e)]. *)
Record exn := {
  exn_class : string;
  exn_message : string
}.

(** The dict [self.user_data], as [load_user_data] builds it. *)
Record profile := {
  name : string;
  preferences : list (string * string);
  conversation_history : list string
}.

Definition set_name (p : profile) (n : string) : profile :=
  {| name := n;
     preferences := preferences p;
     conversation_history := conversation_history p |}.

(** What the file [noah_data.json] holds: a profile that was dumped in
    full, or what is left when the file was opened for writing and the
    dump did not complete (nothing, or the beginning of the dump). *)
Inductive json_file :=
| Dumped (p : profile)
| Partial.

(** The fields of the assistant, and the file [noah_data.json] ([None]
    when there is no such file). *)
Record assistant := {
  text_mode : bool;
  microphone : bool;             (* [self.microphone] is not [None] *)
  is_listening : bool;
  user_name : string;
  user_data : profile;
  chatbot : ChatbotCore.chatbot;
  ai_model_loaded : bool;
  noah_data_json : option json_file
}.

Definition with_text_mode (v : bool) (a : assistant) : assistant :=
  {| text_mode := v; microphone := microphone a;
     is_listening := is_listening a; user_name := user_name a;
     user_data := user_data a; chatbot := chatbot a;
     ai_model_loaded := ai_model_loaded a;
     noah_data_json := noah_data_json a |}.

Definition with_is_listening (v : bool) (a : assistant) : assistant :=
  {| text_mode := text_mode a; microphone := microphone a;
     is_listening := v; user_name := user_name a;
     user_data := user_data a; chatbot := chatbot a;
     ai_model_loaded := ai_model_loaded a;
     noah_data_json := noah_data_json a |}.

Definition with_user_name (v : string) (a : assistant) : assistant :=
  {| text_mode := text_mode a; microphone := microphone a;
     is_listening := is_listening a; user_name := v;
     user_data := user_data a; chatbot := chatbot a;
     ai_model_loaded := ai_model_loaded a;
     noah_data_json := noah_data_json a |}.

Definition with_user_data (v : profile) (a : assistant) : assistant :=
  {| text_mode := text_mode a; microphone := microphone a;
     is_listening := is_listening a; user_name := user_name a;
     user_data := v; chatbot := chatbot a;
     ai_model_loaded := ai_model_loaded a;
     noah_data_json := noah_data_json a |}.

Definition with_chatbot (v : ChatbotCore.chatbot) (a : assistant) : assistant :=
  {| text_mode := text_mode a; microphone := microphone a;
     is_listening := is_listening a; user_name := user_name a;
     user_data := user_data a; chatbot := v;
     ai_model_loaded := ai_model_loaded a;
     noah_data_json := noah_data_json a |}.

Definition with_ai_model_loaded (v : bool) (a : assistant) : assistant :=
  {| text_mode := text_mode a; microphone := microphone a;
     is_listening := is_listening a; user_name := user_name a;
     user_data := user_data a; chatbot := chatbot a;
     ai_model_loaded := v;
     noah_data_json := noah_data_json a |}.

Definition with_noah_data_json (v : option json_file) (a : assistant) : assistant :=
  {| text_mode := text_mode a; microphone := microphone a;
     is_listening := is_listening a; user_name := user_name a;
     user_data := user_data a; chatbot := chatbot a;
     ai_model_loaded := ai_model_loaded a;
     noah_data_json := v |}.

(** One iteration of the camera preview loop. *)
Inductive frame :=
| FrameShown (q_pressed : bool)   (* [ret] is true; [waitKey] saw [q] or not *)
| FrameMissing                    (* [ret] is false *)
| FrameRaises (e : exn).

(** [cv2.VideoCapture(0)] and what follows. *)
Inductive capture :=
| CaptureRaises (e : exn)
| CaptureNotOpened
| CaptureFrames (frames : list frame).

(** The collaborators of one call of [process_command]: every answer the
    outside gives during the call.  [inl e] stands for a raised [e]. *)
Record world := {
  backend : ChatbotCore.backend;
  (** The index [random.choice] draws (reduced modulo the length). *)
  random_draw : nat;
  (** [datetime.datetime.now().strftime(fmt)]. *)
  strftime_now : string -> string;
  (** [requests.get(url, timeout=5)]: status code and text. *)
  requests_get : string -> exn + (nat * string);
  (** [wikipedia.summary(topic, sentences=n)]. *)
  wikipedia_summary : string -> nat -> exn + string;
  (** [pyjokes.get_joke()]. *)
  pyjokes_get_joke : exn + string;
  (** [psutil]: CPU, memory and disk percentages as printed. *)
  psutil_usage : exn + (string * string * string);
  (** [psutil.sensors_battery()]: the percentage as printed, if any. *)
  psutil_battery : exn + option string;
  (** [platform.system()]. *)
  platform_system : string;
  (** [Path.home() / "Pictures"], when it exists, with its separator. *)
  pictures_dir : option string;
  (** [pyautogui.screenshot(path)]. *)
  pyautogui_screenshot : string -> option exn;
  (** [cv2]: the capture session. *)
  cv2_capture : capture;
  (** [webbrowser.open(url)]. *)
  webbrowser_open : string -> option exn;
  (** [subprocess.Popen([cmd])]. *)
  subprocess_Popen : string -> option exn;
  (** [open('noah_data.json', 'w')]: when it answers, the file exists and
      is empty. *)
  open_noah_data : option exn;
  (** [json.dump(self.user_data, f, indent=2)] into the opened file, and
      the closing of the file. *)
  json_dump : profile -> option exn;
  (** [save_and_open_notepad(topic, content)]: the path of the report
      written to disk, [None] when the method catches a failure; the
      method is taken not to be interrupted. *)
  save_and_open_notepad : string -> string -> option string
}.

(** *** Computations of the assistant: state, spoken text, exceptions *)

Inductive res (A : Type) : Type :=
| Ret (a : A)
| Raise (e : exn).
Arguments Ret {A} a.
Arguments Raise {A} e.

(** A method call: from the object before the call to its result, the
    object after it, and the texts passed to [say] in order. *)
Definition M (A : Type) : Type := assistant -> res A * assistant * list string.

Definition ret {A} (a : A) : M A := fun s => (Ret a, s, []).

Definition raise {A} (e : exn) : M A := fun s => (Raise e, s, []).

Definition bind {A B} (m : M A) (k : A -> M B) : M B :=
  fun s =>
    match m s with
    | (Ret a, s1, o1) =>
        match k a s1 with
        | (r, s2, o2) => (r, s2, (o1 ++ o2)%list)
        end
    | (Raise e, s1, o1) => (Raise e, s1, o1)
    end.

(** [try: m except: h], the bare [except], which catches everything. *)
Definition try_catch {A} (m : M A) (h : exn -> M A) : M A :=
  fun s =>
    match m s with
    | (Ret a, s1, o1) => (Ret a, s1, o1)
    | (Raise e, s1, o1) =>
        match h e s1 with
        | (r, s2, o2) => (r, s2, (o1 ++ o2)%list)
        end
    end.

(** The exceptions that are no [Exception]. *)
Definition is_interrupt (e : exn) : bool :=
  String.eqb (exn_class e) "KeyboardInterrupt".

(** [try: m except Exception as e: h e]: an interrupt is not caught and
    goes on to the caller. *)
Definition try_except {A} (m : M A) (h : exn -> M A) : M A :=
  try_catch m (fun e => if is_interrupt e then raise e else h e).

Definition get : M assistant := fun s => (Ret s, s, []).

Definition modify (f : assistant -> assistant) : M unit :=
  fun s => (Ret tt, f s, []).

(** A collaborator call that may raise. *)
Definition call {A} (r : exn + A) : M A :=
  match r with
  | inl e => raise e
  | inr a => ret a
  end.

Definition call_unit (r : option exn) : M unit :=
  match r with
  | Some e => raise e
  | None => ret tt
  end.

Declare Scope noah_scope.
Delimit Scope noah_scope with noah.
Notation "x <- m ;; k" := (bind m (fun x => k))
  (at level 61, m at next level, right associativity) : noah_scope.
Notation "m ;; k" := (bind m (fun _ => k))
  (at level 61, right associativity) : noah_scope.
Open Scope noah_scope.

(** [say(text)]: the text is printed and logged, then spoken; an
    [Exception] of the speech engine is caught inside the method, and
    the engine is taken not to be interrupted. *)
Definition say (text : string) : M unit := fun s => (Ret tt, s, [text]).

(** [urllib.parse.quote_plus]: letters, digits and [_.-~] are kept, a
    space becomes [+], any other character becomes [%XX]. *)
Definition isalnum (c : ascii) : bool :=
  isupper c || islower c || ((48 <=? code c)%nat && (code c <=? 57)%nat).

Definition hex_digit (n : nat) : ascii :=
  ascii_of_nat (if (n <? 10)%nat then 48 + n else 55 + n).

Fixpoint quote_plus (s : string) : string :=
  match s with
  | EmptyString => EmptyString
  | String c r =>
      if isalnum c || contains (String c EmptyString) "_.-~"
      then String c (quote_plus r)
      else if Ascii.eqb c " "%char then String "+"%char (quote_plus r)
      else String "%"%char
             (String (hex_digit (code c / 16))
                (String (hex_digit (code c mod 16)) (quote_plus r)))
  end.

Definition nl : string := ChatbotCore.nl.

Section Methods.
Variable cfg : settings.
Variable w : world.

(** [random.choice(l)]. *)
Definition choice (l : list string) : M string :=
  ret (nth (random_draw w mod List.length l) l "").

(** [save_user_data]: the file is opened for writing, which empties it,
    then the profile is dumped; an [Exception] at either step is caught
    and logged. *)
Definition save_user_data : M unit :=
  try_except
    (s <- get ;;
     call_unit (open_noah_data w) ;;
     modify (with_noah_data_json (Some Partial)) ;;
     call_unit (json_dump w (user_data s)) ;;
     modify (with_noah_data_json (Some (Dumped (user_data s)))))
    (fun _ => ret tt).

(** [self.chatbot.load_gemini_api()] on the assistant's chatbot. *)
Definition chatbot_load_gemini_api : M bool :=
  s <- get ;;
  let '(ok, c) := ChatbotCore.load_gemini_api cfg (backend w) None (chatbot s) in
  modify (with_chatbot c) ;;
  ret ok.

(** [self.chatbot.get_response(message)]. *)
Definition chatbot_get_response (message : string) : M string :=
  s <- get ;;
  ret (ChatbotCore.get_response (backend w) (chatbot s) message []).

(** [initialize_ai_model]. *)
Definition initialize_ai_model : M bool :=
  try_except
    (say "Loading advanced Gemini AI model from configuration..." ;;
     success <- chatbot_load_gemini_api ;;
     if success : bool then
       modify (with_ai_model_loaded true) ;;
       say "Gemini AI model loaded successfully from config! I'm now powered by Google's advanced AI." ;;
       ret true
     else
       say "Failed to load Gemini AI model. Please check your API key in config.py file." ;;
       ret false)
    (fun _ =>
       say "Error loading Gemini AI model from configuration" ;;
       ret false).

(** The dict [search_urls] read with [get(platform, google)]. *)
Definition search_url (platform encoded_query : string) : string :=
  if String.eqb platform "youtube"
  then "https://www.youtube.com/results?search_query=" ++ encoded_query
  else if String.eqb platform "amazon"
  then "https://www.amazon.com/s?k=" ++ encoded_query
  else if String.eqb platform "github"
  then "https://github.com/search?q=" ++ encoded_query
  else if String.eqb platform "wikipedia"
  then "https://en.wikipedia.org/wiki/Special:Search?search=" ++ encoded_query
  else "https://www.google.com/search?q=" ++ encoded_query.

(** [smart_search(query, platform)].  In the fallback of the source the
    name [platform] is the string argument, so [platform.system()]
    raises and the inner handler leaves [success] false. *)
Definition smart_search (query platform : string) : M string :=
  try_except
    (let url := search_url platform (quote_plus query) in
     success <-
       try_except
         (call_unit (webbrowser_open w url) ;; ret true)
         (fun _ =>
            try_except
              (raise {| exn_class := "AttributeError";
                        exn_message := "'str' object has no attribute 'system'" |})
              (fun _ => ret false)) ;;
     if success : bool
     then ret ("Opening " ++ platform ++ " and searching for " ++ query)
     else ret ("Could not open " ++ platform ++
               ". Please check your default browser settings."))
    (fun _ => ret ("Error occurred while trying to search " ++ platform)).

(** [re.search(lit + "(.+)", query, re.IGNORECASE)] for a lower-case
    literal [lit]: the leftmost occurrence of [lit] that is followed by
    a character other than a newline; the group runs to the end of the
    line. *)
Fixpoint line_of (s : string) : string :=
  match s with
  | EmptyString => EmptyString
  | String c r =>
      if Ascii.eqb c (ascii_of_nat 10) then EmptyString
      else String c (line_of r)
  end.

Fixpoint re_search_group (lit s : string) : option string :=
  match s with
  | EmptyString => None
  | String _ r =>
      if String.prefix lit (lower s)
         && truthy (line_of (drop (String.length lit) s))
      then Some (line_of (drop (String.length lit) s))
      else re_search_group lit r
  end.

Definition topic_patterns : list string :=
  ["tell me about "; "what is "; "explain "; "describe ";
   "information about "; "write about "].

(** The loop over [patterns] of [handle_tell_me_about]. *)
Fixpoint extract_topic (patterns : list string) (query : string)
  : option string :=
  match patterns with
  | [] => None
  | p :: rest =>
      match re_search_group p query with
      | Some g => Some (strip g)
      | None => extract_topic rest query
      end
  end.

(** One round of the loop over [prompts]. *)
Definition ai_section (tag prompt : string) : M (list string) :=
  try_except
    (response <- chatbot_get_response prompt ;;
     if truthy response && (50 <? String.length (strip response))%nat
     then ret ["AI Analysis " ++ tag ++ ":" ++ nl ++ strip response]
     else ret [])
    (fun _ => ret []).

(** [handle_tell_me_about(query)]. *)
Definition handle_tell_me_about (query : string) : M string :=
  try_except
    (match extract_topic topic_patterns query with
     | None =>
         ret "I didn't catch what you want to know about. Please say 'tell me about' followed by a topic."
     | Some topic =>
         if negb (truthy topic) then
           ret "I didn't catch what you want to know about. Please say 'tell me about' followed by a topic."
         else
           s <- get ;;
           early <-
             (if negb (ai_model_loaded s) then
                say "Let me load my advanced AI knowledge base first..." ;;
                loaded <- initialize_ai_model ;;
                if negb loaded then
                  say "Using Wikipedia for information..." ;;
                  try_except
                    (wiki_info <- call (wikipedia_summary w topic 5) ;;
                     let _ := save_and_open_notepad w topic
                                ("Wikipedia Information:" ++ nl ++ nl ++ wiki_info) in
                     ret (Some ("I couldn't load the AI model, but I found Wikipedia information about "
                                ++ topic ++ ".")))
                    (fun _ =>
                       ret (Some "Sorry, I couldn't load the AI model or find Wikipedia information."))
                else ret None
              else ret None) ;;
           match early with
           | Some reply => ret reply
           | None =>
               say ("Let me use advanced AI to generate detailed information about "
                    ++ topic ++ "...") ;;
               r1 <- ai_section "1"
                       ("Provide a comprehensive overview of " ++ topic ++
                        ", including key facts, importance, and applications.") ;;
               r2 <- ai_section "2"
                       ("What are the main features and characteristics of " ++ topic ++
                        "? Include examples and practical uses.") ;;
               let ai_responses := (r1 ++ r2)%list in
               wiki_info <-
                 try_except
                   (wiki_summary <- call (wikipedia_summary w topic 3) ;;
                    ret (nl ++ nl ++ "Supplementary Wikipedia Information:" ++ nl
                         ++ wiki_summary))
                   (fun _ => ret "") ;;
               let combined_info :=
                 match ai_responses with
                 | [] =>
                     "Topic: " ++ topic ++ nl ++ nl ++
                     "I apologize, but AI couldn't generate detailed information at this time."
                     ++ wiki_info
                 | _ =>
                     "Advanced AI Generated Information about " ++ topic ++ ":" ++ nl ++ nl
                     ++ join (nl ++ nl) ai_responses ++ wiki_info
                 end in
               match save_and_open_notepad w topic combined_info with
               | Some filename =>
                   if truthy filename then
                     ret ("I've used advanced Gemini AI to generate detailed information about "
                          ++ topic ++ " and saved it to your text editor.")
                   else
                     ret ("AI generated information about " ++ topic ++
                          ", but couldn't save it to a file.")
               | None =>
                   ret ("AI generated information about " ++ topic ++
                        ", but couldn't save it to a file.")
               end
           end
     end)
    (fun _ => ret "I encountered an error while generating information. Please try again.").

(** [get_free_weather(city)]. *)
Definition get_free_weather (city : string) : M string :=
  try_except
    (response <- call (requests_get w ("http://wttr.in/" ++ city ++ "?format=3")) ;;
     if (fst response =? 200)%nat
     then ret (strip (snd response))
     else ret "Weather information not available")
    (fun _ => ret "Could not get weather information").

(** [search_wikipedia(query)]. *)
Definition search_wikipedia (query : string) : M string :=
  try_except
    (call (wikipedia_summary w query 3))
    (fun e =>
       if String.eqb (exn_class e) "DisambiguationError"
       then ret ("Multiple results found for " ++ query ++ ". Please be more specific.")
       else if String.eqb (exn_class e) "PageError"
       then ret ("No Wikipedia page found for " ++ query)
       else ret "Could not access Wikipedia at this time").

Definition jokes : list string :=
  ["Why don't scientists trust atoms? Because they make up everything!";
   "I told my wife she was drawing her eyebrows too high. She seemed surprised.";
   "Why don't eggs tell jokes? They'd crack each other up!";
   "I'm reading a book about anti-gravity. It's impossible to put down!";
   "Why did the scarecrow win an award? He was outstanding in his field!";
   "What do you call a bear with no teeth? A gummy bear!";
   "Why don't programmers like nature? It has too many bugs!"].

(** [tell_joke]: the handler is a bare [except]. *)
Definition tell_joke : M string :=
  try_catch (call (pyjokes_get_joke w)) (fun _ => choice jokes).

(** [get_system_info]: the handler of the battery part is a bare
    [except]. *)
Definition get_system_info : M string :=
  try_except
    (usage <- call (psutil_usage w) ;;
     let '(cpu, memory, disk) := usage in
     let info :=
       "System Status: CPU usage is " ++ cpu ++ "%, Memory usage is " ++ memory
       ++ "%, Disk usage is " ++ disk ++ "%" in
     try_catch
       (battery <- call (psutil_battery w) ;;
        match battery with
        | Some percent => ret (info ++ ", Battery is at " ++ percent ++ "%")
        | None => ret info
        end)
       (fun _ => ret info))
    (fun _ => ret "Could not retrieve system information").

(** [take_screenshot]. *)
Definition take_screenshot : M string :=
  try_except
    (let filename := "screenshot_" ++ strftime_now w "%Y%m%d_%H%M%S" ++ ".png" in
     let filepath :=
       if String.eqb (platform_system w) "Windows" then
         match pictures_dir w with
         | Some d => d ++ filename
         | None => filename
         end
       else filename in
     call_unit (pyautogui_screenshot w filepath) ;;
     ret ("Screenshot saved as " ++ filename))
    (fun e => ret ("Could not take screenshot: " ++ exn_message e)).

(** The [while True] loop of [open_camera], over the frames the capture
    delivers; a capture that delivers no further frame reads as
    [ret = False]. *)
Fixpoint camera_loop (frames : list frame) : M unit :=
  match frames with
  | [] => ret tt
  | FrameShown true :: _ => ret tt
  | FrameShown false :: rest => camera_loop rest
  | FrameMissing :: _ => ret tt
  | FrameRaises e :: _ => raise e
  end.

(** [open_camera]. *)
Definition open_camera : M string :=
  try_except
    (match cv2_capture w with
     | CaptureRaises e => raise e
     | CaptureNotOpened => ret "Could not access camera"
     | CaptureFrames frames =>
         camera_loop frames ;;
         ret "Camera closed"
     end)
    (fun e => ret ("Could not open camera: " ++ exn_message e)).

(** The dict [apps] of [open_application]. *)
Definition apps (app_name : string) : option string :=
  if String.eqb app_name "notepad" then Some "notepad.exe"
  else if String.eqb app_name "calc" then Some "calc.exe"
  else if String.eqb app_name "browser" then Some "chrome.exe"
  else None.

(** [open_application(app_name)]. *)
Definition open_application (app_name : string) : M unit :=
  try_except
    (if String.eqb (platform_system w) "Windows" then
       match apps app_name with
       | Some exe =>
           call_unit (subprocess_Popen w exe) ;;
           say ("Opening " ++ app_name)
       | None =>
           if String.eqb app_name "browser" then
             call_unit (webbrowser_open w "https://www.google.com") ;;
             say "Opening default browser"
           else say ("I don't know how to open " ++ app_name)
       end
     else if String.eqb app_name "browser" then
       call_unit (webbrowser_open w "https://www.google.com") ;;
       say "Opening default browser"
     else say "Application opening is limited on this platform")
    (fun _ => say ("Could not open " ++ app_name)).

(** *** The rules of [process_command], in source order *)

Definition tell_me_patterns : list string :=
  ["tell me about"; "what is"; "explain"; "describe";
   "information about"; "write about"; "generate information about"].

Definition is_tell_me (query : string) : bool :=
  contains_any tell_me_patterns (lower query).

Definition is_load_model (query : string) : bool :=
  contains_any ["load ai model"; "initialize ai"; "use gemini"; "load gemini"] query.

Definition is_config_status (query : string) : bool :=
  contains "config status" query || contains "api status" query.

Definition is_text_mode (query : string) : bool :=
  contains "text mode" query || contains "switch to text" query.

Definition is_voice_mode (query : string) : bool :=
  contains "voice mode" query || contains "switch to voice" query.

Definition is_greeting (query : string) : bool :=
  contains_any ["hello"; "hi"; "hey"; "good morning"; "good afternoon"] query.

Definition is_time (query : string) : bool := contains "time" query.

Definition is_date (query : string) : bool :=
  contains "date" query || contains "today" query.

Definition is_weather (query : string) : bool := contains "weather" query.

Definition is_wikipedia (query : string) : bool :=
  contains "wikipedia" query || contains "search wikipedia" query.

Definition is_joke (query : string) : bool :=
  contains "joke" query || contains "funny" query || contains "humor" query.

Definition is_system (query : string) : bool :=
  contains "system" query || contains "status" query || contains "performance" query.

Definition is_screenshot (query : string) : bool :=
  contains "screenshot" query || contains "screen capture" query.

Definition is_camera (query : string) : bool :=
  contains "camera" query || contains "video" query.

Definition is_search (query : string) : bool := contains "search" query.

Definition is_youtube (query : string) : bool := contains "youtube" query.

Definition is_google (query : string) : bool :=
  contains "google" query && contains "search" query.

Definition is_open (query : string) : bool := contains "open" query.

Definition is_name (query : string) : bool :=
  contains "my name is" query || contains "call me" query.

Definition is_help (query : string) : bool :=
  contains "help" query || contains "commands" query.

Definition is_exit (query : string) : bool :=
  contains_any ["exit"; "quit"; "goodbye"; "bye"; "stop"] query.

(** *** The branches *)

(** Lines 481-484. *)
Definition tell_me_branch (query : string) : M unit :=
  response <- handle_tell_me_about query ;;
  say response.

(** Lines 487-489. *)
Definition load_model_branch : M unit :=
  initialize_ai_model ;; ret tt.

(** Lines 492-496. *)
Definition config_status_branch : M unit :=
  s <- get ;;
  let status := ChatbotCore.get_api_status cfg (backend w) in
  let model_info := ChatbotCore.get_model_info cfg (chatbot s) in
  say ("Configuration status: " ++ status ++ ". Model: " ++ model_info).

(** Lines 499-502. *)
Definition text_mode_branch : M unit :=
  modify (with_text_mode true) ;;
  say "Switched to text input mode".

(** Lines 503-509. *)
Definition voice_mode_branch : M unit :=
  s <- get ;;
  if microphone s then
    modify (with_text_mode false) ;;
    say "Switched to voice input mode"
  else say "Voice mode is not available. Microphone not detected.".

(** The list [greetings] of lines 513-517. *)
Definition greetings (user : string) : list string :=
  ["Hello " ++ user ++ "! How can I help you today?";
   "Hi there! I'm NOAH, ready to assist you with intelligent responses.";
   "Greetings " ++ user ++ "! What can I do for you today?"].

(** Lines 512-519. *)
Definition greeting_branch : M unit :=
  s <- get ;;
  greeting <- choice (greetings (user_name s)) ;;
  say greeting.

(** Lines 522-524. *)
Definition time_branch : M unit :=
  say ("The current time is " ++ strftime_now w "%I:%M %p").

(** Lines 527-529. *)
Definition date_branch : M unit :=
  say ("Today is " ++ strftime_now w "%A, %B %d, %Y").

(** Lines 533-541: the value of [city]. *)
Definition weather_city (query : string) : string :=
  let words := split query in
  if mem "in" words then
    match index "in" words with
    | Some in_index =>
        if (in_index + 1 <? List.length words)%nat
        then join " " (skipn (in_index + 1) words)
        else DEFAULT_CITY cfg
    | None => DEFAULT_CITY cfg
    end
  else DEFAULT_CITY cfg.

(** Lines 532-543. *)
Definition weather_branch (query : string) : M unit :=
  let city := weather_city query in
  weather <- get_free_weather city ;;
  say ("Weather in " ++ city ++ ": " ++ weather).

(** Lines 546-555. *)
Definition wikipedia_branch (query : string) : M unit :=
  let search_query := strip (replace (replace query "wikipedia" "") "search" "") in
  if truthy search_query then
    result <- smart_search search_query "wikipedia" ;;
    say result ;;
    wiki_result <- search_wikipedia search_query ;;
    if (String.length wiki_result <? 200)%nat then say wiki_result else ret tt
  else say "What would you like me to search on Wikipedia?".

(** Lines 558-560. *)
Definition joke_branch : M unit :=
  joke <- tell_joke ;; say joke.

(** Lines 563-565. *)
Definition system_branch : M unit :=
  info <- get_system_info ;; say info.

(** Lines 568-570. *)
Definition screenshot_branch : M unit :=
  result <- take_screenshot ;; say result.

(** Lines 573-576. *)
Definition camera_branch : M unit :=
  say "Opening camera. Press Q to close." ;;
  result <- open_camera ;;
  say result.

(** Lines 580-592: [platform_detected] and [search_query]. *)
Definition search_target (query : string) : string * string :=
  let search_query := strip (replace query "search" "") in
  if contains "youtube" query || contains "video" query then
    ("youtube",
     strip (replace (replace search_query "youtube" "") "video" ""))
  else if contains "amazon" query || contains "buy" query || contains "shop" query then
    ("amazon",
     strip (replace (replace (replace search_query "amazon" "") "buy" "") "shop" ""))
  else if contains "github" query || contains "code" query then
    ("github",
     strip (replace (replace search_query "github" "") "code" ""))
  else ("google", search_query).

(** Lines 579-598. *)
Definition search_branch (query : string) : M unit :=
  let '(platform_detected, search_query) := search_target query in
  if truthy search_query then
    result <- smart_search search_query platform_detected ;;
    say result
  else say "What would you like me to search for?".

(** Lines 601-607. *)
Definition youtube_branch (query : string) : M unit :=
  let search_query :=
    strip (replace (replace (replace query "youtube" "") "search" "") "on" "") in
  if truthy search_query then
    result <- smart_search search_query "youtube" ;;
    say result
  else say "What would you like me to search on YouTube?".

(** Lines 610-616. *)
Definition google_branch (query : string) : M unit :=
  let search_query :=
    strip (replace (replace (replace query "google" "") "search" "") "on" "") in
  if truthy search_query then
    result <- smart_search search_query "google" ;;
    say result
  else say "What would you like me to search on Google?".

(** Lines 619-627. *)
Definition open_branch (query : string) : M unit :=
  if contains "notepad" query then open_application "notepad"
  else if contains "calculator" query then open_application "calc"
  else if contains "browser" query || contains "chrome" query
  then open_application "browser"
  else say "Which application would you like me to open?".

(** [words.index(word)], which raises [ValueError] on a missing word. *)
Definition words_index (word : string) (words : list string) : M nat :=
  match index word words with
  | Some i => ret i
  | None =>
      raise {| exn_class := "ValueError";
               exn_message := "'" ++ word ++ "' is not in list" |}
  end.

(** Lines 630-645: the handler is a bare [except], which also catches an
    interrupt that passes [save_user_data]. *)
Definition name_branch (query : string) : M unit :=
  let words := split query in
  try_catch
    (name_index <-
       (if contains "my name is" query then
          i <- words_index "is" words ;; ret (i + 1)
        else if contains "call me" query then
          i <- words_index "me" words ;; ret (i + 1)
        else
          raise {| exn_class := "UnboundLocalError";
                   exn_message := "local variable 'name_index' referenced before assignment" |}) ;;
     let new_name := join " " (skipn name_index words) in
     if truthy new_name then
       modify (with_user_name (title new_name)) ;;
       s <- get ;;
       modify (with_user_data (set_name (user_data s) (user_name s))) ;;
       save_user_data ;;
       s <- get ;;
       say ("Nice to meet you, " ++ user_name s ++ "!")
     else ret tt)
    (fun _ => say "I didn't catch your name. Please try again.").

(** The text of lines 649-677. *)
Definition help_text : string :=
  "I can help you with many things! Here are some examples:" ++ nl ++
  nl ++
  "AI Features (Powered by Google Gemini from config.py):" ++ nl ++
  "• Say 'tell me about Python' for detailed AI-generated information" ++ nl ++
  "• Ask any question for intelligent responses" ++ nl ++
  "• Have natural conversations with advanced AI" ++ nl ++
  nl ++
  "Configuration Commands:" ++ nl ++
  "• Say 'config status' to check API key status" ++ nl ++
  "• Say 'load ai model' to initialize Gemini" ++ nl ++
  nl ++
  "🔍 WEB SEARCH FEATURES:" ++ nl ++
  "• Say 'search machine learning' - Google search" ++ nl ++
  "• Say 'youtube python tutorials' - YouTube search  " ++ nl ++
  "• Say 'search python on github' - GitHub search" ++ nl ++
  "• Say 'search laptop on amazon' - Amazon search" ++ nl ++
  "• Say 'search einstein on wikipedia' - Wikipedia search" ++ nl ++
  nl ++
  "System Features:" ++ nl ++
  "• Ask for time, date, or weather updates (default city: " ++ DEFAULT_CITY cfg ++ ")" ++ nl ++
  "• Request screenshots or camera access" ++ nl ++
  "• Get system performance information" ++ nl ++
  nl ++
  "Other Commands:" ++ nl ++
  "• Tell jokes and get entertainment" ++ nl ++
  "• Say 'text mode' to switch input methods" ++ nl ++
  "• Say 'exit' when you're done" ++ nl ++
  nl ++
  "Note: All AI responses are powered by Google Gemini with settings from config.py!".

(** Lines 648-679. *)
Definition help_branch : M unit := say help_text.

Definition farewell (user : string) : string :=
  "Goodbye " ++ user ++
  "! It was great helping you today with Google Gemini AI from config!".

(** Lines 682-685. *)
Definition exit_branch : M unit :=
  s <- get ;;
  say (farewell (user_name s)) ;;
  modify (with_is_listening false).

Definition suggestions : list string :=
  ["I didn't understand that command. Say 'load ai model' to enable advanced AI responses!";
   "Sorry, I didn't catch that. Make sure your API key is set in config.py, then try 'load ai model'.";
   "I'm not sure what you mean. Try searching: 'youtube music videos' or 'search python tutorials'."].

(** Lines 688-706. *)
Definition fallback_branch (query : string) : M unit :=
  s <- get ;;
  if ai_model_loaded s then
    try_except
      (response <- chatbot_get_response query ;;
       let response :=
         if (200 <? String.length response)%nat
         then take 200 response ++ "... Would you like me to elaborate on any part?"
         else response in
       say response)
      (fun _ =>
         say "I didn't understand that. Try asking about a specific topic or say 'help' for commands.")
  else
    suggestion <- choice suggestions ;;
    say suggestion.

(** The body of the [try] statement of [process_command]. *)
Definition process_body (query : string) : M unit :=
  if is_tell_me query then tell_me_branch query
  else if is_load_model query then load_model_branch
  else if is_config_status query then config_status_branch
  else if is_text_mode query then text_mode_branch
  else if is_voice_mode query then voice_mode_branch
  else if is_greeting query then greeting_branch
  else if is_time query then time_branch
  else if is_date query then date_branch
  else if is_weather query then weather_branch query
  else if is_wikipedia query then wikipedia_branch query
  else if is_joke query then joke_branch
  else if is_system query then system_branch
  else if is_screenshot query then screenshot_branch
  else if is_camera query then camera_branch
  else if is_search query then search_branch query
  else if is_youtube query then youtube_branch query
  else if is_google query then google_branch query
  else if is_open query then open_branch query
  else if is_name query then name_branch query
  else if is_help query then help_branch
  else if is_exit query then exit_branch
  else fallback_branch query.

Definition error_reply : string :=
  "I encountered an error processing that command. Please try again.".

(** [process_command(query)]: the handler of line 708 is
    [except Exception]. *)
Definition process_command (query : string) : M unit :=
  if negb (truthy query) then ret tt
  else try_except (process_body query) (fun _ => say error_reply).

End Methods.

(** The rule that answers an utterance: the first test of
    [process_body] that holds. *)
Inductive rule :=
| TellMe | LoadModel | ConfigStatus | TextMode | VoiceMode | Greeting
| Time | Date | Weather | Wikipedia | Joke | SystemInfo | Screenshot
| Camera | Search | Youtube | Google | Open | Name | Help | Exit
| Fallback.

Definition rule_tests : list (rule * (string -> bool)) :=
  [(TellMe, is_tell_me); (LoadModel, is_load_model);
   (ConfigStatus, is_config_status); (TextMode, is_text_mode);
   (VoiceMode, is_voice_mode); (Greeting, is_greeting); (Time, is_time);
   (Date, is_date); (Weather, is_weather); (Wikipedia, is_wikipedia);
   (Joke, is_joke); (SystemInfo, is_system); (Screenshot, is_screenshot);
   (Camera, is_camera); (Search, is_search); (Youtube, is_youtube);
   (Google, is_google); (Open, is_open); (Name, is_name); (Help, is_help);
   (Exit, is_exit)].

Fixpoint first_rule (tests : list (rule * (string -> bool))) (query : string)
  : rule :=
  match tests with
  | [] => Fallback
  | (r, test) :: rest => if test query then r else first_rule rest query
  end.

Definition rule_of (query : string) : rule := first_rule rule_tests query.

(** The branch [process_body] runs under each rule. *)
Definition run_rule (cfg : settings) (w : world) (r : rule) (query : string)
  : M unit :=
  match r with
  | TellMe => tell_me_branch cfg w query
  | LoadModel => load_model_branch cfg w
  | ConfigStatus => config_status_branch cfg w
  | TextMode => text_mode_branch
  | VoiceMode => voice_mode_branch
  | Greeting => greeting_branch w
  | Time => time_branch w
  | Date => date_branch w
  | Weather => weather_branch cfg w query
  | Wikipedia => wikipedia_branch w query
  | Joke => joke_branch w
  | SystemInfo => system_branch w
  | Screenshot => screenshot_branch w
  | Camera => camera_branch w
  | Search => search_branch w query
  | Youtube => youtube_branch w query
  | Google => google_branch w query
  | Open => open_branch w query
  | Name => name_branch w query
  | Help => help_branch cfg
  | Exit => exit_branch
  | Fallback => fallback_branch w query
  end.

(** Running the router over a session: one world per utterance; the
    replies of the turns are concatenated.  The object is threaded
    through; a result other than a normal return stops the session. *)
Fixpoint run_session (cfg : settings) (turns : list (world * string))
  (s : assistant) : res unit * assistant * list string :=
  match turns with
  | [] => (Ret tt, s, [])
  | (w, query) :: rest =>
      match process_command cfg w query s with
      | (Ret _, s1, o1) =>
          match run_session cfg rest s1 with
          | (r, s2, o2) => (r, s2, (o1 ++ o2)%list)
          end
      | (Raise e, s1, o1) => (Raise e, s1, o1)
      end
  end.

End Noah.

(** ** Example collaborators and objects *)

Module Samples.

Import Noah.

Definition offline : exn :=
  {| exn_class := "ConnectionError"; exn_message := "network unreachable" |}.

(** A backend that accepts the key and answers [text], or raises
    [message] from [generate_content] when [fails] holds. *)
Definition gemini (fails : bool) (message text : string) : ChatbotCore.backend := {|
  ChatbotCore.getenv_GEMINI_API_KEY := None;
  ChatbotCore.genai_configure := fun _ => None;
  ChatbotCore.genai_GenerativeModel := fun n => inr (ChatbotCore.GenerativeModel n);
  ChatbotCore.generate_content := fun _ _ =>
    if fails then ChatbotCore.GenRaises message else ChatbotCore.GenText text
|}.

(** A backend whose [genai.configure] rejects every key. *)
Definition rejecting : ChatbotCore.backend := {|
  ChatbotCore.getenv_GEMINI_API_KEY := Some "env-key";
  ChatbotCore.genai_configure := fun _ => Some "API key not valid";
  ChatbotCore.genai_GenerativeModel := fun n => inr (ChatbotCore.GenerativeModel n);
  ChatbotCore.generate_content := fun _ _ => ChatbotCore.GenText "ok"
|}.

(** A chatbot after a successful load. *)
Definition loaded_chatbot : ChatbotCore.chatbot := {|
  ChatbotCore.model_type := Some "gemini";
  ChatbotCore.gemini_model := Some (ChatbotCore.GenerativeModel "gemini-1.5-flash");
  ChatbotCore.api_key := Some "first-key";
  ChatbotCore.concise_mode := true
|}.

(** A machine without network, camera or joke library, with the backend
    [b]; [draw] is the index [random.choice] picks and [disk_ok] tells
    whether files can be written. *)
Definition world_with (b : ChatbotCore.backend) (draw : nat) (disk_ok : bool)
  : world := {|
  backend := b;
  random_draw := draw;
  strftime_now := fun fmt => fmt;
  requests_get := fun _ => inl offline;
  wikipedia_summary := fun _ _ => inl offline;
  pyjokes_get_joke := inl offline;
  psutil_usage := inr ("12.5", "40.1", "71.0");
  psutil_battery := inr None;
  platform_system := "Linux";
  pictures_dir := None;
  pyautogui_screenshot := fun _ => None;
  cv2_capture := CaptureNotOpened;
  webbrowser_open := fun _ => None;
  subprocess_Popen := fun _ => None;
  open_noah_data := if disk_ok then None else Some offline;
  json_dump := fun _ => if disk_ok then None else Some offline;
  save_and_open_notepad := fun _ _ => if disk_ok then Some "report.txt" else None
|}.

(** The exception of a user who presses Ctrl-C. *)
Definition ctrl_c : exn :=
  {| exn_class := "KeyboardInterrupt"; exn_message := "" |}.

Definition no_space : exn :=
  {| exn_class := "OSError"; exn_message := "No space left on device" |}.

(** A machine on which the user interrupts every call that goes out to
    the network, the browser or the Wikipedia library, and the dump of
    the profile. *)
Definition interrupted_world : world := {|
  backend := gemini false "" "Sure.";
  random_draw := 0;
  strftime_now := fun fmt => fmt;
  requests_get := fun _ => inl ctrl_c;
  wikipedia_summary := fun _ _ => inl ctrl_c;
  pyjokes_get_joke := inl ctrl_c;
  psutil_usage := inr ("12.5", "40.1", "71.0");
  psutil_battery := inr None;
  platform_system := "Linux";
  pictures_dir := None;
  pyautogui_screenshot := fun _ => None;
  cv2_capture := CaptureNotOpened;
  webbrowser_open := fun _ => Some ctrl_c;
  subprocess_Popen := fun _ => None;
  open_noah_data := None;
  json_dump := fun _ => Some ctrl_c;
  save_and_open_notepad := fun _ _ => Some "report.txt"
|}.

(** A machine whose disk is full: the file can be opened for writing, and
    the dump fails. *)
Definition full_disk_world : world := {|
  backend := gemini false "" "Sure.";
  random_draw := 0;
  strftime_now := fun fmt => fmt;
  requests_get := fun _ => inl offline;
  wikipedia_summary := fun _ _ => inl offline;
  pyjokes_get_joke := inl offline;
  psutil_usage := inr ("12.5", "40.1", "100.0");
  psutil_battery := inr None;
  platform_system := "Linux";
  pictures_dir := None;
  pyautogui_screenshot := fun _ => Some no_space;
  cv2_capture := CaptureNotOpened;
  webbrowser_open := fun _ => None;
  subprocess_Popen := fun _ => None;
  open_noah_data := None;
  json_dump := fun _ => Some no_space;
  save_and_open_notepad := fun _ _ => None
|}.

(** That machine with a model that answers "Sure.". *)
Definition world_of (draw : nat) (disk_ok : bool) : world :=
  world_with (gemini false "" "Sure.") draw disk_ok.

(** That machine with a model that answers with a single space. *)
Definition blank_answer_world : world :=
  world_with (gemini false "" " ") 0 true.

(** The assistant as [__init__] leaves it in text mode. *)
Definition fresh : assistant := {|
  text_mode := true;
  microphone := false;
  is_listening := true;
  user_name := DEFAULT_USER_NAME config_py;
  user_data := {| name := DEFAULT_USER_NAME config_py;
                  preferences := [];
                  conversation_history := [] |};
  chatbot := ChatbotCore.init;
  ai_model_loaded := false;
  noah_data_json := None
|}.

(** The assistant of [fresh] after a successful "load ai model". *)
Definition loaded_assistant : assistant :=
  with_ai_model_loaded true (with_chatbot loaded_chatbot fresh).

(** The assistant of [fresh] with the profile of an earlier run on disk. *)
Definition returning : assistant :=
  with_noah_data_json (Some (Dumped (user_data fresh))) fresh.

End Samples.

(** ** Notions used to state the properties *)

Module Notions.

Import PyStr Noah.

(** [p] occurs in [s] when case is ignored. *)
Definition contains_ci (p s : string) : bool :=
  contains (lower p) (lower s).

(** The post-processing in the words of the specification: cut at 800
    characters with an ellipsis, then drop a leading label. *)
Definition spec_truncate (t : string) : string :=
  if (String.length t <=? 800)%nat then t else take 800 t ++ "...".

Definition spec_strip_label (u : string) : string :=
  if startswith u "NOAH:" then strip (drop 5 u) else u.

Definition nonempty (t : string) : Prop := t <> "".

(** [m] never changes the field [f] of the assistant. *)
Definition keeps {X A} (f : assistant -> X) (m : M A) : Prop :=
  forall s, f (snd (fst (m s))) = f s.

(** [m] says only non-empty texts, and a value it returns satisfies [P]. *)
Definition sound {A} (P : A -> Prop) (m : M A) : Prop :=
  forall s,
    Forall nonempty (snd (m s)) /\
    match fst (fst (m s)) with
    | Ret a => P a
    | Raise _ => True
    end.

(** [m] says something whenever it returns. *)
Definition audible {A} (m : M A) : Prop :=
  forall s,
    match fst (fst (m s)) with
    | Ret _ => snd (m s) <> []
    | Raise _ => True
    end.

(** The assistant after a session. *)
Definition after_session (cfg : settings) (turns : list (world * string))
  (s : assistant) : assistant :=
  snd (fst (run_session cfg turns s)).

(** The word the name branch looks for: lines 633-636. *)
Definition name_marker (query : string) : string :=
  if contains "my name is" query then "is" else "me".

(** The file [noah_data.json] after an attempt to write the profile [p]
    over [old]: untouched when the opening raises, emptied or partial when
    the dump raises, and holding [p] otherwise. *)
Definition file_after_write (w : world) (p : profile) (old : option json_file)
  : option json_file :=
  match open_noah_data w with
  | Some _ => old
  | None =>
      match json_dump w p with
      | Some _ => Some Partial
      | None => Some (Dumped p)
      end
  end.

(** The write of [p] is interrupted, at the opening or at the dump. *)
Definition write_interrupted (w : world) (p : profile) : bool :=
  match open_noah_data w with
  | Some e => is_interrupt e
  | None =>
      match json_dump w p with
      | Some e => is_interrupt e
      | None => false
      end
  end.

(** The assistant after lines 640-642 took the name [n]: [user_name] and
    the name of [user_data] are [n], and the file is what the attempt to
    write the profile leaves. *)
Definition named (w : world) (n : string) (s : assistant) : assistant :=
  let s1 := with_user_data (set_name (user_data s) n) (with_user_name n s) in
  with_noah_data_json
    (file_after_write w (user_data s1) (noah_data_json s)) s1.

(** The reply of the name branch once the name [n] is taken: an
    interrupted write reaches the bare [except] of the branch. *)
Definition name_reply (w : world) (n : string) (s : assistant) : string :=
  if write_interrupted w (set_name (user_data s) n)
  then "I didn't catch your name. Please try again."
  else "Nice to meet you, " ++ n ++ "!".

(** The utterances the name branch leaves without any reply: the marker
    word occurs and its first occurrence is the last word. *)
Definition nothing_after_marker (query : string) : Prop :=
  rule_of query = Name /\
  exists pre,
    split query = (pre ++ [name_marker query])%list /\
    ~ In (name_marker query) pre.

(** A collaborator call that is not interrupted. *)
Definition calm {A} (r : exn + A) : bool :=
  match r with
  | inl e => negb (is_interrupt e)
  | inr _ => true
  end.

Definition calm_unit (r : option exn) : bool :=
  match r with
  | Some e => negb (is_interrupt e)
  | None => true
  end.

Definition calm_frame (f : frame) : bool :=
  match f with
  | FrameRaises e => negb (is_interrupt e)
  | _ => true
  end.

Definition calm_capture (c : capture) : bool :=
  match c with
  | CaptureRaises e => negb (is_interrupt e)
  | CaptureNotOpened => true
  | CaptureFrames frames => forallb calm_frame frames
  end.

(** No call of [w] that [process_command] makes under [except Exception]
    alone is interrupted: the weather service, Wikipedia, the usage figures
    of [psutil], the screenshot, the camera, the browser and the start of an
    application.  (The joke, the battery and the write of the profile are
    under a bare [except].) *)
Definition uninterrupted (w : world) : Prop :=
  (forall url, calm (requests_get w url) = true) /\
  (forall topic n, calm (wikipedia_summary w topic n) = true) /\
  calm (psutil_usage w) = true /\
  (forall path, calm_unit (pyautogui_screenshot w path) = true) /\
  calm_capture (cv2_capture w) = true /\
  (forall url, calm_unit (webbrowser_open w url) = true) /\
  (forall cmd, calm_unit (subprocess_Popen w cmd) = true).

(** [m] raises no interrupt. *)
Definition quiet {A} (m : M A) : Prop :=
  forall s,
    match fst (fst (m s)) with
    | Ret _ => True
    | Raise e => is_interrupt e = false
    end.

(** The texts the router relays word for word are not empty: the joke of
    [pyjokes], the three-sentence Wikipedia summary, and the cleaned
    answer of the model. *)
Definition relays_text (w : world) : Prop :=
  (forall joke, pyjokes_get_joke w = inr joke -> nonempty joke) /\
  (forall topic summary,
      wikipedia_summary w topic 3 = inr summary -> nonempty summary) /\
  (forall m prompt text,
      ChatbotCore.generate_content (backend w) m prompt = ChatbotCore.GenText text ->
      text <> "" -> nonempty (ChatbotCore.clean_response text)).

End Notions.

(** ** Reading an utterance and the main loop ([get_input], [listen], [run]) *)

Module NoahLoop.

Import PyStr Noah.

(** What the outside gives in one round of the loop: the line [input]
    reads from the console, and the text the recognizer makes of what the
    microphone hears; [inl e] stands for a raised [e]. *)
Record inputs := {
  console_input : exn + string;
  speech : exn + string
}.

Definition class_is (class : string) (e : exn) : bool :=
  String.eqb (exn_class e) class.

Definition recursion_error : exn :=
  {| exn_class := "RecursionError";
     exn_message := "maximum recursion depth exceeded" |}.

(** Lines 163-174, the text branch of [get_input]. *)
Definition text_input (i : inputs) : M string :=
  try_catch
    (line <- call (console_input i) ;;
     ret (lower (strip line)))
    (fun e =>
       if class_is "KeyboardInterrupt" e || class_is "EOFError" e
       then ret "exit"
       else ret "").

(** Lines 183-206, the voice part of [listen].  [KeyboardInterrupt] is no
    [Exception] and passes through the handlers. *)
Definition voice_input (i : inputs) : M string :=
  try_catch
    (query <- call (speech i) ;;
     ret (lower query))
    (fun e =>
       if class_is "KeyboardInterrupt" e then raise e
       else if class_is "WaitTimeoutError" e then ret ""
       else if class_is "UnknownValueError" e then ret ""
       else if class_is "RequestError" e then
         say "Sorry, my speech service is having issues. Switching to text mode." ;;
         modify (with_text_mode true) ;;
         ret ""
       else ret "").

(** [get_input] and [listen] call each other; [depth] is the number of
    frames the interpreter still allows, and a call beyond it raises
    [RecursionError].  [in_listen] tells which of the two is entered. *)
Fixpoint enter (depth : nat) (in_listen : bool) (i : inputs) : M string :=
  match depth with
  | O => raise recursion_error
  | S d =>
      s <- get ;;
      if in_listen then
        if negb (microphone s) || text_mode s then enter d false i
        else voice_input i
      else
        if text_mode s then text_input i
        else enter d true i
  end.

(** [get_input]. *)
Definition get_input (depth : nat) (i : inputs) : M string :=
  enter depth false i.

(** [listen]. *)
Definition listen (depth : nat) (i : inputs) : M string :=
  enter depth true i.

Definition shutdown_text : string := "Shutting down NOAH Assistant. Goodbye!".

Definition loop_error_text : string := "I encountered an error. Please try again.".

(** How a run over the rounds that are given ends: the [while] loop was
    left (its condition failed, or a [break]), or the rounds are used up
    with the loop still going on, waiting for its next input. *)
Inductive ending :=
| Stopped
| Waiting.

Section Run.
Variable cfg : settings.

(** One round of the [while] loop of [run]: [true] when the loop goes on,
    [false] after the [break].  An interrupt that passes [process_command]
    is caught here by [except KeyboardInterrupt]. *)
Definition iteration (depth : nat) (i : inputs) (w : world) : M bool :=
  try_catch
    (query <- get_input depth i ;;
     (if truthy query then process_command cfg w query else ret tt) ;;
     ret true)
    (fun e =>
       if class_is "KeyboardInterrupt" e then
         say shutdown_text ;; ret false
       else
         say loop_error_text ;; ret true).

(** The [while self.is_listening] loop over the rounds that are given. *)
Fixpoint run_loop (depth : nat) (rounds : list (inputs * world)) : M ending :=
  match rounds with
  | [] =>
      s <- get ;;
      if is_listening s then ret Waiting else ret Stopped
  | (i, w) :: rest =>
      s <- get ;;
      if is_listening s then
        go_on <- iteration depth i w ;;
        if go_on : bool then run_loop depth rest else ret Stopped
      else ret Stopped
  end.

(** Lines 864-875, what [run] does before the loop. *)
Definition run_prelude : M unit :=
  s <- get ;;
  (if text_mode s then
     say ("Hello " ++ user_name s ++ "! Running in TEXT MODE for demo reliability.")
   else
     say ("Hello " ++ user_name s ++ "! I'm NOAH, your intelligent assistant.") ;;
     say "Say 'tell me about' any topic for intelligent responses, or try 'youtube music videos' for search!") ;;
  s <- get ;;
  if negb (microphone s) && negb (text_mode s) then
    say "No microphone detected. Switching to text input mode." ;;
    modify (with_text_mode true)
  else ret tt.

(** [run]. *)
Definition run (depth : nat) (rounds : list (inputs * world)) : M ending :=
  run_prelude ;;
  run_loop depth rounds.

End Run.

End NoahLoop.

(** ** The name of a report file ([save_and_open_notepad], lines 397-400) *)

Module Report.

Import PyStr Noah.

(** [\w]. *)
Definition is_word (c : ascii) : bool :=
  isalnum c || Ascii.eqb c "_"%char.

(** [-\s]. *)
Definition is_separator (c : ascii) : bool :=
  Ascii.eqb c "-"%char || isspace c.

Fixpoint filter_chars (keep : ascii -> bool) (s : string) : string :=
  match s with
  | EmptyString => EmptyString
  | String c r =>
      if keep c then String c (filter_chars keep r) else filter_chars keep r
  end.

(** [re.sub(r'[-\s]+', '_', s)]: each maximal run of separators becomes
    one underscore; [in_run] tells that the run has been written. *)
Fixpoint collapse_runs (in_run : bool) (s : string) : string :=
  match s with
  | EmptyString => EmptyString
  | String c r =>
      if is_separator c then
        if in_run then collapse_runs true r
        else String "_"%char (collapse_runs true r)
      else String c (collapse_runs false r)
  end.

(** Lines 398-399. *)
Definition safe_topic (topic : string) : string :=
  let kept := strip (filter_chars (fun c => is_word c || is_separator c) topic) in
  take 30 (collapse_runs false kept).

(** Line 400, with the timestamp of line 397. *)
Definition report_filename (topic timestamp : string) : string :=
  "NOAH_Gemini_Info_" ++ safe_topic topic ++ "_" ++ timestamp ++ ".txt".

End Report.

(** ** Invariants of the assistant *)

Module Invariants.

Import Noah.

(** The router's flag [ai_model_loaded] is set only on a loaded chatbot. *)
Definition flag_means_loaded (s : assistant) : Prop :=
  ai_model_loaded s = true -> ChatbotCore.is_model_loaded (chatbot s) = true.

(** Voice mode is on only when there is a microphone. *)
Definition voice_needs_microphone (s : assistant) : Prop :=
  text_mode s = false -> microphone s = true.

(** The name in use is the name of the profile. *)
Definition name_in_profile (s : assistant) : Prop :=
  user_name s = name (user_data s).

(** [m] keeps the invariant [I]. *)
Definition preserves {A} (I : assistant -> Prop) (m : M A) : Prop :=
  forall s, I s -> I (snd (fst (m s))).

(** Every character of [s] satisfies [p]. *)
Fixpoint all_chars (p : ascii -> bool) (s : string) : bool :=
  match s with
  | EmptyString => true
  | String c r => p c && all_chars p r
  end.

(** The characters [quote_plus] writes. *)
Definition url_char (c : ascii) : bool :=
  isalnum c || PyStr.contains (String c EmptyString) "_.-~+%".

End Invariants.

(** ** Further notions *)

Module MoreNotions.

Import PyStr Noah.

(** The text of [get_api_status] when no key is configured. *)
Definition no_key_status : string := "❌ No API key configured".

(** A turn of the history that leaves no line in the prompt: its content
    is blank, or its role is neither "user" (the default) nor "assistant". *)
Definition ignored_turn (t : ChatbotCore.turn) : Prop :=
  strip (match ChatbotCore.content t with Some c => c | None => "" end) = "" \/
  (exists r, ChatbotCore.role t = Some r /\ r <> "user" /\ r <> "assistant").

(** The value of a hexadecimal digit. *)
Definition hex_value (c : ascii) : nat :=
  if ((48 <=? code c)%nat && (code c <=? 57)%nat) then code c - 48
  else code c - 55.

(** The inverse of [quote_plus] on what it writes: "+" is a space and
    [%XY] the character of code [16 X + Y]. *)
Fixpoint unquote_plus (s : string) : string :=
  match s with
  | EmptyString => EmptyString
  | String c r =>
      if Ascii.eqb c "+"%char then String " "%char (unquote_plus r)
      else if Ascii.eqb c "%"%char then
        match r with
        | String h1 (String h2 r') =>
            String (ascii_of_nat (16 * hex_value h1 + hex_value h2)) (unquote_plus r')
        | _ => String c (unquote_plus r)
        end
      else String c (unquote_plus r)
  end.

End MoreNotions.

(** * Properties *)

(** ** Strings *)

Module PyStrFacts.

Import PyStr Notions.

Example replace_removes_word :
  replace "search laptop on amazon" "search" "" = " laptop on amazon".
Proof. reflexivity. Qed.

Example replace_does_not_overlap : replace "aaa" "aa" "b" = "ba".
Proof. reflexivity. Qed.

Example split_skips_runs :
  split " weather  in new york " = ["weather"; "in"; "new"; "york"].
Proof. reflexivity. Qed.

Example title_after_uncased :
  title "alex o'neil mcDONALD 3rd" = "Alex O'Neil Mcdonald 3Rd".
Proof. reflexivity. Qed.

Lemma upper_lower_char (c : ascii) : upper_char (lower_char c) = upper_char c.
Proof.
  destruct c as [[] [] [] [] [] [] [] []]; reflexivity.
Qed.

Lemma lower_upper_char (c : ascii) : lower_char (upper_char c) = lower_char c.
Proof.
  destruct c as [[] [] [] [] [] [] [] []]; reflexivity.
Qed.

Lemma upper_lower (s : string) : upper (lower s) = upper s.
Proof.
  unfold upper, lower.
  induction s as [| c r IH]; simpl; [reflexivity |].
  now rewrite IH, upper_lower_char.
Qed.

Lemma lower_upper (s : string) : lower (upper s) = lower s.
Proof.
  unfold upper, lower.
  induction s as [| c r IH]; simpl; [reflexivity |].
  now rewrite IH, lower_upper_char.
Qed.

Lemma prefix_map (f : ascii -> ascii) (p s : string) :
  String.prefix p s = true ->
  String.prefix (map_chars f p) (map_chars f s) = true.
Proof.
  revert s.
  induction p as [| a p IH]; intros s H; simpl; [now destruct s |].
  destruct s as [| b s]; simpl in *; [discriminate |].
  destruct (ascii_dec a b) as [-> | Hne]; [| discriminate].
  destruct (ascii_dec (f b) (f b)) as [_ | Hx]; [| now elim Hx].
  now apply IH.
Qed.

Lemma contains_map (f : ascii -> ascii) (p s : string) :
  contains p s = true ->
  contains (map_chars f p) (map_chars f s) = true.
Proof.
  induction s as [| c r IH]; intros H.
  - destruct p; simpl in *; [reflexivity | discriminate].
  - cbn [contains map_chars] in *.
    apply orb_true_iff in H.
    destruct H as [H | H].
    + apply (prefix_map f) in H. cbn [map_chars] in H. now rewrite H.
    + rewrite (IH H). apply orb_true_r.
Qed.

Lemma contains_ci_upper (p s : string) :
  contains_ci p s = contains (upper p) (upper s).
Proof.
  unfold contains_ci.
  destruct (contains (lower p) (lower s)) eqn:Hl;
    destruct (contains (upper p) (upper s)) eqn:Hu; try reflexivity.
  - apply (contains_map upper_char) in Hl.
    fold (upper (lower p)) in Hl. fold (upper (lower s)) in Hl.
    rewrite !upper_lower in Hl. congruence.
  - apply (contains_map lower_char) in Hu.
    fold (lower (upper p)) in Hu. fold (lower (upper s)) in Hu.
    rewrite !lower_upper in Hu. congruence.
Qed.

Lemma length_take (n : nat) (s : string) : String.length (take n s) <= n.
Proof.
  revert s; induction n as [| n IH]; intros [| c r]; simpl; try lia.
  specialize (IH r). lia.
Qed.

Lemma length_drop (n : nat) (s : string) :
  String.length (drop n s) <= String.length s.
Proof.
  revert s; induction n as [| n IH]; intros [| c r]; simpl; try lia.
  specialize (IH r). lia.
Qed.

Lemma length_lstrip (s : string) : String.length (lstrip s) <= String.length s.
Proof.
  induction s as [| c r IH]; simpl; [lia |].
  destruct (isspace c); simpl; lia.
Qed.

Lemma length_rstrip (s : string) : String.length (rstrip s) <= String.length s.
Proof.
  induction s as [| c r IH]; simpl; [lia |].
  destruct (rstrip r) eqn:E; simpl in *.
  - destruct (isspace c); simpl; lia.
  - lia.
Qed.

Lemma length_strip (s : string) : String.length (strip s) <= String.length s.
Proof.
  unfold strip.
  pose proof (length_rstrip (lstrip s)).
  pose proof (length_lstrip s). lia.
Qed.

Lemma length_append (a b : string) :
  String.length (a ++ b) = String.length a + String.length b.
Proof.
  induction a as [| c a IH]; simpl; [reflexivity | now rewrite IH].
Qed.

Lemma prefix_app_self (a b : string) : String.prefix a (a ++ b) = true.
Proof.
  induction a as [| c a IH]; [now destruct b |].
  cbn [append String.prefix].
  destruct (ascii_dec c c) as [_ | Hne]; [exact IH | now elim Hne].
Qed.

(** A text contains what it is built around. *)
Lemma contains_infix (a p b : string) : contains p (a ++ p ++ b) = true.
Proof.
  induction a as [| c a IH].
  - cbn [append]. destruct (p ++ b) eqn:Hpb; cbn [contains];
      rewrite <- ?Hpb, prefix_app_self; reflexivity.
  - cbn [append contains]. rewrite IH. apply orb_true_r.
Qed.

End PyStrFacts.

(** ** The chat backend adapter *)

Module ChatbotFacts.

Import PyStr Notions PyStrFacts ChatbotCore.

(** [load_gemini_api] returns [False] exactly when the resolved key is
    missing, empty or the placeholder, or when a collaborator raises. *)
Lemma load_gemini_api_false_iff (cfg : settings) (b : backend)
  (arg : option string) (c : chatbot) :
  fst (load_gemini_api cfg b arg c) = false <->
  match resolve_key cfg b arg with
  | None => True
  | Some k =>
      k = "" \/ k = placeholder \/
      genai_configure b k <> None \/
      (exists e, genai_GenerativeModel b (GEMINI_MODEL cfg) = inl e)
  end.
Proof.
  unfold load_gemini_api.
  destruct (resolve_key cfg b arg) as [k |]; [| simpl; tauto].
  destruct k as [| a k].
  - simpl. tauto.
  - cbn [PyStr.truthy negb orb].
    destruct (String.eqb_spec (String a k) placeholder) as [-> | Hne].
    + simpl. tauto.
    + destruct (genai_configure b (String a k)) as [e |] eqn:Hc.
      * simpl. split; [intros _ | reflexivity].
        right; right; left. discriminate.
      * destruct (genai_GenerativeModel b (GEMINI_MODEL cfg)) as [e | m] eqn:Hm.
        -- simpl. split; [intros _ | reflexivity].
           right; right; right. now exists e.
        -- simpl. split; [discriminate |].
           intros [H | [H | [H | [e H]]]];
             try discriminate; try contradiction.
  Qed.

(** C5 (as amended).  When [load_gemini_api] returns [False], [model_type],
    [gemini_model] and [concise_mode] keep their prior values, so
    [is_model_loaded] keeps its prior value and stays false when the model
    was not loaded before; only [api_key] is overwritten, with the resolved
    key.  The key is the explicit argument when it is non-empty, else the
    environment variable when it is non-empty, else the config value when
    it is non-empty, else [None]. *)
Theorem load_gemini_api_failure_keeps_model (cfg : settings) (b : backend)
  (arg : option string) (c : chatbot) :
  fst (load_gemini_api cfg b arg c) = false ->
  let c' := snd (load_gemini_api cfg b arg c) in
  (model_type c' = model_type c /\
   gemini_model c' = gemini_model c /\
   concise_mode c' = concise_mode c /\
   is_model_loaded c' = is_model_loaded c /\
   (is_model_loaded c = false -> is_model_loaded c' = false)) /\
  api_key c' = resolve_key cfg b arg /\
  (truthy arg = true -> resolve_key cfg b arg = arg) /\
  (truthy arg = false -> truthy (getenv_GEMINI_API_KEY b) = true ->
   resolve_key cfg b arg = getenv_GEMINI_API_KEY b) /\
  (truthy arg = false -> truthy (getenv_GEMINI_API_KEY b) = false ->
   truthy (GEMINI_API_KEY cfg) = true ->
   resolve_key cfg b arg = GEMINI_API_KEY cfg) /\
  (truthy arg = false -> truthy (getenv_GEMINI_API_KEY b) = false ->
   truthy (GEMINI_API_KEY cfg) = false ->
   resolve_key cfg b arg = None).
Proof.
  intros Hfail c'.
  assert (Hc' : model_type c' = model_type c /\
                gemini_model c' = gemini_model c /\
                concise_mode c' = concise_mode c /\
                api_key c' = resolve_key cfg b arg).
  { subst c'. revert Hfail. unfold load_gemini_api.
    destruct (resolve_key cfg b arg) as [k |]; [| now simpl].
    destruct (negb (PyStr.truthy k) || String.eqb k placeholder); [now simpl |].
    destruct (genai_configure b k); [now simpl |].
    destruct (genai_GenerativeModel b (GEMINI_MODEL cfg)); [now simpl |].
    simpl. discriminate. }
  destruct Hc' as (Hty & Hmod & Hcon & Hkey).
  assert (Hloaded : is_model_loaded c' = is_model_loaded c).
  { unfold is_model_loaded. now rewrite Hty, Hmod. }
  repeat split; try assumption.
  - intros H. now rewrite Hloaded.
  - intros H. unfold resolve_key. now rewrite H.
  - intros Ha He. unfold resolve_key, py_or. now rewrite Ha, He.
  - intros Ha He Hc. unfold resolve_key, py_or. now rewrite Ha, He, Hc.
  - intros Ha He Hc. unfold resolve_key, py_or. now rewrite Ha, He, Hc.
Qed.

Lemma load_gemini_api_failure_keeps_model_witness :
  fst (load_gemini_api config_py Samples.rejecting None init) = false /\
  is_model_loaded (snd (load_gemini_api config_py Samples.rejecting None init)) = false /\
  api_key (snd (load_gemini_api config_py Samples.rejecting None init)) = Some "env-key".
Proof.
  assert (H : fst (load_gemini_api config_py Samples.rejecting None init) = false)
    by reflexivity.
  destruct (load_gemini_api_failure_keeps_model
              config_py Samples.rejecting None init H)
    as ((_ & _ & _ & _ & Hl) & Hk & _).
  split; [exact H | split].
  - apply Hl. reflexivity.
  - rewrite Hk. reflexivity.
Defined.

(** A reload that fails on a loaded chatbot returns [False] and the
    chatbot is still loaded, with the rejected key stored: the flag does
    not "stay false" and the object is not left as it was. *)
Lemma failed_reload_still_loaded :
  let r := load_gemini_api config_py Samples.rejecting (Some "second-key")
             Samples.loaded_chatbot in
  fst r = false /\
  is_model_loaded (snd r) = true /\
  api_key Samples.loaded_chatbot = Some "first-key" /\
  api_key (snd r) = Some "second-key".
Proof. repeat split. Qed.

(** The adapter answers every raised error with one of its five fixed
    texts. *)
Lemma error_reply_fixed (message : string) :
  In (error_reply message)
     [api_key_error_reply; quota_error_reply; safety_error_reply;
      network_error_reply; generic_error_reply].
Proof.
  unfold error_reply.
  repeat match goal with
         | |- context [if ?b then _ else _] => destruct b
         end; simpl; tauto.
Qed.

(** C6 (as amended).  When the generation raises an error whose message
    contains "quota" (case ignored), [generate_gemini_response] returns a
    fixed text that is never the generic one: the quota text when the
    message contains neither "api_key" nor "authentication" (case
    ignored), and the API-key text otherwise, since that test comes
    first. *)
Theorem quota_error_never_generic (b : backend) (c : chatbot)
  (message : string) (chat_history : list turn) (e : string) :
  generate_attempt b c (gemini_model c) message chat_history = inl e ->
  contains_ci "quota" e = true ->
  generate_gemini_response b c message chat_history <> generic_error_reply /\
  (contains_ci "api_key" e = false ->
   contains_ci "authentication" e = false ->
   generate_gemini_response b c message chat_history = quota_error_reply) /\
  (contains_ci "api_key" e = true \/ contains_ci "authentication" e = true ->
   generate_gemini_response b c message chat_history = api_key_error_reply).
Proof.
  intros Hraise Hquota.
  unfold generate_gemini_response. rewrite Hraise.
  rewrite contains_ci_upper in Hquota.
  change (upper "quota") with "QUOTA" in Hquota.
  unfold error_reply.
  rewrite !contains_ci_upper.
  change (upper "api_key") with "API_KEY".
  change (upper "authentication") with "AUTHENTICATION".
  rewrite Hquota. cbn [orb].
  destruct (contains "API_KEY" (upper e)); destruct (contains "AUTHENTICATION" (upper e));
    cbn [orb]; repeat split; intros; try discriminate; try reflexivity;
    try (destruct H; discriminate).
Qed.

Lemma quota_error_never_generic_witness :
  generate_gemini_response
    (Samples.gemini true "429 Quota exceeded for this project" "")
    Samples.loaded_chatbot "hello" [] = quota_error_reply.
Proof.
  refine (proj1 (proj2 (quota_error_never_generic
            (Samples.gemini true "429 Quota exceeded for this project" "")
            Samples.loaded_chatbot "hello" []
            "429 Quota exceeded for this project" _ _)) _ _);
    reflexivity.
Defined.

(** An error that names both the quota and the key is answered with the
    API-key text, not the quota text. *)
Lemma quota_error_with_key_counterexample :
  let e := "Quota exceeded for consumer api_key:1234" in
  generate_attempt (Samples.gemini true e "") Samples.loaded_chatbot
    (gemini_model Samples.loaded_chatbot) "hello" [] = inl e /\
  contains_ci "quota" e = true /\
  generate_gemini_response (Samples.gemini true e "") Samples.loaded_chatbot
    "hello" [] = api_key_error_reply /\
  api_key_error_reply <> quota_error_reply.
Proof. repeat split. discriminate. Qed.

Lemma clean_response_refines (text : string) :
  clean_response text = spec_strip_label (spec_truncate (strip text)).
Proof.
  unfold clean_response, spec_strip_label, spec_truncate.
  rewrite Nat.ltb_antisym.
  now destruct (String.length (strip text) <=? 800)%nat.
Qed.

Lemma prefix_append (p a b : string) :
  String.length p <= String.length a ->
  String.prefix p (a ++ b) = String.prefix p a.
Proof.
  revert a.
  induction p as [| x p IH]; intros a Hlen.
  - now destruct a; destruct b.
  - destruct a as [| y a]; simpl in Hlen; [lia |].
    simpl. destruct (ascii_dec x y); [| reflexivity].
    apply IH. lia.
Qed.

Lemma prefix_take (p t : string) (n : nat) :
  String.length p <= n ->
  String.prefix p (take n t) = String.prefix p t.
Proof.
  revert t n.
  induction p as [| x p IH]; intros t n Hlen.
  - destruct t; destruct n; reflexivity.
  - destruct n as [| n]; simpl in Hlen; [lia |].
    destruct t as [| y t]; simpl; [reflexivity |].
    destruct (ascii_dec x y); [| reflexivity].
    apply IH. lia.
Qed.

Lemma length_take_ge (n : nat) (t : string) :
  n <= String.length t -> String.length (take n t) = n.
Proof.
  revert t; induction n as [| n IH]; intros [| c r]; simpl; try lia.
  intros H. rewrite IH; lia.
Qed.

(** C7.  For a non-empty model output, the reply is the trimmed text when
    it has at most 800 characters and otherwise its first 800 characters
    followed by "..."; a leading "NOAH:" of that text is removed, with the
    whitespace around what is left.  The reply has at most 803
    characters. *)
Theorem generate_gemini_response_post_processing (b : backend) (c : chatbot)
  (m : model) (message : string) (chat_history : list turn) (text : string) :
  gemini_model c = Some m ->
  generate_content b m (final_prompt c message chat_history) = GenText text ->
  text <> "" ->
  let t := strip text in
  let reply := generate_gemini_response b c message chat_history in
  reply = spec_strip_label (spec_truncate t) /\
  (startswith t "NOAH:" = false -> String.length t <= 800 -> reply = t) /\
  (startswith t "NOAH:" = false -> 800 < String.length t ->
   reply = take 800 t ++ "...") /\
  (startswith t "NOAH:" = true -> String.length t <= 800 ->
   reply = strip (drop 5 t)) /\
  (startswith t "NOAH:" = true -> 800 < String.length t ->
   reply = strip (drop 5 (take 800 t ++ "..."))) /\
  String.length reply <= 803.
Proof.
  intros Hm Hgen Htext t reply.
  assert (Hreply : reply = clean_response text).
  { subst reply. unfold generate_gemini_response, generate_attempt.
    rewrite Hm, Hgen. destruct text; [contradiction | reflexivity]. }
  assert (Hcut : 800 < String.length t ->
                 startswith (take 800 t ++ "...") "NOAH:" = startswith t "NOAH:").
  { intros Hlong. unfold startswith.
    rewrite prefix_append by (rewrite length_take_ge; simpl; lia).
    apply prefix_take. simpl; lia. }
  rewrite Hreply, clean_response_refines. fold t.
  unfold spec_strip_label, spec_truncate.
  repeat split.
  - intros Hlabel Hlen.
    apply Nat.leb_le in Hlen. now rewrite Hlen, Hlabel.
  - intros Hlabel Hlen.
    rewrite <- Hcut in Hlabel by assumption.
    apply Nat.leb_gt in Hlen. now rewrite Hlen, Hlabel.
  - intros Hlabel Hlen.
    apply Nat.leb_le in Hlen. now rewrite Hlen, Hlabel.
  - intros Hlabel Hlen.
    rewrite <- Hcut in Hlabel by assumption.
    apply Nat.leb_gt in Hlen. now rewrite Hlen, Hlabel.
  - set (u := if (String.length t <=? 800)%nat then t else take 800 t ++ "...").
    assert (Hu : String.length u <= 803).
    { subst u. destruct (Nat.leb_spec (String.length t) 800); [lia |].
      rewrite length_append. change (String.length "...") with 3.
      pose proof (length_take 800 t). lia. }
    destruct (startswith u "NOAH:"); [| exact Hu].
    eapply Nat.le_trans; [apply length_strip |].
    eapply Nat.le_trans; [apply length_drop | exact Hu].
Qed.

Lemma generate_gemini_response_post_processing_witness :
  generate_gemini_response (Samples.gemini false "" "  NOAH: Sure, here it is.  ")
    Samples.loaded_chatbot "hello" [] = "Sure, here it is.".
Proof.
  refine (proj1 (proj2 (proj2 (proj2
            (generate_gemini_response_post_processing
               (Samples.gemini false "" "  NOAH: Sure, here it is.  ")
               Samples.loaded_chatbot
               (GenerativeModel "gemini-1.5-flash") "hello" []
               "  NOAH: Sure, here it is.  " _ _ _)))) _ _);
    try reflexivity.
  - discriminate.
  - apply Nat.leb_le. reflexivity.
Defined.

End ChatbotFacts.

(** ** The command router *)

Module NoahFacts.

Import PyStr Notions PyStrFacts Noah.

(** *** Words of an utterance *)

Lemma index_none (w : string) (ws : list string) :
  index w ws = None <-> ~ In w ws.
Proof.
  induction ws as [| x ws IH]; simpl.
  - tauto.
  - destruct (String.eqb_spec x w) as [-> | Hne].
    + split; [discriminate | tauto].
    + destruct (index w ws); simpl.
      * split; [discriminate |].
        intros H. exfalso.
        destruct IH as [_ IH]. enough (Some n = None) by discriminate.
        apply IH. tauto.
      * split; [| reflexivity].
        intros _ [H | H]; [contradiction | now apply IH].
Qed.

Lemma index_first (w : string) (pre post : list string) :
  ~ In w pre -> index w (pre ++ w :: post) = Some (List.length pre).
Proof.
  induction pre as [| x pre IH]; simpl; intros Hpre.
  - now rewrite String.eqb_refl.
  - destruct (String.eqb_spec x w) as [-> | Hne]; [tauto |].
    rewrite IH by tauto. reflexivity.
Qed.

Lemma index_some (w : string) (ws : list string) (i : nat) :
  index w ws = Some i ->
  exists pre post,
    ws = (pre ++ w :: post)%list /\ ~ In w pre /\ i = List.length pre.
Proof.
  revert i.
  induction ws as [| x ws IH]; simpl; intros i H; [discriminate |].
  destruct (String.eqb_spec x w) as [-> | Hne].
  - injection H as <-. now exists [], ws.
  - destruct (index w ws) as [j |]; [| discriminate].
    injection H as <-.
    destruct (IH j eq_refl) as (pre & post & -> & Hpre & ->).
    exists (x :: pre), post. simpl. intuition congruence.
Qed.

Lemma mem_In (w : string) (ws : list string) : mem w ws = true <-> In w ws.
Proof.
  unfold mem. rewrite existsb_exists. split.
  - intros (x & Hx & Heq). apply String.eqb_eq in Heq. now subst.
  - intros H. exists w. split; [assumption | apply String.eqb_refl].
Qed.

Lemma skipn_after (w : string) (pre post : list string) :
  skipn (List.length pre + 1) (pre ++ w :: post) = post.
Proof.
  induction pre as [| x pre IH]; simpl; [reflexivity | exact IH].
Qed.

(** The words of [split] are never empty. *)
Lemma flush_nonempty (cur : list ascii) : Forall (fun t => t <> "") (flush cur).
Proof.
  destruct cur as [| c cur]; simpl; constructor; [| constructor].
  intros H.
  apply (f_equal list_ascii_of_string) in H.
  rewrite list_ascii_of_string_of_list_ascii in H. simpl in H.
  now destruct (rev cur).
Qed.

Lemma split_from_nonempty (s : string) (cur : list ascii) :
  Forall (fun t => t <> "") (split_from cur s).
Proof.
  revert cur.
  induction s as [| c r IH]; intros cur; simpl.
  - apply flush_nonempty.
  - destruct (isspace c); [| apply IH].
    apply Forall_app. split; [apply flush_nonempty | apply IH].
Qed.

Lemma split_nonempty (s : string) : Forall (fun t => t <> "") (split s).
Proof. apply split_from_nonempty. Qed.

(** Joined words are empty only when there is no word. *)
Lemma join_truthy (sep : string) (ws : list string) :
  Forall (fun t => t <> "") ws ->
  truthy (join sep ws) = match ws with [] => false | _ => true end.
Proof.
  intros H. destruct ws as [| x ws]; [reflexivity |].
  inversion_clear H as [| ? ? Hx _].
  destruct x as [| c x]; [contradiction |].
  destruct ws; reflexivity.
Qed.

(** *** Dispatch *)

(** [process_body] runs the branch of the first rule that matches. *)
Lemma process_body_dispatch (cfg : settings) (w : world) (query : string) :
  process_body cfg w query = run_rule cfg w (rule_of query) query.
Proof.
  unfold process_body, rule_of, rule_tests. cbn [first_rule].
  repeat match goal with
         | |- context [if ?b then _ else _] => destruct b; [reflexivity |]
         end.
  reflexivity.
Qed.

(** [process_command] on a non-empty utterance. *)
Lemma process_command_nonempty (cfg : settings) (w : world) (query : string) :
  query <> "" ->
  process_command cfg w query =
  try_except (run_rule cfg w (rule_of query) query) (fun _ => say error_reply).
Proof.
  intros H. unfold process_command.
  destruct query; [contradiction |].
  now rewrite process_body_dispatch.
Qed.

Lemma rule_nonempty (query : string) : rule_of query <> Fallback -> query <> "".
Proof. intros H ->. now apply H. Qed.

(** *** Running the combinators *)

Lemma run_bind_ret {A B} (m : M A) (k : A -> M B) (s s1 : assistant)
  (a : A) (o1 : list string) :
  m s = (Ret a, s1, o1) ->
  bind m k s = (let '(r, s2, o2) := k a s1 in (r, s2, (o1 ++ o2)%list)).
Proof. intros H. unfold bind. now rewrite H. Qed.

Lemma run_try_ret {A} (m : M A) (h : exn -> M A) (s s1 : assistant)
  (a : A) (o1 : list string) :
  m s = (Ret a, s1, o1) -> try_catch m h s = (Ret a, s1, o1).
Proof. intros H. unfold try_catch. now rewrite H. Qed.

Lemma run_except_ret {A} (m : M A) (h : exn -> M A) (s s1 : assistant)
  (a : A) (o1 : list string) :
  m s = (Ret a, s1, o1) -> try_except m h s = (Ret a, s1, o1).
Proof. intros H. unfold try_except. now apply run_try_ret. Qed.

(** An interrupt passes [except Exception]. *)
Lemma run_except_interrupt {A} (m : M A) (h : exn -> M A) (s s1 : assistant)
  (e : exn) (o1 : list string) :
  m s = (Raise e, s1, o1) -> is_interrupt e = true ->
  try_except m h s = (Raise e, s1, o1).
Proof.
  intros H He. unfold try_except, try_catch. rewrite H, He.
  unfold raise. now rewrite app_nil_r.
Qed.

(** Any other exception is handled. *)
Lemma run_except_caught {A} (m : M A) (h : exn -> M A) (s s1 : assistant)
  (e : exn) (o1 : list string) :
  m s = (Raise e, s1, o1) -> is_interrupt e = false ->
  try_except m h s = (let '(r, s2, o2) := h e s1 in (r, s2, (o1 ++ o2)%list)).
Proof. intros H He. unfold try_except, try_catch. now rewrite H, He. Qed.

(** What passes [except Exception] is an interrupt. *)
Lemma try_except_raises {A} (m : M A) (h : exn -> M A) (s s1 : assistant)
  (e : exn) (o1 : list string) :
  (forall e0 s0, exists a s2 o2, h e0 s0 = (Ret a, s2, o2)) ->
  try_except m h s = (Raise e, s1, o1) -> is_interrupt e = true.
Proof.
  intros Hh. unfold try_except, try_catch.
  destruct (m s) as [[[a | e0] s0] o0]; [discriminate |].
  destruct (is_interrupt e0) eqn:He0.
  - unfold raise. intros H. now injection H as <- _ _.
  - destruct (Hh e0 s0) as (a & s2 & o2 & ->). discriminate.
Qed.

(** [get_free_weather]: the text by the answer of the service; an
    interrupted request passes. *)
Lemma get_free_weather_run (w : world) (city : string) (s : assistant) :
  get_free_weather w city s =
  match requests_get w ("http://wttr.in/" ++ city ++ "?format=3") with
  | inr response =>
      (Ret (if (fst response =? 200)%nat then strip (snd response)
            else "Weather information not available"), s, [])
  | inl e =>
      if is_interrupt e then (Raise e, s, [])
      else (Ret "Could not get weather information", s, [])
  end.
Proof.
  unfold get_free_weather, try_except, try_catch, bind, call.
  destruct (requests_get w _) as [e | [status text]]; simpl.
  - now destruct (is_interrupt e).
  - now destruct (status =? 200)%nat.
Qed.

(** [smart_search]: the text by the answer of the browser; an interrupted
    call passes the three handlers. *)
Lemma smart_search_run (w : world) (query platform : string) (s : assistant) :
  smart_search w query platform s =
  match webbrowser_open w (search_url platform (quote_plus query)) with
  | None => (Ret ("Opening " ++ platform ++ " and searching for " ++ query), s, [])
  | Some e =>
      if is_interrupt e then (Raise e, s, [])
      else (Ret ("Could not open " ++ platform ++
                 ". Please check your default browser settings."), s, [])
  end.
Proof.
  unfold smart_search, try_except, try_catch, bind, call_unit.
  destruct (webbrowser_open w _) as [e |]; [| reflexivity].
  simpl. destruct (is_interrupt e) eqn:He; simpl; [now rewrite He |].
  reflexivity.
Qed.

(** *** The greeting rule *)

(** C10.  Greeting detection is substring containment: an utterance that
    matches none of the information-request, model-load, status and
    mode-switch rules and contains "hi" anywhere is answered by the
    greeting branch alone, whatever later rules it also matches. *)
Theorem greeting_matches_substring (cfg : settings) (w : world)
  (query : string) (s : assistant) :
  is_tell_me query = false ->
  is_load_model query = false ->
  is_config_status query = false ->
  is_text_mode query = false ->
  is_voice_mode query = false ->
  contains "hi" query = true ->
  rule_of query = Greeting /\
  process_command cfg w query s =
  (Ret tt, s, [nth (random_draw w mod 3) (greetings (user_name s)) ""]).
Proof.
  intros H1 H2 H3 H4 H5 Hhi.
  assert (Hrule : rule_of query = Greeting).
  { unfold rule_of, rule_tests. cbn [first_rule].
    rewrite H1, H2, H3, H4, H5.
    unfold is_greeting, contains_any. cbn [existsb].
    rewrite Hhi. now rewrite orb_true_r. }
  split; [exact Hrule |].
  rewrite process_command_nonempty by (apply rule_nonempty; now rewrite Hrule).
  rewrite Hrule. reflexivity.
Qed.

Lemma greeting_matches_substring_witness :
  is_time "this time" = true /\
  rule_of "this time" = Greeting /\
  process_command config_py (Samples.world_of 0 true) "this time" Samples.fresh =
  (Ret tt, Samples.fresh, ["Hello Rudra! How can I help you today?"]).
Proof.
  split; [reflexivity |].
  apply (greeting_matches_substring config_py (Samples.world_of 0 true)
           "this time" Samples.fresh); reflexivity.
Defined.

(** *** The weather rule *)

(** C8.  In the weather branch, when the word "in" occurs and a word
    follows its first occurrence, the city is the words after it joined
    by spaces; otherwise it is the default city.  "weather in Tokyo"
    gives "Tokyo" and "weather" gives the default city.  The weather is
    asked for that city and the reply names it; an interrupt of the
    request is the one thing that keeps the reply from being said. *)
Theorem weather_city_extraction (cfg : settings) (w : world)
  (query : string) (s : assistant) :
  rule_of query = Weather ->
  (forall pre post,
      split query = (pre ++ "in" :: post)%list -> ~ In "in" pre ->
      weather_city cfg query =
      match post with [] => DEFAULT_CITY cfg | _ => join " " post end) /\
  (~ In "in" (split query) -> weather_city cfg query = DEFAULT_CITY cfg) /\
  (calm (requests_get w ("http://wttr.in/" ++ weather_city cfg query ++ "?format=3"))
   = true ->
   exists weather,
      get_free_weather w (weather_city cfg query) s = (Ret weather, s, []) /\
      process_command cfg w query s =
      (Ret tt, s, ["Weather in " ++ weather_city cfg query ++ ": " ++ weather])) /\
  (forall e,
      requests_get w ("http://wttr.in/" ++ weather_city cfg query ++ "?format=3")
      = inl e ->
      is_interrupt e = true ->
      process_command cfg w query s = (Raise e, s, [])) /\
  (rule_of "weather in Tokyo" = Weather /\
   weather_city cfg "weather in Tokyo" = "Tokyo") /\
  (rule_of "weather" = Weather /\
   weather_city cfg "weather" = DEFAULT_CITY cfg).
Proof.
  intros Hrule.
  split; [| split; [| split; [| split; [| split; split; reflexivity]]]].
  - intros pre post Hsplit Hpre.
    unfold weather_city. rewrite Hsplit.
    replace (mem "in" (pre ++ "in" :: post)) with true
      by (symmetry; apply mem_In, in_elt).
    rewrite index_first by assumption.
    rewrite skipn_after, length_app. cbn [List.length].
    destruct post as [| x post].
    + replace (_ <? _)%nat with false; [reflexivity |].
      symmetry. apply Nat.ltb_ge. cbn [List.length]. lia.
    + replace (_ <? _)%nat with true; [reflexivity |].
      symmetry. apply Nat.ltb_lt. cbn [List.length]. lia.
  - intros Hnot. unfold weather_city.
    destruct (mem "in" (split query)) eqn:Hmem; [| reflexivity].
    apply mem_In in Hmem. contradiction.
  - intros Hcalm.
    assert (Hweather : exists weather,
               get_free_weather w (weather_city cfg query) s = (Ret weather, s, [])).
    { rewrite get_free_weather_run.
      destruct (requests_get w _) as [e | response]; [| now eexists].
      cbn [calm] in Hcalm. apply negb_true_iff in Hcalm. rewrite Hcalm.
      now eexists. }
    destruct Hweather as [weather Hweather].
    exists weather. split; [exact Hweather |].
    rewrite process_command_nonempty by (apply rule_nonempty; now rewrite Hrule).
    rewrite Hrule. cbn [run_rule]. unfold weather_branch.
    apply run_except_ret.
    rewrite (run_bind_ret _ _ _ _ _ _ Hweather). reflexivity.
  - intros e Hget He.
    rewrite process_command_nonempty by (apply rule_nonempty; now rewrite Hrule).
    rewrite Hrule. cbn [run_rule]. unfold weather_branch.
    apply run_except_interrupt; [| exact He].
    unfold bind. rewrite get_free_weather_run, Hget, He. reflexivity.
Qed.

Lemma weather_city_extraction_witness :
  weather_city config_py "weather in New  York" = "New York" /\
  weather_city config_py "weather in" = "Mumbai".
Proof.
  pose proof (weather_city_extraction config_py (Samples.world_of 0 true)
                "weather in New  York" Samples.fresh eq_refl) as (H & _).
  split.
  - exact (H ["weather"] ["New"; "York"] eq_refl
             (fun x => match x with
                       | or_introl e => ltac:(discriminate e)
                       | or_intror f => f
                       end)).
  - reflexivity.
Defined.

(** *** The generic search rule *)

(** C2.  "search laptop on amazon" is answered by the generic search
    branch, which detects the platform amazon and hands the query
    "laptop on" to [smart_search]: the platform keyword is removed from the
    query, the connector "on" is not.  The URL opened and the reply carry
    "laptop on"; when the opening of the browser is interrupted nothing is
    said and the interrupt passes. *)
Theorem search_laptop_on_amazon (cfg : settings) (w : world) (s : assistant) :
  rule_of "search laptop on amazon" = Search /\
  search_target "search laptop on amazon" = ("amazon", "laptop on") /\
  process_command cfg w "search laptop on amazon" s =
  match webbrowser_open w "https://www.amazon.com/s?k=laptop+on" with
  | None => (Ret tt, s, ["Opening amazon and searching for laptop on"])
  | Some e =>
      if is_interrupt e then (Raise e, s, [])
      else (Ret tt, s,
            ["Could not open amazon. Please check your default browser settings."])
  end.
Proof.
  split; [reflexivity | split; [reflexivity |]].
  rewrite process_command_nonempty by discriminate.
  change (rule_of "search laptop on amazon") with Search.
  cbn [run_rule]. unfold search_branch.
  change (search_target "search laptop on amazon") with ("amazon", "laptop on").
  cbn [truthy].
  pose proof (smart_search_run w "laptop on" "amazon" s) as Hrun.
  change (search_url "amazon" (quote_plus "laptop on"))
    with "https://www.amazon.com/s?k=laptop+on" in Hrun.
  destruct (webbrowser_open w "https://www.amazon.com/s?k=laptop+on") as [e |].
  - destruct (is_interrupt e) eqn:He.
    + apply run_except_interrupt; [| exact He].
      unfold bind. now rewrite Hrun.
    + apply run_except_ret.
      rewrite (run_bind_ret _ _ _ _ _ _ Hrun). reflexivity.
  - apply run_except_ret.
    rewrite (run_bind_ret _ _ _ _ _ _ Hrun). reflexivity.
Qed.

(** The direct YouTube and Google branches do remove "on". *)
Example direct_searches_strip_on (w : world) (s : assistant) :
  webbrowser_open w "https://www.youtube.com/results?search_query=laptop" = None ->
  youtube_branch w "youtube laptop on" s =
  (Ret tt, s, ["Opening youtube and searching for laptop"]).
Proof.
  intros Hopen.
  unfold youtube_branch.
  change (strip _) with "laptop". cbn [truthy].
  pose proof (smart_search_run w "laptop" "youtube" s) as Hrun.
  change (search_url "youtube" (quote_plus "laptop"))
    with "https://www.youtube.com/results?search_query=laptop" in Hrun.
  rewrite Hopen in Hrun.
  rewrite (run_bind_ret _ _ _ _ _ _ Hrun). reflexivity.
Qed.

(** *** What a call leaves unchanged *)

Section Keeps.
Context {X : Type} (f : assistant -> X).

Lemma keeps_ret {A} (a : A) : keeps f (ret a).
Proof. now intros s. Qed.

Lemma keeps_raise {A} (e : exn) : keeps f (@raise A e).
Proof. now intros s. Qed.

Lemma keeps_get : keeps f get.
Proof. now intros s. Qed.

Lemma keeps_say (text : string) : keeps f (say text).
Proof. now intros s. Qed.

Lemma keeps_call {A} (r : exn + A) : keeps f (call r).
Proof. now destruct r; intros s. Qed.

Lemma keeps_call_unit (r : option exn) : keeps f (call_unit r).
Proof. now destruct r; intros s. Qed.

Lemma keeps_modify (g : assistant -> assistant) :
  (forall s, f (g s) = f s) -> keeps f (modify g).
Proof. intros H s. apply H. Qed.

Lemma keeps_bind {A B} (m : M A) (k : A -> M B) :
  keeps f m -> (forall a, keeps f (k a)) -> keeps f (bind m k).
Proof.
  intros Hm Hk s. unfold bind.
  specialize (Hm s).
  destruct (m s) as [[[a | e] s1] o1]; simpl in *; [| exact Hm].
  specialize (Hk a s1).
  destruct (k a s1) as [[r s2] o2]; simpl in *. congruence.
Qed.

Lemma keeps_try_catch {A} (m : M A) (h : exn -> M A) :
  keeps f m -> (forall e, keeps f (h e)) -> keeps f (try_catch m h).
Proof.
  intros Hm Hh s. unfold try_catch.
  specialize (Hm s).
  destruct (m s) as [[[a | e] s1] o1]; simpl in *; [exact Hm |].
  specialize (Hh e s1).
  destruct (h e s1) as [[r s2] o2]; simpl in *. congruence.
Qed.

Lemma keeps_try_except {A} (m : M A) (h : exn -> M A) :
  keeps f m -> (forall e, keeps f (h e)) -> keeps f (try_except m h).
Proof.
  intros Hm Hh. apply keeps_try_catch; [exact Hm |].
  intros e. destruct (is_interrupt e); [apply keeps_raise | apply Hh].
Qed.

Lemma keeps_choice (w : world) (l : list string) : keeps f (choice w l).
Proof. now intros s. Qed.

Lemma keeps_camera_loop (frames : list frame) : keeps f (camera_loop frames).
Proof.
  induction frames as [| [[] | | e] rest IH]; simpl;
    auto using keeps_ret, keeps_raise.
Qed.

End Keeps.

(** One step of a frame proof, by the shape of the computation. *)
Ltac keeps_step :=
  lazymatch goal with
  | |- keeps _ (bind _ _) => apply keeps_bind; [| intros ?]
  | |- keeps _ (try_catch _ _) => apply keeps_try_catch; [| intros ?]
  | |- keeps _ (try_except _ _) => apply keeps_try_except; [| intros ?]
  | |- keeps _ (ret _) => apply keeps_ret
  | |- keeps _ (raise _) => apply keeps_raise
  | |- keeps _ get => apply keeps_get
  | |- keeps _ (say _) => apply keeps_say
  | |- keeps _ (call _) => apply keeps_call
  | |- keeps _ (call_unit _) => apply keeps_call_unit
  | |- keeps _ (choice _ _) => apply keeps_choice
  | |- keeps _ (camera_loop _) => apply keeps_camera_loop
  | |- keeps _ (modify _) => apply keeps_modify; intros ?; reflexivity
  | |- keeps _ (if ?b then _ else _) => destruct b
  | |- keeps _ (match ?x with _ => _ end) => destruct x
  end.

Ltac unfold_methods :=
  unfold run_rule, tell_me_branch, load_model_branch, config_status_branch,
    text_mode_branch, voice_mode_branch, greeting_branch, time_branch,
    date_branch, weather_branch, wikipedia_branch, joke_branch,
    system_branch, screenshot_branch, camera_branch, search_branch,
    youtube_branch, google_branch, open_branch, name_branch, help_branch,
    exit_branch, fallback_branch, handle_tell_me_about, ai_section,
    initialize_ai_model, chatbot_load_gemini_api, chatbot_get_response,
    save_user_data, smart_search, get_free_weather, search_wikipedia,
    tell_joke, get_system_info, take_screenshot, open_camera,
    open_application, words_index.

(** Only the exit branch writes [is_listening]. *)
Lemma run_rule_keeps_is_listening (cfg : settings) (w : world) (r : rule)
  (query : string) :
  r <> Exit -> keeps is_listening (run_rule cfg w r query).
Proof.
  intros Hr. destruct r; try contradiction;
    unfold_methods; repeat keeps_step.
Qed.

(** Only the name branch writes [user_name]. *)
Lemma run_rule_keeps_user_name (cfg : settings) (w : world) (r : rule)
  (query : string) :
  r <> Name -> keeps user_name (run_rule cfg w r query).
Proof.
  intros Hr. destruct r; try contradiction;
    unfold_methods; repeat keeps_step.
Qed.

Lemma process_command_keeps {X} (f : assistant -> X) (cfg : settings)
  (w : world) (query : string) :
  keeps f (run_rule cfg w (rule_of query) query) ->
  keeps f (process_command cfg w query).
Proof.
  intros H. unfold process_command.
  destruct (negb (truthy query)); [apply keeps_ret |].
  rewrite process_body_dispatch.
  apply keeps_try_except; [exact H | intros e; apply keeps_say].
Qed.

(** What [process_command] raises is an interrupt. *)
Lemma process_command_raises (cfg : settings) (w : world) (query : string)
  (s s' : assistant) (e : exn) (out : list string) :
  process_command cfg w query s = (Raise e, s', out) -> is_interrupt e = true.
Proof.
  unfold process_command.
  destruct (negb (truthy query)); [discriminate |].
  apply try_except_raises. intros e0 s0. unfold say. now do 3 eexists.
Qed.

(** *** The exit rule *)

(** C9.  An utterance answered by the exit rule (it contains "exit",
    "quit", "goodbye", "bye" or "stop" and matches no earlier rule) makes
    the router return after one reply, the farewell "Goodbye <name>! It
    was great helping you today with Google Gemini AI from config!" with
    the current user name in it, and leaves [is_listening] false and
    every other field as it was; under every other rule, and on the empty
    utterance, the call leaves [is_listening] as it was, whether it
    returns or is interrupted. *)
Theorem exit_is_the_only_halt (cfg : settings) (w : world)
  (query : string) (s : assistant) :
  (rule_of query = Exit ->
   is_exit query = true /\
   exists s' reply,
     process_command cfg w query s = (Ret tt, s', [reply]) /\
     reply = "Goodbye " ++ user_name s ++
             "! It was great helping you today with Google Gemini AI from config!" /\
     contains (user_name s) reply = true /\
     is_listening s' = false /\
     text_mode s' = text_mode s /\
     microphone s' = microphone s /\
     user_name s' = user_name s /\
     user_data s' = user_data s /\
     chatbot s' = chatbot s /\
     ai_model_loaded s' = ai_model_loaded s /\
     noah_data_json s' = noah_data_json s) /\
  (rule_of query <> Exit ->
   is_listening (snd (fst (process_command cfg w query s))) = is_listening s).
Proof.
  split.
  - intros Hrule. split.
    + revert Hrule. unfold rule_of, rule_tests. cbn [first_rule].
      repeat match goal with
             | |- context [if ?b then _ else _] =>
                 destruct b; [discriminate || reflexivity |]
             end.
      discriminate.
    + rewrite process_command_nonempty
        by (apply rule_nonempty; now rewrite Hrule).
      rewrite Hrule. cbn [run_rule].
      exists (snd (fst (exit_branch s))), (farewell (user_name s)).
      split; [reflexivity |].
      split; [reflexivity |].
      split; [apply (contains_infix "Goodbye ") |].
      repeat split.
  - intros Hrule.
    apply (process_command_keeps is_listening).
    now apply run_rule_keeps_is_listening.
Qed.

Lemma exit_is_the_only_halt_witness :
  (exists s',
     process_command config_py (Samples.world_of 0 true) "ok bye now" Samples.fresh =
     (Ret tt, s',
      ["Goodbye Rudra! It was great helping you today with Google Gemini AI from config!"]) /\
     is_listening Samples.fresh = true /\
     is_listening s' = false /\
     user_name s' = "Rudra") /\
  is_listening (snd (fst (process_command config_py (Samples.world_of 0 true)
                            "what is the weather" Samples.fresh))) = true.
Proof.
  split.
  - destruct (proj1 (exit_is_the_only_halt config_py (Samples.world_of 0 true)
                       "ok bye now" Samples.fresh) eq_refl)
      as (_ & s' & reply & Hrun & Hreply & _ & Hhalt & _ & _ & Hname & _).
    exists s'. rewrite Hrun, Hreply, Hname.
    split; [reflexivity |]. split; [reflexivity |]. split; [exact Hhalt | reflexivity].
  - apply (proj2 (exit_is_the_only_halt config_py (Samples.world_of 0 true)
                    "what is the weather" Samples.fresh)).
    discriminate.
Defined.

(** *** Naming, then greeting *)

Lemma session_keeps_user_name (cfg : settings) (turns : list (world * string))
  (s : assistant) :
  Forall (fun t => rule_of (snd t) <> Name) turns ->
  user_name (after_session cfg turns s) = user_name s.
Proof.
  unfold after_session.
  revert s.
  induction turns as [| [w query] rest IH]; intros s Hall; [reflexivity |].
  inversion_clear Hall as [| ? ? Hq Hrest]. simpl in Hq.
  cbn [run_session].
  pose proof (process_command_keeps user_name cfg w query
                (run_rule_keeps_user_name cfg w _ query Hq) s) as Hkeep.
  destruct (process_command cfg w query s) as [[[[] | e] s1] o1];
    simpl in Hkeep; [| exact Hkeep].
  specialize (IH s1 Hrest).
  destruct (run_session cfg rest s1) as [[r s2] o2]. simpl in *.
  congruence.
Qed.

Lemma my_name_is_alex (cfg : settings) (w : world) (s : assistant) :
  user_name (snd (fst (process_command cfg w "my name is Alex" s))) = "Alex".
Proof.
  rewrite process_command_nonempty by discriminate.
  change (rule_of "my name is Alex") with Name.
  cbn [run_rule]. unfold name_branch.
  change (split "my name is Alex") with ["my"; "name"; "is"; "Alex"].
  change (contains "my name is" "my name is Alex") with true.
  cbv iota.
  unfold try_except, try_catch, bind, words_index, save_user_data, try_except,
    try_catch, bind, call_unit, get, modify, say, ret, raise.
  cbn [index String.eqb Ascii.eqb Bool.eqb option_map].
  cbn [Nat.add skipn join truthy append title].
  destruct (open_noah_data w) as [e |];
    [| destruct (json_dump w _) as [e |]];
    try destruct (is_interrupt e); reflexivity.
Qed.

(** C3 (as amended).  After "my name is Alex", and after any further
    utterances that do not reach the name rule, a greeting utterance is
    answered by one of the three greeting texts built with "Alex": the
    first and the third contain "Alex", the second is a fixed
    self-introduction that does not name the user. *)
Theorem greeting_after_my_name_is_alex (cfg : settings) (w0 w : world)
  (turns : list (world * string)) (query : string) (s : assistant) :
  Forall (fun t => rule_of (snd t) <> Name) turns ->
  rule_of query = Greeting ->
  let s1 := snd (fst (process_command cfg w0 "my name is Alex" s)) in
  let s2 := after_session cfg turns s1 in
  exists reply,
    process_command cfg w query s2 = (Ret tt, s2, [reply]) /\
    reply = nth (random_draw w mod 3) (greetings "Alex") "" /\
    (random_draw w mod 3 <> 1 -> contains "Alex" reply = true) /\
    (random_draw w mod 3 = 1 ->
     reply = "Hi there! I'm NOAH, ready to assist you with intelligent responses.").
Proof.
  intros Hturns Hrule s1 s2.
  assert (Hname : user_name s2 = "Alex").
  { subst s2. rewrite session_keeps_user_name by assumption.
    apply my_name_is_alex. }
  eexists. split; [| split; [reflexivity |]].
  - rewrite process_command_nonempty
      by (apply rule_nonempty; now rewrite Hrule).
    rewrite Hrule. cbn [run_rule].
    unfold greeting_branch, try_except, try_catch, bind, get, choice, say, ret.
    rewrite Hname. reflexivity.
  - assert (Hlt : random_draw w mod 3 < 3) by (apply Nat.mod_upper_bound; lia).
    destruct (random_draw w mod 3) as [| [| [| n]]]; split; intros H;
      try reflexivity; try lia; try discriminate.
Qed.

Lemma greeting_after_my_name_is_alex_witness :
  snd (process_command config_py (Samples.world_of 2 true) "hey there"
         (after_session config_py [(Samples.world_of 0 true, "what time is it")]
            (snd (fst (process_command config_py (Samples.world_of 0 true)
                         "my name is Alex" Samples.fresh))))) =
  ["Greetings Alex! What can I do for you today?"].
Proof.
  destruct (greeting_after_my_name_is_alex config_py
              (Samples.world_of 0 true) (Samples.world_of 2 true)
              [(Samples.world_of 0 true, "what time is it")] "hey there"
              Samples.fresh)
    as (reply & Hrun & Hreply & _).
  - repeat constructor. discriminate.
  - reflexivity.
  - rewrite Hrun, Hreply. reflexivity.
Defined.

(** With the second greeting drawn, the reply after "my name is Alex"
    does not contain "Alex". *)
Lemma greeting_without_name_counterexample :
  let s1 := snd (fst (process_command config_py (Samples.world_of 0 true)
                        "my name is Alex" Samples.fresh)) in
  user_name s1 = "Alex" /\
  rule_of "hello" = Greeting /\
  snd (process_command config_py (Samples.world_of 1 true) "hello" s1) =
  ["Hi there! I'm NOAH, ready to assist you with intelligent responses."] /\
  contains "Alex"
    "Hi there! I'm NOAH, ready to assist you with intelligent responses." = false.
Proof. repeat split. Qed.


Lemma rule_name_test (query : string) :
  rule_of query = Name -> is_name query = true.
Proof.
  unfold rule_of, rule_tests. cbn [first_rule].
  repeat match goal with
         | |- context [if ?b then _ else _] =>
             destruct b; [discriminate || reflexivity |]
         end.
  discriminate.
Qed.

Lemma name_branch_marker (w : world) (query : string) :
  is_name query = true ->
  name_branch w query =
  let words := split query in
    try_catch
      (name_index <- (i <- words_index (name_marker query) words ;; ret (i + 1)) ;;
       let new_name := join " " (skipn name_index words) in
       if truthy new_name then
         modify (with_user_name (title new_name)) ;;
         s <- get ;;
         modify (with_user_data (set_name (user_data s) (user_name s))) ;;
         save_user_data w ;;
         s <- get ;;
         say ("Nice to meet you, " ++ user_name s ++ "!")
       else ret tt)
      (fun _ => say "I didn't catch your name. Please try again.").
Proof.
  unfold is_name, name_branch, name_marker. intros H.
  destruct (contains "my name is" query); [reflexivity |].
  simpl in H. now rewrite H.
Qed.

Lemma name_branch_found (w : world) (query : string) (s : assistant)
  (pre post : list string) :
  is_name query = true ->
  split query = (pre ++ name_marker query :: post)%list ->
  ~ In (name_marker query) pre ->
  post <> [] ->
  name_branch w query s =
  (Ret tt, named w (title (join " " post)) s,
   [name_reply w (title (join " " post)) s]).
Proof.
  intros Hname Hsplit Hpre Hpost.
  rewrite name_branch_marker by assumption. cbv zeta.
  rewrite Hsplit. unfold words_index.
  rewrite index_first by assumption.
  unfold try_catch at 1.
  rewrite (run_bind_ret _ _ s s (List.length pre + 1) []) by reflexivity.
  cbv zeta beta.
  rewrite skipn_after.
  assert (Hwords : Forall (fun t => t <> "") post).
  { pose proof (split_nonempty query) as Hall. rewrite Hsplit in Hall.
    apply Forall_app in Hall. destruct Hall as [_ Hall].
    now inversion Hall. }
  rewrite (join_truthy " " post Hwords).
  destruct post as [| x post]; [contradiction |].
  set (n := title (join " " (x :: post))).
  cbv iota.
  unfold named, name_reply, write_interrupted, file_after_write.
  unfold try_catch, bind, modify, get, save_user_data, try_except, try_catch,
    bind, call_unit, say, ret, raise, get, modify.
  cbn [user_data with_user_data with_user_name user_name].
  destruct (open_noah_data w) as [e |];
    [| destruct (json_dump w _) as [e |]];
    try destruct (is_interrupt e); reflexivity.
Qed.

Lemma name_branch_missing (w : world) (query : string) (s : assistant) :
  is_name query = true ->
  ~ In (name_marker query) (split query) ->
  name_branch w query s =
  (Ret tt, s, ["I didn't catch your name. Please try again."]).
Proof.
  intros Hname Hnot.
  rewrite name_branch_marker by assumption. cbv zeta.
  unfold words_index.
  replace (index _ _) with (@None nat) by (symmetry; now apply index_none).
  reflexivity.
Qed.

Lemma name_branch_silent (w : world) (query : string) (s : assistant)
  (pre : list string) :
  is_name query = true ->
  split query = (pre ++ [name_marker query])%list ->
  ~ In (name_marker query) pre ->
  name_branch w query s = (Ret tt, s, []).
Proof.
  intros Hname Hsplit Hpre.
  rewrite name_branch_marker by assumption. cbv zeta.
  rewrite Hsplit. unfold words_index.
  rewrite index_first by assumption.
  apply run_try_ret.
  rewrite (run_bind_ret _ _ s s (List.length pre + 1) []) by reflexivity.
  cbv zeta beta.
  rewrite skipn_after. reflexivity.
Qed.

(** *** What a call says *)

Lemma sound_ret {A} (P : A -> Prop) (a : A) : P a -> sound P (ret a).
Proof. intros H s. simpl. auto. Qed.

Lemma sound_raise {A} (P : A -> Prop) (e : exn) : sound P (raise e).
Proof. intros s. simpl. auto. Qed.

Lemma sound_get : sound (fun _ => True) get.
Proof. intros s. simpl. auto. Qed.

Lemma sound_modify (g : assistant -> assistant) : sound (fun _ => True) (modify g).
Proof. intros s. simpl. auto. Qed.

Lemma sound_say (text : string) : nonempty text -> sound (fun _ => True) (say text).
Proof. intros H s. simpl. auto. Qed.

Lemma sound_call {A} (P : A -> Prop) (r : exn + A) :
  (forall a, r = inr a -> P a) -> sound P (call r).
Proof. intros H s. destruct r; simpl; auto. Qed.

Lemma sound_call_unit (r : option exn) : sound (fun _ => True) (call_unit r).
Proof. intros s. destruct r; simpl; auto. Qed.

Lemma sound_bind {A B} (Q : A -> Prop) (P : B -> Prop) (m : M A) (k : A -> M B) :
  sound Q m -> (forall a, Q a -> sound P (k a)) -> sound P (bind m k).
Proof.
  intros Hm Hk s. unfold bind.
  destruct (Hm s) as [Ho Hr].
  destruct (m s) as [[[a | e] s1] o1]; simpl in *; [| auto].
  destruct (Hk a Hr s1) as [Ho' Hr'].
  destruct (k a s1) as [[r s2] o2]; simpl in *.
  split; [apply Forall_app; auto | exact Hr'].
Qed.

Lemma sound_try_catch {A} (P : A -> Prop) (m : M A) (h : exn -> M A) :
  sound P m -> (forall e, sound P (h e)) -> sound P (try_catch m h).
Proof.
  intros Hm Hh s. unfold try_catch.
  destruct (Hm s) as [Ho Hr].
  destruct (m s) as [[[a | e] s1] o1]; simpl in *; [auto |].
  destruct (Hh e s1) as [Ho' Hr'].
  destruct (h e s1) as [[r s2] o2]; simpl in *.
  split; [apply Forall_app; auto | exact Hr'].
Qed.

Lemma sound_try_except {A} (P : A -> Prop) (m : M A) (h : exn -> M A) :
  sound P m -> (forall e, sound P (h e)) -> sound P (try_except m h).
Proof.
  intros Hm Hh. apply sound_try_catch; [exact Hm |].
  intros e. destruct (is_interrupt e); [apply sound_raise | apply Hh].
Qed.

Lemma sound_choice (w : world) (l : list string) :
  l <> [] -> Forall nonempty l -> sound nonempty (choice w l).
Proof.
  intros Hne Hall s. simpl. split; [constructor |].
  rewrite Forall_forall in Hall. apply Hall, nth_In.
  apply Nat.mod_upper_bound. now destruct l.
Qed.

Lemma sound_camera_loop (frames : list frame) :
  sound (fun _ => True) (camera_loop frames).
Proof.
  induction frames as [| [[] | | e] rest IH]; simpl;
    auto using sound_ret, sound_raise.
Qed.

Lemma audible_say (text : string) : audible (say text).
Proof. intros s. simpl. discriminate. Qed.

Lemma audible_bind_l {A B} (m : M A) (k : A -> M B) :
  audible m -> audible (bind m k).
Proof.
  intros Hm s. unfold bind. specialize (Hm s).
  destruct (m s) as [[[a | e] s1] o1]; simpl in *; [| exact I].
  destruct (k a s1) as [[[b | e] s2] o2]; simpl; [| exact I].
  intros H. apply app_eq_nil in H. tauto.
Qed.

Lemma audible_bind_r {A B} (m : M A) (k : A -> M B) :
  (forall a, audible (k a)) -> audible (bind m k).
Proof.
  intros Hk s. unfold bind.
  destruct (m s) as [[[a | e] s1] o1]; simpl in *; [| exact I].
  specialize (Hk a s1).
  destruct (k a s1) as [[[b | e] s2] o2]; simpl in *; [| exact I].
  intros H. apply app_eq_nil in H. tauto.
Qed.

Lemma audible_try_catch {A} (m : M A) (h : exn -> M A) :
  audible m -> (forall e, audible (h e)) -> audible (try_catch m h).
Proof.
  intros Hm Hh s. unfold try_catch. specialize (Hm s).
  destruct (m s) as [[[a | e] s1] o1]; simpl in *; [exact Hm |].
  specialize (Hh e s1).
  destruct (h e s1) as [[[b | e'] s2] o2]; simpl in *; [| exact I].
  intros H. apply app_eq_nil in H. tauto.
Qed.

Lemma audible_try_except {A} (m : M A) (h : exn -> M A) :
  audible m -> (forall e, audible (h e)) -> audible (try_except m h).
Proof.
  intros Hm Hh. apply audible_try_catch; [exact Hm |].
  intros e. destruct (is_interrupt e); [now intros s | apply Hh].
Qed.

Ltac audible_tac :=
  lazymatch goal with
  | |- audible (say _) => apply audible_say
  | |- audible (bind _ _) =>
      first [ solve [apply audible_bind_l; audible_tac]
            | solve [apply audible_bind_r; intros ?; audible_tac] ]
  | |- audible (try_catch _ _) =>
      apply audible_try_catch; [audible_tac | intros ?; audible_tac]
  | |- audible (try_except _ _) =>
      apply audible_try_except; [audible_tac | intros ?; audible_tac]
  | |- audible (if ?b then _ else _) => destruct b; audible_tac
  | |- audible (match ?x with _ => _ end) => destruct x; audible_tac
  end.

Lemma run_rule_audible (cfg : settings) (w : world) (r : rule) (query : string) :
  r <> Name -> audible (run_rule cfg w r query).
Proof.
  intros Hr. destruct r; try contradiction;
    unfold run_rule, tell_me_branch, load_model_branch, config_status_branch,
      text_mode_branch, voice_mode_branch, greeting_branch, time_branch,
      date_branch, weather_branch, wikipedia_branch, joke_branch,
      system_branch, screenshot_branch, camera_branch, search_branch,
      youtube_branch, google_branch, open_branch, help_branch,
      exit_branch, fallback_branch, initialize_ai_model, open_application;
    audible_tac.
Qed.

Ltac nonempty_tac :=
  cbv beta iota;
  first [ exact I
        | assumption
        | unfold nonempty; cbn [append]; discriminate
        | solve [eauto] ].

Ltac sound_leaf :=
  lazymatch goal with
  | |- sound _ get => apply sound_get
  | |- sound _ (modify _) => apply sound_modify
  | |- sound _ (say _) => apply sound_say; nonempty_tac
  | |- sound _ (call_unit _) => apply sound_call_unit
  | |- sound _ (camera_loop _) => apply sound_camera_loop
  | |- sound ?P (call ?r) =>
      tryif is_evar P
      then apply (sound_call (fun a => r = inr a)); intros ? H; exact H
      else (apply sound_call; intros ? ?; nonempty_tac)
  | |- _ => solve [eauto with noah_sound]
  end.

Ltac sound_tac :=
  lazymatch goal with
  | |- sound _ (bind _ _) =>
      first [ eapply sound_bind; [solve [sound_leaf] | intros ? ?; sound_tac]
            | apply (sound_bind (fun _ => True)); [sound_tac | intros ? _; sound_tac] ]
  | |- sound _ (try_catch _ _) =>
      apply sound_try_catch; [sound_tac | intros ?; sound_tac]
  | |- sound _ (try_except _ _) =>
      apply sound_try_except; [sound_tac | intros ?; sound_tac]
  | |- sound _ (ret _) => apply sound_ret; nonempty_tac
  | |- sound _ (raise _) => apply sound_raise
  | |- sound _ (if ?b then _ else _) => destruct b eqn:?; sound_tac
  | |- sound _ (match ?x with _ => _ end) => destruct x eqn:?; sound_tac
  | |- _ => sound_leaf
  end.

Create HintDb noah_sound.

Lemma smart_search_sound (w : world) (query platform : string) :
  sound nonempty (smart_search w query platform).
Proof. unfold smart_search. sound_tac. Qed.

Lemma get_free_weather_sound (w : world) (city : string) :
  sound (fun _ => True) (get_free_weather w city).
Proof. unfold get_free_weather. sound_tac. Qed.

Lemma get_system_info_sound (w : world) : sound nonempty (get_system_info w).
Proof. unfold get_system_info. sound_tac. Qed.

Lemma take_screenshot_sound (w : world) : sound nonempty (take_screenshot w).
Proof. unfold take_screenshot. sound_tac. Qed.

Lemma open_camera_sound (w : world) : sound nonempty (open_camera w).
Proof. unfold open_camera. sound_tac. Qed.

Lemma open_application_sound (w : world) (app_name : string) :
  sound (fun _ => True) (open_application w app_name).
Proof. unfold open_application. sound_tac. Qed.

Lemma save_user_data_sound (w : world) : sound (fun _ => True) (save_user_data w).
Proof. unfold save_user_data. sound_tac. Qed.

Lemma initialize_ai_model_sound (cfg : settings) (w : world) :
  sound (fun _ => True) (initialize_ai_model cfg w).
Proof. unfold initialize_ai_model, chatbot_load_gemini_api. sound_tac. Qed.

Lemma ai_section_sound (w : world) (tag prompt : string) :
  sound (fun _ => True) (ai_section w tag prompt).
Proof. unfold ai_section, chatbot_get_response. sound_tac. Qed.

#[local] Hint Resolve smart_search_sound get_free_weather_sound
  get_system_info_sound take_screenshot_sound open_camera_sound
  open_application_sound save_user_data_sound initialize_ai_model_sound
  ai_section_sound : noah_sound.

Lemma handle_tell_me_about_sound (cfg : settings) (w : world) (query : string) :
  sound nonempty (handle_tell_me_about cfg w query).
Proof.
  unfold handle_tell_me_about.
  apply sound_try_except; [| intros e; sound_tac].
  destruct (extract_topic topic_patterns query) as [topic |]; [| sound_tac].
  destruct (negb (truthy topic)); [sound_tac |].
  apply (sound_bind (fun _ => True)); [sound_tac | intros s _].
  apply (sound_bind (fun early : option string =>
                       match early with Some r => nonempty r | None => True end)).
  - sound_tac.
  - intros [reply |] He; sound_tac.
Qed.

#[local] Hint Resolve handle_tell_me_about_sound : noah_sound.


Section Relayed.
Variable cfg : settings.
Variable w : world.
Hypothesis Hrelays : relays_text w.

Lemma tell_joke_sound : sound nonempty (tell_joke w).
Proof.
  destruct Hrelays as (Hjoke & _).
  unfold tell_joke.
  apply sound_try_catch.
  - apply sound_call. exact Hjoke.
  - intros e. apply sound_choice; [discriminate |].
    unfold jokes. repeat constructor; discriminate.
Qed.

Lemma search_wikipedia_sound (query : string) :
  sound nonempty (search_wikipedia w query).
Proof.
  destruct Hrelays as (_ & Hwiki & _).
  unfold search_wikipedia.
  apply sound_try_except.
  - apply sound_call. apply Hwiki.
  - intros e. sound_tac.
Qed.

Lemma get_response_nonempty (c : ChatbotCore.chatbot) (message : string) :
  nonempty (ChatbotCore.get_response (backend w) c message []).
Proof.
  destruct Hrelays as (_ & _ & Hgen).
  unfold ChatbotCore.get_response.
  destruct (ChatbotCore.is_model_loaded c); [| discriminate].
  unfold ChatbotCore.generate_gemini_response, ChatbotCore.generate_attempt.
  destruct (ChatbotCore.gemini_model c) as [m |].
  - destruct (ChatbotCore.generate_content _ m _) as [e | text] eqn:Hrun.
    + pose proof (ChatbotFacts.error_reply_fixed e) as Hin.
      simpl in Hin.
      destruct Hin as [<- | [<- | [<- | [<- | [<- | []]]]]]; discriminate.
    + destruct text as [| a text]; [discriminate |].
      apply (Hgen m _ _ Hrun). discriminate.
  - pose proof (ChatbotFacts.error_reply_fixed
                  "'NoneType' object has no attribute 'generate_content'") as Hin.
    simpl in Hin.
    destruct Hin as [<- | [<- | [<- | [<- | [<- | []]]]]]; discriminate.
Qed.

Lemma chatbot_get_response_sound (message : string) :
  sound nonempty (chatbot_get_response w message).
Proof.
  unfold chatbot_get_response.
  apply (sound_bind (fun _ => True)); [apply sound_get | intros s _].
  apply sound_ret, get_response_nonempty.
Qed.

Lemma run_rule_sound (r : rule) (query : string) :
  sound (fun _ => True) (run_rule cfg w r query).
Proof.
  pose proof tell_joke_sound.
  pose proof search_wikipedia_sound.
  pose proof chatbot_get_response_sound.
  assert (Hsug : sound nonempty (choice w suggestions)).
  { apply sound_choice; [discriminate |].
    unfold suggestions. repeat constructor; discriminate. }
  assert (Hgreet : forall user, sound nonempty (choice w (greetings user))).
  { intros user. apply sound_choice; [discriminate |].
    unfold greetings. repeat constructor; unfold nonempty; cbn [append]; discriminate. }
  destruct r;
    unfold run_rule, tell_me_branch, load_model_branch, config_status_branch,
      text_mode_branch, voice_mode_branch, greeting_branch, time_branch,
      date_branch, weather_branch, wikipedia_branch, joke_branch,
      system_branch, screenshot_branch, camera_branch, search_branch,
      youtube_branch, google_branch, open_branch, name_branch, help_branch,
      exit_branch, fallback_branch, words_index, farewell, help_text;
    try solve [sound_tac].
  apply (sound_bind (fun _ => True)); [apply sound_get | intros s _].
  destruct (ai_model_loaded s); [| sound_tac].
  apply sound_try_except; [| intros e; sound_tac].
  eapply sound_bind; [apply chatbot_get_response_sound | intros response Hr].
  apply sound_say.
  destruct (200 <? String.length response)%nat; [| exact Hr].
  intros Heq. apply (f_equal String.length) in Heq.
  rewrite length_append in Heq. simpl in Heq. lia.
Qed.

End Relayed.


Lemma name_branch_audible (w : world) (query : string) :
  rule_of query = Name ->
  ~ nothing_after_marker query ->
  audible (name_branch w query).
Proof.
  intros Hrule Hnot s.
  pose proof (rule_name_test query Hrule) as Hname.
  destruct (index (name_marker query) (split query)) as [i |] eqn:Hidx.
  - destruct (index_some _ _ _ Hidx) as (pre & post & Hsplit & Hpre & _).
    destruct post as [| x post].
    + elim Hnot. split; [assumption | now exists pre].
    + rewrite (name_branch_found w query s pre (x :: post))
        by (assumption || discriminate).
      simpl. discriminate.
  - rewrite name_branch_missing by (assumption || now apply index_none).
    simpl. discriminate.
Qed.

(** *** What passes the handlers *)

Lemma quiet_ret {A} (a : A) : quiet (ret a).
Proof. now intros s. Qed.

Lemma quiet_raise {A} (e : exn) : is_interrupt e = false -> quiet (@raise A e).
Proof. now intros H s. Qed.

Lemma quiet_get : quiet get.
Proof. now intros s. Qed.

Lemma quiet_say (text : string) : quiet (say text).
Proof. now intros s. Qed.

Lemma quiet_modify (g : assistant -> assistant) : quiet (modify g).
Proof. now intros s. Qed.

Lemma quiet_choice (w : world) (l : list string) : quiet (choice w l).
Proof. now intros s. Qed.

Lemma quiet_call {A} (r : exn + A) : calm r = true -> quiet (call r).
Proof.
  intros H s. destruct r as [e | a]; simpl in *; [| exact I].
  now apply negb_true_iff.
Qed.

Lemma quiet_call_unit (r : option exn) : calm_unit r = true -> quiet (call_unit r).
Proof.
  intros H s. destruct r as [e |]; simpl in *; [| exact I].
  now apply negb_true_iff.
Qed.

Lemma quiet_bind {A B} (m : M A) (k : A -> M B) :
  quiet m -> (forall a, quiet (k a)) -> quiet (bind m k).
Proof.
  intros Hm Hk s. unfold bind. specialize (Hm s).
  destruct (m s) as [[[a | e] s1] o1]; simpl in *; [| exact Hm].
  specialize (Hk a s1).
  now destruct (k a s1) as [[r s2] o2].
Qed.

(** A bare [except] stops whatever the body raises. *)
Lemma quiet_try_catch {A} (m : M A) (h : exn -> M A) :
  (forall e, quiet (h e)) -> quiet (try_catch m h).
Proof.
  intros Hh s. unfold try_catch.
  destruct (m s) as [[[a | e] s1] o1]; simpl; [exact I |].
  specialize (Hh e s1).
  now destruct (h e s1) as [[r s2] o2].
Qed.

Lemma quiet_try_except {A} (m : M A) (h : exn -> M A) :
  quiet m -> (forall e, quiet (h e)) -> quiet (try_except m h).
Proof.
  intros Hm Hh s. unfold try_except, try_catch. specialize (Hm s).
  destruct (m s) as [[[a | e] s1] o1]; simpl in *; [exact I |].
  rewrite Hm. specialize (Hh e s1).
  now destruct (h e s1) as [[r s2] o2].
Qed.

Lemma quiet_camera_loop (frames : list frame) :
  forallb calm_frame frames = true -> quiet (camera_loop frames).
Proof.
  induction frames as [| [[] | | e] rest IH]; cbn [forallb calm_frame camera_loop];
    intros H; try apply quiet_ret.
  - now apply IH.
  - apply andb_true_iff in H. destruct H as [H _].
    now apply quiet_raise, negb_true_iff.
Qed.

Ltac quiet_tac :=
  lazymatch goal with
  | |- quiet (bind _ _) => apply quiet_bind; [quiet_tac | intros ?; quiet_tac]
  | |- quiet (try_catch _ _) => apply quiet_try_catch; intros ?; quiet_tac
  | |- quiet (try_except _ _) =>
      apply quiet_try_except; [quiet_tac | intros ?; quiet_tac]
  | |- quiet (ret _) => apply quiet_ret
  | |- quiet (raise _) => apply quiet_raise; reflexivity
  | |- quiet get => apply quiet_get
  | |- quiet (say _) => apply quiet_say
  | |- quiet (modify _) => apply quiet_modify
  | |- quiet (choice _ _) => apply quiet_choice
  | |- quiet (call _) => apply quiet_call; auto
  | |- quiet (call_unit _) => apply quiet_call_unit; auto
  | |- quiet (if ?b then _ else _) => destruct b; quiet_tac
  | |- quiet (match ?x with _ => _ end) => destruct x; quiet_tac
  end.

(** Without an interrupt from outside, no branch raises one. *)
Lemma run_rule_quiet (cfg : settings) (w : world) (r : rule) (query : string) :
  uninterrupted w -> quiet (run_rule cfg w r query).
Proof.
  intros (Hget & Hwiki & Husage & Hshot & Hcam & Hweb & Hpopen).
  assert (Hcamera : quiet (open_camera w)).
  { unfold open_camera. apply quiet_try_except; [| intros e; apply quiet_ret].
    destruct (cv2_capture w) as [e | | frames]; cbn [calm_capture] in Hcam.
    - now apply quiet_raise, negb_true_iff.
    - apply quiet_ret.
    - apply quiet_bind; [now apply quiet_camera_loop | intros _; apply quiet_ret]. }
  destruct r; unfold_methods; try solve [quiet_tac].
  apply quiet_bind; [apply quiet_say | intros _].
  apply quiet_bind; [exact Hcamera | intros result; apply quiet_say].
Qed.

(** Without an interrupt from outside, [process_command] returns. *)
Lemma process_command_returns (cfg : settings) (w : world) (query : string)
  (s : assistant) :
  uninterrupted w ->
  exists s' out, process_command cfg w query s = (Ret tt, s', out).
Proof.
  intros Hw. unfold process_command.
  destruct (negb (truthy query)); [now eexists; eexists |].
  rewrite process_body_dispatch.
  pose proof (run_rule_quiet cfg w (rule_of query) query Hw s) as Hquiet.
  unfold try_except, try_catch, say.
  destruct (run_rule cfg w (rule_of query) query s) as [[[[] | e] s1] o1];
    cbn [fst] in Hquiet; [now eexists; eexists |].
  rewrite Hquiet. now eexists; eexists.
Qed.

(** The replies of [process_command] are those of the branch, and the
    error reply when the branch raises an [Exception]. *)
Lemma process_command_says (cfg : settings) (w : world) (query : string)
  (s : assistant) :
  query <> "" ->
  exists extra,
    snd (process_command cfg w query s) =
    (snd (run_rule cfg w (rule_of query) query s) ++ extra)%list /\
    (extra = [] \/ extra = [error_reply]) /\
    (forall a, fst (fst (run_rule cfg w (rule_of query) query s)) = Ret a ->
               extra = []) /\
    (forall a, fst (fst (process_command cfg w query s)) = Ret a ->
               fst (fst (run_rule cfg w (rule_of query) query s)) = Ret a \/
               extra = [error_reply]).
Proof.
  intros Hq. rewrite process_command_nonempty by assumption.
  unfold try_except, try_catch, say, raise.
  destruct (run_rule cfg w (rule_of query) query s) as [[[[] | e] s1] o1];
    cbn [fst snd].
  - exists []. rewrite app_nil_r. repeat split; auto.
  - destruct (is_interrupt e); cbn [fst snd].
    + exists []. repeat split; auto; discriminate.
    + exists [error_reply]. repeat split; auto; discriminate.
Qed.




(** C4 (as amended).  In the name branch the marker word is "is" when the
    utterance contains "my name is" and "me" otherwise (it then contains
    "call me").  When the marker occurs as a word and at least one word
    follows its first occurrence, the words after it, joined by spaces
    and title-cased, become [user_name] and the name of [user_data], and
    nothing else of the assistant changes.  The profile is then written
    to [noah_data.json]: the file is opened for writing, which empties
    it, and the profile is dumped.  When the opening raises, the file is
    left as it was; when the dump raises, the old content is lost and the
    file is empty or partial; otherwise it holds the new profile.  The
    router returns in each case.  It says "Nice to meet you, <name>!",
    also after a write that failed by an [Exception]; an interrupted
    write is caught by the bare [except] of the branch and answered by
    the clarification text, the name being changed all the same.  When
    the marker does not occur as a word, the router says the
    clarification text and changes nothing. *)
Theorem name_assignment (cfg : settings) (w : world) (query : string)
  (s : assistant) :
  rule_of query = Name ->
  (contains "my name is" query = true -> name_marker query = "is") /\
  (contains "my name is" query = false ->
   contains "call me" query = true /\ name_marker query = "me") /\
  (forall pre post,
      split query = (pre ++ name_marker query :: post)%list ->
      ~ In (name_marker query) pre ->
      post <> [] ->
      let n := title (join " " post) in
      let p := {| name := n;
                  preferences := preferences (user_data s);
                  conversation_history := conversation_history (user_data s) |} in
      exists s' reply,
        process_command cfg w query s = (Ret tt, s', [reply]) /\
        user_name s' = n /\
        user_data s' = p /\
        text_mode s' = text_mode s /\
        microphone s' = microphone s /\
        is_listening s' = is_listening s /\
        chatbot s' = chatbot s /\
        ai_model_loaded s' = ai_model_loaded s /\
        (forall e, open_noah_data w = Some e ->
           noah_data_json s' = noah_data_json s /\
           reply = if is_interrupt e
                   then "I didn't catch your name. Please try again."
                   else "Nice to meet you, " ++ n ++ "!") /\
        (forall e, open_noah_data w = None -> json_dump w p = Some e ->
           noah_data_json s' = Some Partial /\
           reply = if is_interrupt e
                   then "I didn't catch your name. Please try again."
                   else "Nice to meet you, " ++ n ++ "!") /\
        (open_noah_data w = None -> json_dump w p = None ->
           noah_data_json s' = Some (Dumped p) /\
           reply = "Nice to meet you, " ++ n ++ "!")) /\
  (~ In (name_marker query) (split query) ->
   process_command cfg w query s =
   (Ret tt, s, ["I didn't catch your name. Please try again."])).
Proof.
  intros Hrule.
  pose proof (rule_name_test query Hrule) as Hname.
  assert (Hq : query <> "") by (apply rule_nonempty; now rewrite Hrule).
  split; [| split; [| split]].
  - intros H. unfold name_marker. now rewrite H.
  - intros H. unfold name_marker. rewrite H.
    unfold is_name in Hname. rewrite H in Hname. now split.
  - intros pre post Hsplit Hpre Hpost n p.
    exists (named w n s), (name_reply w n s).
    split.
    { rewrite process_command_nonempty by assumption.
      rewrite Hrule. cbn [run_rule].
      apply run_except_ret.
      apply (name_branch_found w query s pre post); assumption. }
    unfold named, name_reply, file_after_write, write_interrupted.
    cbn [user_data with_user_data with_user_name with_noah_data_json
         user_name text_mode microphone is_listening chatbot ai_model_loaded
         noah_data_json].
    change (set_name (user_data s) n) with p.
    do 7 (split; [reflexivity |]).
    split; [| split].
    + intros e Hopen. now rewrite Hopen.
    + intros e Hopen Hdump. now rewrite Hopen, Hdump.
    + intros Hopen Hdump. now rewrite Hopen, Hdump.
  - intros Hnot.
    rewrite process_command_nonempty by assumption.
    rewrite Hrule. cbn [run_rule].
    apply run_except_ret. now apply name_branch_missing.
Qed.

Lemma name_assignment_witness :
  (exists s',
     process_command config_py (Samples.world_of 0 true)
       "please call me  maria luisa" Samples.fresh =
     (Ret tt, s', ["Nice to meet you, Maria Luisa!"]) /\
     user_name s' = "Maria Luisa" /\
     noah_data_json s' =
     Some (Dumped {| name := "Maria Luisa"; preferences := [];
                     conversation_history := [] |})) /\
  snd (process_command config_py (Samples.world_of 0 true)
         "my name isabel" Samples.fresh) =
  ["I didn't catch your name. Please try again."].
Proof.
  split.
  - destruct (name_assignment config_py (Samples.world_of 0 true)
                "please call me  maria luisa" Samples.fresh eq_refl)
      as (_ & _ & Hfound & _).
    assert (Hpre : ~ In (name_marker "please call me  maria luisa")
                     ["please"; "call"]).
    { intros [H | [H | []]]; discriminate H. }
    assert (Hpost : ["maria"; "luisa"] <> []) by discriminate.
    destruct (Hfound ["please"; "call"] ["maria"; "luisa"] eq_refl Hpre Hpost)
      as (s' & reply & Hrun & Huser & _ & _ & _ & _ & _ & _ & _ & _ & Hok).
    destruct (Hok eq_refl eq_refl) as (Hfile & Hreply).
    exists s'. rewrite Hrun, Hreply.
    split; [reflexivity | split; [exact Huser | exact Hfile]].
  - destruct (name_assignment config_py (Samples.world_of 0 true)
                "my name isabel" Samples.fresh eq_refl)
      as (_ & _ & _ & Hmissing).
    rewrite Hmissing; [reflexivity |].
    intros [H | [H | [H | []]]]; discriminate H.
Defined.

(** An utterance with both phrases takes the words after "is", not those
    after "me".  A name is not written to disk when the file cannot be
    opened; and when the dump fails on a full disk, the profile that was
    on disk is lost although the router says "Nice to meet you". *)
Lemma name_assignment_counterexample :
  (let query := "call me al my name is bo" in
   rule_of query = Name /\
   contains "call me" query = true /\
   split query = ["call"; "me"; "al"; "my"; "name"; "is"; "bo"] /\
   title (join " " ["al"; "my"; "name"; "is"; "bo"]) = "Al My Name Is Bo" /\
   user_name (snd (fst (process_command config_py (Samples.world_of 0 true)
                          query Samples.fresh))) = "Bo") /\
  (let s' := snd (fst (process_command config_py (Samples.world_of 0 false)
                         "my name is alex" Samples.fresh)) in
   user_name s' = "Alex" /\ noah_data_json s' = None) /\
  (noah_data_json Samples.returning =
   Some (Dumped {| name := "Rudra"; preferences := [];
                   conversation_history := [] |}) /\
   process_command config_py Samples.full_disk_world "my name is alex"
     Samples.returning =
   (Ret tt,
    with_noah_data_json (Some Partial)
      (with_user_data {| name := "Alex"; preferences := [];
                         conversation_history := [] |}
         (with_user_name "Alex" Samples.returning)),
    ["Nice to meet you, Alex!"])).
Proof. repeat split. Qed.

(** A name utterance that ends at the marker word gets no reply. *)
Example name_without_words_is_silent (cfg : settings) (w : world) (s : assistant) :
  rule_of "my name is" = Name /\
  process_command cfg w "my name is" s = (Ret tt, s, []).
Proof.
  split; [reflexivity |].
  rewrite process_command_nonempty by discriminate.
  change (rule_of "my name is") with Name. cbn [run_rule].
  apply run_except_ret.
  apply (name_branch_silent w "my name is" s ["my"; "name"]); try reflexivity.
  intros [H | [H | []]]; discriminate H.
Qed.

End NoahFacts.

(** ** More on the chat backend adapter *)

Module ChatbotExtra.

Import PyStr Notions MoreNotions PyStrFacts ChatbotCore.

Lemma load_gemini_api_model_fields (cfg : settings) (b : backend)
  (arg : option string) (c : chatbot) :
  fst (load_gemini_api cfg b arg c) = false ->
  model_type (snd (load_gemini_api cfg b arg c)) = model_type c /\
  gemini_model (snd (load_gemini_api cfg b arg c)) = gemini_model c.
Proof.
  unfold load_gemini_api.
  destruct (resolve_key cfg b arg) as [k |]; [| now simpl].
  destruct (negb (PyStr.truthy k) || String.eqb k placeholder); [now simpl |].
  destruct (genai_configure b k); [now simpl |].
  destruct (genai_GenerativeModel b (GEMINI_MODEL cfg)); [now simpl |].
  simpl. discriminate.
Qed.

(** X1.  When [load_gemini_api] returns [True] the chatbot is loaded: the
    model type is "gemini", the client is the one the service built for
    the configured model name, and the stored key is the resolved key,
    which is neither empty nor the placeholder and was accepted by
    [genai.configure]; the concise mode is untouched. *)
Theorem load_gemini_api_success (cfg : settings) (b : backend)
  (arg : option string) (c : chatbot) :
  fst (load_gemini_api cfg b arg c) = true ->
  let c' := snd (load_gemini_api cfg b arg c) in
  is_model_loaded c' = true /\
  model_type c' = Some "gemini" /\
  (exists m, genai_GenerativeModel b (GEMINI_MODEL cfg) = inr m /\
             gemini_model c' = Some m) /\
  (exists k, resolve_key cfg b arg = Some k /\ api_key c' = Some k /\
             k <> "" /\ k <> placeholder /\ genai_configure b k = None) /\
  concise_mode c' = concise_mode c.
Proof.
  unfold load_gemini_api.
  destruct (resolve_key cfg b arg) as [k |]; [| simpl; discriminate].
  destruct k as [| a k]; [simpl; discriminate |].
  cbn [PyStr.truthy negb orb].
  destruct (String.eqb_spec (String a k) placeholder) as [Heq | Hne];
    [simpl; discriminate |].
  destruct (genai_configure b (String a k)) eqn:Hconf; [simpl; discriminate |].
  destruct (genai_GenerativeModel b (GEMINI_MODEL cfg)) as [e | m] eqn:Hmod;
    [simpl; discriminate |].
  intros _. cbn [fst snd is_model_loaded model_type gemini_model api_key
                  concise_mode opt_eqb].
  split; [reflexivity | split; [reflexivity | split; [| split; [| reflexivity]]]].
  - now exists m.
  - exists (String a k).
    split; [reflexivity | split; [reflexivity | split; [discriminate | split]]];
      assumption.
Qed.

Lemma load_gemini_api_success_witness :
  is_model_loaded
    (snd (load_gemini_api config_py (Samples.gemini false "" "ok") None init)) = true.
Proof.
  apply (load_gemini_api_success config_py (Samples.gemini false "" "ok") None init).
  reflexivity.
Defined.

(** X2.  When [get_api_status] reports that no key is configured, a load
    without an explicit key fails whatever the service does, and the
    chatbot is loaded afterwards exactly when it was before. *)
Theorem no_key_status_means_load_fails (cfg : settings) (b : backend) (c : chatbot) :
  get_api_status cfg b = no_key_status ->
  fst (load_gemini_api cfg b None c) = false /\
  is_model_loaded (snd (load_gemini_api cfg b None c)) = is_model_loaded c.
Proof.
  intros Hstatus.
  assert (Hfail : fst (load_gemini_api cfg b None c) = false).
  { revert Hstatus. unfold get_api_status, load_gemini_api, resolve_key, py_or.
    cbn [truthy].
    destruct (truthy (getenv_GEMINI_API_KEY b)) eqn:Henv.
    - destruct (truthy (GEMINI_API_KEY cfg) &&
                negb (opt_eqb (GEMINI_API_KEY cfg) placeholder));
        intros H; discriminate H.
    - destruct (GEMINI_API_KEY cfg) as [[| a k] |];
        cbn [truthy PyStr.truthy opt_eqb negb andb orb fst]; try reflexivity.
      destruct (String.eqb (String a k) placeholder);
        cbn [negb andb orb fst]; [reflexivity |].
      intros H; discriminate H. }
  split; [exact Hfail |].
  destruct (load_gemini_api_model_fields cfg b None c Hfail) as [Hty Hmod].
  unfold is_model_loaded. now rewrite Hty, Hmod.
Qed.

Lemma no_key_status_means_load_fails_witness :
  let cfg := {| GEMINI_API_KEY := Some placeholder;
                GEMINI_MODEL := "gemini-1.5-flash";
                DEFAULT_USER_NAME := "Master";
                DEFAULT_CITY := "Surat" |} in
  fst (load_gemini_api cfg (Samples.gemini false "" "ok") None init) = false.
Proof.
  intros cfg.
  apply (no_key_status_means_load_fails cfg (Samples.gemini false "" "ok") init).
  reflexivity.
Defined.

Lemma clean_response_length (text : string) :
  String.length (clean_response text) <= 803.
Proof.
  unfold clean_response.
  set (t := strip text).
  set (u := if (800 <? String.length t)%nat then take 800 t ++ "..." else t).
  assert (Hu : String.length u <= 803).
  { subst u. destruct (Nat.ltb_spec 800 (String.length t)); [| lia].
    rewrite length_append. change (String.length "...") with 3.
    pose proof (length_take 800 t). lia. }
  destruct (startswith u "NOAH:"); [| exact Hu].
  eapply Nat.le_trans; [apply length_strip |].
  eapply Nat.le_trans; [apply length_drop | exact Hu].
Qed.

(** X3.  Whatever the service answers or raises, the reply of
    [get_response] has at most 803 characters, and it is one of the fixed
    texts of the adapter or the cleaned text of a non-empty answer: the
    message of a raised error never reaches the caller. *)
Theorem get_response_bounded (b : backend) (c : chatbot) (message : string)
  (chat_history : list turn) :
  let reply := get_response b c message chat_history in
  String.length reply <= 803 /\
  (In reply
      ["Please load Gemini model first by saying 'load ai model' or 'use gemini'.";
       no_text_reply; api_key_error_reply; quota_error_reply;
       safety_error_reply; network_error_reply; generic_error_reply] \/
   exists m text,
     gemini_model c = Some m /\
     generate_content b m (final_prompt c message chat_history) = GenText text /\
     text <> "" /\ reply = clean_response text).
Proof.
  unfold get_response.
  destruct (is_model_loaded c).
  2:{ split; [apply Nat.leb_le; reflexivity | left; simpl; tauto]. }
  unfold generate_gemini_response, generate_attempt.
  assert (Herr : forall e,
             String.length (error_reply e) <= 803 /\
             In (error_reply e)
               ["Please load Gemini model first by saying 'load ai model' or 'use gemini'.";
                no_text_reply; api_key_error_reply; quota_error_reply;
                safety_error_reply; network_error_reply; generic_error_reply]).
  { intros e. unfold error_reply.
    repeat match goal with
           | |- context [if ?x then _ else _] => destruct x
           end;
      (split; [apply Nat.leb_le; reflexivity | simpl; tauto]). }
  destruct (gemini_model c) as [m |].
  - destruct (generate_content b m _) as [e | text] eqn:Hgen.
    + destruct (Herr e) as [Hlen Hin]. auto.
    + destruct text as [| a text]; cbn [PyStr.truthy].
      * split; [apply Nat.leb_le; reflexivity | left; simpl; tauto].
      * split; [apply clean_response_length |].
        right. exists m, (String a text).
        repeat split; try assumption. discriminate.
  - destruct (Herr "'NoneType' object has no attribute 'generate_content'")
      as [Hlen Hin]. auto.
Qed.

Lemma skipn_app_length {A} (old recent : list A) (k : nat) :
  skipn (List.length old + k) (old ++ recent) = skipn k recent.
Proof.
  induction old as [| x old IH]; simpl; [reflexivity | exact IH].
Qed.

Lemma last_n_app {A} (n : nat) (old recent : list A) :
  n <= List.length recent ->
  last_n n (old ++ recent) = last_n n recent.
Proof.
  intros H. unfold last_n. rewrite length_app.
  replace (List.length old + List.length recent - n)
    with (List.length old + (List.length recent - n)) by lia.
  apply skipn_app_length.
Qed.

Lemma last_n_short {A} (n : nat) (h : list A) :
  List.length h <= n -> last_n n h = h.
Proof.
  intros H. unfold last_n.
  replace (List.length h - n) with 0 by lia. reflexivity.
Qed.

Lemma recent_messages_app (a b : list turn) :
  recent_messages (a ++ b) = (recent_messages a ++ recent_messages b)%list.
Proof.
  induction a as [| t a IH]; [reflexivity |].
  cbn [recent_messages app]. rewrite IH.
  repeat match goal with
         | |- context [if ?x then _ else _] => destruct x
         end; reflexivity.
Qed.

Lemma recent_messages_ignored (t : turn) :
  ignored_turn t -> recent_messages [t] = [].
Proof.
  intros [Hblank | (r & Hrole & Huser & Hassistant)]; cbn [recent_messages].
  - rewrite Hblank. reflexivity.
  - rewrite Hrole.
    destruct (PyStr.truthy _); [| reflexivity].
    destruct (String.eqb_spec r "user"); [contradiction |].
    destruct (String.eqb_spec r "assistant"); [contradiction | reflexivity].
Qed.

(** X4.  Only the last six turns of the history reach the prompt: older
    turns change nothing.  Within those six, a turn with a blank content or
    with a role other than "user" and "assistant" leaves no line, although
    it takes one of the six places. *)
Theorem prompt_history_window (c : chatbot) (message : string)
  (old recent before after : list turn) (t : turn) :
  (6 <= List.length recent ->
   final_prompt c message (old ++ recent) = final_prompt c message recent) /\
  (List.length before + List.length after < 6 -> ignored_turn t ->
   final_prompt c message (before ++ t :: after) =
   final_prompt c message (before ++ after)).
Proof.
  split.
  - intros Hlen. unfold final_prompt, history_context.
    now rewrite last_n_app.
  - intros Hlen Hignored. unfold final_prompt, history_context.
    rewrite !last_n_short by (rewrite length_app; simpl; lia).
    change (t :: after) with ([t] ++ after)%list.
    rewrite !recent_messages_app, (recent_messages_ignored t Hignored).
    reflexivity.
Qed.

Lemma prompt_history_window_witness :
  let user text := {| role := Some "user"; content := Some text |} in
  let noise := {| role := Some "system"; content := Some "be brief" |} in
  final_prompt init "and now?"
    ([user "zero"] ++ [user "1"; user "2"; user "3"; user "4"; user "5"; user "6"]) =
  final_prompt init "and now?"
    [user "1"; user "2"; user "3"; user "4"; user "5"; user "6"] /\
  final_prompt init "and now?" ([user "1"] ++ noise :: [user "2"]) =
  final_prompt init "and now?" ([user "1"] ++ [user "2"]).
Proof.
  intros user noise. split.
  - apply (proj1 (prompt_history_window init "and now?" [user "zero"]
                    [user "1"; user "2"; user "3"; user "4"; user "5"; user "6"]
                    [] [] noise)).
    simpl. lia.
  - apply (proj2 (prompt_history_window init "and now?" [] []
                    [user "1"] [user "2"] noise)).
    + simpl. lia.
    + right. exists "system". repeat split; discriminate.
Defined.

Lemma get_response_bounded_witness :
  String.length
    (get_response (Samples.gemini true "503 backend unavailable" "")
       Samples.loaded_chatbot "hello" []) <= 803 /\
  get_response (Samples.gemini true "503 backend unavailable" "")
    Samples.loaded_chatbot "hello" [] <> "503 backend unavailable".
Proof.
  split.
  - apply (proj1 (get_response_bounded
                    (Samples.gemini true "503 backend unavailable" "")
                    Samples.loaded_chatbot "hello" [])).
  - discriminate.
Defined.

(** X26.  [load_gemini_api] returns [False] exactly in these cases: no key
    is resolved, the resolved key is empty or is the placeholder,
    [genai.configure] raises on it, or [genai.GenerativeModel] raises. *)
Theorem load_gemini_api_fails_exactly_when (cfg : settings) (b : backend)
  (arg : option string) (c : chatbot) :
  fst (load_gemini_api cfg b arg c) = false <->
  resolve_key cfg b arg = None \/
  resolve_key cfg b arg = Some "" \/
  resolve_key cfg b arg = Some placeholder \/
  (exists k e, resolve_key cfg b arg = Some k /\ genai_configure b k = Some e) \/
  (exists e, genai_GenerativeModel b (GEMINI_MODEL cfg) = inl e).
Proof.
  rewrite ChatbotFacts.load_gemini_api_false_iff.
  destruct (resolve_key cfg b arg) as [k |].
  - split.
    + intros [-> | [-> | [H | H]]]; auto.
      destruct (genai_configure b k) as [e |] eqn:Hconf; [| contradiction].
      right; right; right; left. now exists k, e.
    + intros [H | [H | [H | [(k' & e & Hk & He) | H]]]].
      * discriminate H.
      * injection H as ->. now left.
      * injection H as ->. right. now left.
      * injection Hk as <-. right; right; left. now rewrite He.
      * right; right; right. exact H.
  - split; [now left | trivial].
Qed.

Lemma load_gemini_api_fails_exactly_when_witness :
  fst (load_gemini_api config_py Samples.rejecting None init) = false.
Proof.
  apply (proj2 (load_gemini_api_fails_exactly_when config_py Samples.rejecting
                  None init)).
  right; right; right; left.
  now exists "env-key", "API key not valid".
Defined.

End ChatbotExtra.

(** ** More on the command router *)

Module NoahExtra.

Import PyStr Notions MoreNotions Invariants PyStrFacts Noah NoahFacts.

(** *** Rules that cannot fire *)

(** X5.  The direct Google branch is never taken: it asks for "search" in
    the utterance, and every utterance with "search" is answered by the
    generic search rule or by an earlier one. *)
Theorem google_rule_never_fires (query : string) : rule_of query <> Google.
Proof.
  unfold rule_of, rule_tests. cbn [first_rule].
  unfold is_google, is_search.
  repeat match goal with
         | |- context [if ?b then _ else _] =>
             destruct b eqn:?; [discriminate |];
             rewrite ?andb_false_r
         end.
  discriminate.
Qed.

(** X6.  An utterance with "video" in it is answered by the camera rule or
    by an earlier one, so it reaches neither the generic search nor the
    YouTube branch; under the generic search rule the platform is YouTube
    exactly when the utterance contains "youtube". *)
Theorem video_never_reaches_search (query : string) :
  (contains "video" query = true ->
   In (rule_of query)
      [TellMe; LoadModel; ConfigStatus; TextMode; VoiceMode; Greeting; Time;
       Date; Weather; Wikipedia; Joke; SystemInfo; Screenshot; Camera]) /\
  (rule_of query = Search ->
   contains "video" query = false /\
   (fst (search_target query) = "youtube" <-> contains "youtube" query = true)).
Proof.
  split.
  - intros Hvideo.
    unfold rule_of, rule_tests. cbn [first_rule].
    unfold is_camera. rewrite Hvideo, orb_true_r.
    repeat match goal with
           | |- context [if ?b then _ else _] =>
               destruct b; [simpl; tauto |]
           end.
    simpl; tauto.
  - intros Hrule.
    assert (Hvideo : contains "video" query = false).
    { revert Hrule. unfold rule_of, rule_tests. cbn [first_rule].
      unfold is_camera.
      destruct (contains "video" query); [| reflexivity].
      rewrite orb_true_r.
      repeat match goal with
             | |- context [if ?b then _ else _] =>
                 destruct b; [discriminate |]
             end.
      discriminate. }
    split; [exact Hvideo |].
    unfold search_target. rewrite Hvideo, orb_false_r.
    destruct (contains "youtube" query).
    + simpl. tauto.
    + repeat match goal with
             | |- context [if ?b then _ else _] => destruct b
             end; simpl; split; discriminate.
Qed.

Lemma video_never_reaches_search_witness :
  rule_of "youtube music videos" = Camera /\
  fst (search_target "search cats on youtube") = "youtube".
Proof.
  split.
  - destruct (proj1 (video_never_reaches_search "youtube music videos") eq_refl)
      as [H | H]; [discriminate H |].
    reflexivity.
  - apply (proj2 (video_never_reaches_search "search cats on youtube") eq_refl).
    reflexivity.
Defined.

(** *** Invariants *)

Section Preserves.
Variable I : assistant -> Prop.

Lemma preserves_ret {A} (a : A) : preserves I (ret a).
Proof. now intros s. Qed.

Lemma preserves_raise {A} (e : exn) : preserves I (@raise A e).
Proof. now intros s. Qed.

Lemma preserves_get : preserves I get.
Proof. now intros s. Qed.

Lemma preserves_say (text : string) : preserves I (say text).
Proof. now intros s. Qed.

Lemma preserves_call {A} (r : exn + A) : preserves I (call r).
Proof. now destruct r; intros s. Qed.

Lemma preserves_call_unit (r : option exn) : preserves I (call_unit r).
Proof. now destruct r; intros s. Qed.

Lemma preserves_choice (w : world) (l : list string) : preserves I (choice w l).
Proof. now intros s. Qed.

Lemma preserves_modify (g : assistant -> assistant) :
  (forall s, I s -> I (g s)) -> preserves I (modify g).
Proof. intros H s. apply H. Qed.

Lemma preserves_bind {A B} (m : M A) (k : A -> M B) :
  preserves I m -> (forall a, preserves I (k a)) -> preserves I (bind m k).
Proof.
  intros Hm Hk s Hs. unfold bind.
  specialize (Hm s Hs).
  destruct (m s) as [[[a | e] s1] o1]; simpl in *; [| exact Hm].
  specialize (Hk a s1 Hm).
  now destruct (k a s1) as [[r s2] o2].
Qed.

Lemma preserves_try_catch {A} (m : M A) (h : exn -> M A) :
  preserves I m -> (forall e, preserves I (h e)) -> preserves I (try_catch m h).
Proof.
  intros Hm Hh s Hs. unfold try_catch.
  specialize (Hm s Hs).
  destruct (m s) as [[[a | e] s1] o1]; simpl in *; [exact Hm |].
  specialize (Hh e s1 Hm).
  now destruct (h e s1) as [[r s2] o2].
Qed.

Lemma preserves_try_except {A} (m : M A) (h : exn -> M A) :
  preserves I m -> (forall e, preserves I (h e)) -> preserves I (try_except m h).
Proof.
  intros Hm Hh. apply preserves_try_catch; [exact Hm |].
  intros e. destruct (is_interrupt e); [apply preserves_raise | apply Hh].
Qed.

Lemma preserves_camera_loop (frames : list frame) :
  preserves I (camera_loop frames).
Proof.
  induction frames as [| [[] | | e] rest IH]; simpl;
    auto using preserves_ret, preserves_raise.
Qed.

Lemma preserves_process_command (cfg : settings) (w : world) (query : string) :
  preserves I (run_rule cfg w (rule_of query) query) ->
  preserves I (process_command cfg w query).
Proof.
  intros H. unfold process_command.
  destruct (negb (truthy query)); [apply preserves_ret |].
  rewrite process_body_dispatch.
  apply preserves_try_except; [exact H | intros e; apply preserves_say].
Qed.

Lemma preserves_session (cfg : settings) :
  (forall w query, preserves I (process_command cfg w query)) ->
  forall turns s, I s -> I (after_session cfg turns s).
Proof.
  intros Hstep turns. unfold after_session.
  induction turns as [| [w query] rest IH]; intros s Hs; [exact Hs |].
  cbn [run_session].
  specialize (Hstep w query s Hs).
  destruct (process_command cfg w query s) as [[[[] | e] s1] o1];
    simpl in *; [| exact Hstep].
  specialize (IH s1 Hstep).
  now destruct (run_session cfg rest s1) as [[r s2] o2].
Qed.

End Preserves.

Create HintDb noah_inv.

Ltac preserves_step :=
  lazymatch goal with
  | |- preserves _ (bind _ _) => apply preserves_bind; [| intros ?]
  | |- preserves _ (try_catch _ _) => apply preserves_try_catch; [| intros ?]
  | |- preserves _ (try_except _ _) => apply preserves_try_except; [| intros ?]
  | |- preserves _ (ret _) => apply preserves_ret
  | |- preserves _ (raise _) => apply preserves_raise
  | |- preserves _ get => apply preserves_get
  | |- preserves _ (say _) => apply preserves_say
  | |- preserves _ (call _) => apply preserves_call
  | |- preserves _ (call_unit _) => apply preserves_call_unit
  | |- preserves _ (choice _ _) => apply preserves_choice
  | |- preserves _ (camera_loop _) => apply preserves_camera_loop
  | |- preserves _ (modify _) =>
      apply preserves_modify;
      let s := fresh "s" in
      let H := fresh "H" in
      intros s H;
      first [ exact H | reflexivity | (intros Hf; discriminate Hf) ]
  | |- preserves _ (if ?b then _ else _) => destruct b
  | |- preserves _ (match ?x with _ => _ end) => destruct x
  | |- _ => solve [auto with noah_inv]
  end.

Ltac unfold_branches :=
  unfold run_rule, tell_me_branch, load_model_branch, config_status_branch,
    text_mode_branch, voice_mode_branch, greeting_branch, time_branch,
    date_branch, weather_branch, wikipedia_branch, joke_branch,
    system_branch, screenshot_branch, camera_branch, search_branch,
    youtube_branch, google_branch, open_branch, name_branch, help_branch,
    exit_branch, fallback_branch, handle_tell_me_about, ai_section,
    chatbot_get_response, save_user_data, smart_search, get_free_weather,
    search_wikipedia, tell_joke, get_system_info, take_screenshot,
    open_camera, open_application, words_index.

Lemma load_gemini_api_true_loaded (cfg : settings) (b : ChatbotCore.backend)
  (arg : option string) (c : ChatbotCore.chatbot) :
  fst (ChatbotCore.load_gemini_api cfg b arg c) = true ->
  ChatbotCore.is_model_loaded (snd (ChatbotCore.load_gemini_api cfg b arg c)) = true.
Proof.
  unfold ChatbotCore.load_gemini_api.
  destruct (ChatbotCore.resolve_key cfg b arg) as [k |]; [| simpl; discriminate].
  destruct (negb (PyStr.truthy k) || String.eqb k ChatbotCore.placeholder);
    [simpl; discriminate |].
  destruct (ChatbotCore.genai_configure b k); [simpl; discriminate |].
  destruct (ChatbotCore.genai_GenerativeModel b (GEMINI_MODEL cfg));
    [simpl; discriminate |].
  reflexivity.
Qed.

(** [initialize_ai_model], run. *)
Lemma initialize_ai_model_run (cfg : settings) (w : world) (s : assistant) :
  let r := ChatbotCore.load_gemini_api cfg (backend w) None (chatbot s) in
  initialize_ai_model cfg w s =
  if fst r then
    (Ret true, with_ai_model_loaded true (with_chatbot (snd r) s),
     ["Loading advanced Gemini AI model from configuration...";
      "Gemini AI model loaded successfully from config! I'm now powered by Google's advanced AI."])
  else
    (Ret false, with_chatbot (snd r) s,
     ["Loading advanced Gemini AI model from configuration...";
      "Failed to load Gemini AI model. Please check your API key in config.py file."]).
Proof.
  unfold initialize_ai_model, chatbot_load_gemini_api, try_except, try_catch,
    bind, get, modify, say, ret.
  cbv zeta.
  now destruct (ChatbotCore.load_gemini_api cfg (backend w) None (chatbot s))
    as [[] c'].
Qed.

Lemma initialize_ai_model_flag (cfg : settings) (w : world) :
  preserves flag_means_loaded (initialize_ai_model cfg w).
Proof.
  intros s Hs.
  pose proof (initialize_ai_model_run cfg w s) as Hrun. cbv zeta in Hrun.
  rewrite Hrun.
  destruct (fst (ChatbotCore.load_gemini_api cfg (backend w) None (chatbot s)))
    eqn:Hok; cbn [fst snd]; intros Hflag.
  - cbn [chatbot with_ai_model_loaded with_chatbot].
    now apply load_gemini_api_true_loaded.
  - cbn [chatbot with_chatbot ai_model_loaded] in *.
    destruct (ChatbotExtra.load_gemini_api_model_fields cfg (backend w) None
                (chatbot s) Hok) as [Hty Hmod].
    unfold ChatbotCore.is_model_loaded in *.
    rewrite Hty, Hmod. now apply Hs.
Qed.

#[local] Hint Resolve initialize_ai_model_flag : noah_inv.

Lemma run_rule_flag (cfg : settings) (w : world) (r : rule) (query : string) :
  preserves flag_means_loaded (run_rule cfg w r query).
Proof.
  destruct r; unfold_branches; repeat preserves_step.
Qed.

(** X7.  The flag [ai_model_loaded] of the router is true only when the
    chatbot is loaded: [process_command] keeps this, so it holds all along
    a session begun in a state where it holds.  Hence, when the fallback
    branch asks the chatbot, the answer is the one of
    [generate_gemini_response], never the request to load the model. *)
Theorem flag_means_loaded_invariant (cfg : settings) (w : world)
  (query : string) (turns : list (world * string)) (s : assistant) :
  flag_means_loaded s ->
  flag_means_loaded (snd (fst (process_command cfg w query s))) /\
  flag_means_loaded (after_session cfg turns s) /\
  (ai_model_loaded s = true ->
   chatbot_get_response w query s =
   (Ret (ChatbotCore.generate_gemini_response (backend w) (chatbot s) query []),
    s, [])).
Proof.
  intros Hs.
  assert (Hstep : forall w query,
             preserves flag_means_loaded (process_command cfg w query)).
  { intros w' q'. apply preserves_process_command, run_rule_flag. }
  split; [now apply Hstep | split].
  - now apply preserves_session.
  - intros Hflag. unfold chatbot_get_response, bind, get, ret.
    unfold ChatbotCore.get_response. now rewrite (Hs Hflag).
Qed.

Lemma flag_means_loaded_invariant_witness :
  flag_means_loaded
    (after_session config_py
       [(Samples.world_of 0 true, "load ai model");
        (Samples.world_of 0 false, "tell me about rivers")]
       Samples.fresh).
Proof.
  apply (flag_means_loaded_invariant config_py (Samples.world_of 0 true) ""
           [(Samples.world_of 0 true, "load ai model");
            (Samples.world_of 0 false, "tell me about rivers")]
           Samples.fresh).
  intros H. discriminate H.
Defined.


Lemma run_rule_voice (cfg : settings) (w : world) (r : rule) (query : string) :
  preserves voice_needs_microphone (run_rule cfg w r query).
Proof.
  destruct r;
    try (unfold_branches; unfold initialize_ai_model, chatbot_load_gemini_api;
         solve [repeat preserves_step]).
  (* voice mode: the switch is guarded by the microphone *)
  cbn [run_rule]. intros s Hs.
  unfold voice_mode_branch, bind, get, modify, say.
  destruct (microphone s) eqn:Hmic; cbn [fst snd]; [| exact Hs].
  intros _. exact Hmic.
Qed.

(** X8.  Voice mode is on only when a microphone is there:
    [process_command] keeps this, since the switch to voice mode is guarded
    and nothing else clears [text_mode]; it holds all along a session begun
    in a state where it holds. *)
Theorem voice_needs_microphone_invariant (cfg : settings) (w : world)
  (query : string) (turns : list (world * string)) (s : assistant) :
  voice_needs_microphone s ->
  voice_needs_microphone (snd (fst (process_command cfg w query s))) /\
  voice_needs_microphone (after_session cfg turns s).
Proof.
  intros Hs.
  assert (Hstep : forall w query,
             preserves voice_needs_microphone (process_command cfg w query)).
  { intros w' q'. apply preserves_process_command, run_rule_voice. }
  split; [now apply Hstep | now apply preserves_session].
Qed.

Lemma voice_needs_microphone_invariant_witness :
  text_mode (after_session config_py
               [(Samples.world_of 0 true, "switch to voice mode")]
               Samples.fresh) = true.
Proof.
  pose proof (proj2 (voice_needs_microphone_invariant config_py
                       (Samples.world_of 0 true) ""
                       [(Samples.world_of 0 true, "switch to voice mode")]
                       Samples.fresh
                       (fun H : text_mode Samples.fresh = false =>
                          ltac:(discriminate H)))) as Hinv.
  destruct (text_mode _) eqn:Hmode; [reflexivity |].
  specialize (Hinv Hmode). discriminate Hinv.
Defined.

Lemma run_rule_name_in_profile (cfg : settings) (w : world) (r : rule)
  (query : string) :
  rule_of query = r ->
  preserves name_in_profile (run_rule cfg w r query).
Proof.
  intros Hrule.
  destruct r;
    try (unfold_branches; unfold initialize_ai_model, chatbot_load_gemini_api;
         solve [repeat preserves_step]).
  cbn [run_rule]. intros s Hs.
  pose proof (rule_name_test query Hrule) as Hname.
  destruct (index (name_marker query) (split query)) as [i |] eqn:Hidx.
  - destruct (index_some _ _ _ Hidx) as (pre & post & Hsplit & Hpre & _).
    destruct post as [| x post].
    + now rewrite (name_branch_silent w query s pre).
    + rewrite (name_branch_found w query s pre (x :: post))
        by (assumption || discriminate).
      cbn [fst snd]. unfold named, name_in_profile. reflexivity.
  - rewrite name_branch_missing by (assumption || now apply index_none).
    exact Hs.
Qed.

(** X9.  The name in use is the name of the profile: [process_command]
    keeps [user_name] equal to the name in [user_data], also when a new
    name is taken, and so does every session begun in such a state. *)
Theorem name_in_profile_invariant (cfg : settings) (w : world)
  (query : string) (turns : list (world * string)) (s : assistant) :
  name_in_profile s ->
  name_in_profile (snd (fst (process_command cfg w query s))) /\
  name_in_profile (after_session cfg turns s).
Proof.
  intros Hs.
  assert (Hstep : forall w query,
             preserves name_in_profile (process_command cfg w query)).
  { intros w' q'. apply preserves_process_command.
    now apply run_rule_name_in_profile. }
  split; [now apply Hstep | now apply preserves_session].
Qed.

Lemma name_in_profile_invariant_witness :
  name (user_data (after_session config_py
                     [(Samples.world_of 0 false, "call me ada lovelace")]
                     Samples.fresh)) = "Ada Lovelace".
Proof.
  rewrite <- (proj2 (name_in_profile_invariant config_py
                       (Samples.world_of 0 true) ""
                       [(Samples.world_of 0 false, "call me ada lovelace")]
                       Samples.fresh eq_refl)).
  reflexivity.
Defined.

Lemma run_rule_halted (cfg : settings) (w : world) (r : rule) (query : string) :
  preserves (fun s => is_listening s = false) (run_rule cfg w r query).
Proof.
  destruct r; unfold_branches;
    unfold initialize_ai_model, chatbot_load_gemini_api;
    repeat preserves_step.
Qed.

Lemma run_rule_stays_loaded (cfg : settings) (w : world) (r : rule)
  (query : string) :
  preserves (fun s => ai_model_loaded s = true) (run_rule cfg w r query).
Proof.
  destruct r; unfold_branches;
    unfold initialize_ai_model, chatbot_load_gemini_api;
    repeat preserves_step.
Qed.

Lemma run_rule_keeps_microphone (cfg : settings) (w : world) (r : rule)
  (query : string) :
  keeps microphone (run_rule cfg w r query).
Proof.
  destruct r; unfold_methods; repeat keeps_step.
Qed.

(** X10.  Some fields move one way only: [process_command] never sets
    [is_listening] back to true, never clears [ai_model_loaded], and never
    changes [microphone]. *)
Theorem one_way_fields (cfg : settings) (w : world) (query : string)
  (s : assistant) :
  let s' := snd (fst (process_command cfg w query s)) in
  (is_listening s = false -> is_listening s' = false) /\
  (ai_model_loaded s = true -> ai_model_loaded s' = true) /\
  microphone s' = microphone s.
Proof.
  cbv zeta. split; [| split].
  - apply (preserves_process_command (fun s => is_listening s = false)),
      run_rule_halted.
  - apply (preserves_process_command (fun s => ai_model_loaded s = true)),
      run_rule_stays_loaded.
  - apply (process_command_keeps microphone), run_rule_keeps_microphone.
Qed.

Lemma one_way_fields_witness :
  is_listening
    (snd (fst (process_command config_py (Samples.world_of 0 true) "hello again"
                 (with_is_listening false Samples.fresh)))) = false.
Proof.
  apply (proj1 (one_way_fields config_py (Samples.world_of 0 true) "hello again"
                  (with_is_listening false Samples.fresh))).
  reflexivity.
Defined.

(** *** Replies and their bounds *)

(** [search_wikipedia]: the summary, or the excuse by the class of what
    [wikipedia.summary] raises; an interrupt passes. *)
Lemma search_wikipedia_run (w : world) (query : string) (s : assistant) :
  search_wikipedia w query s =
  match wikipedia_summary w query 3 with
  | inr summary => (Ret summary, s, [])
  | inl e =>
      if is_interrupt e then (Raise e, s, [])
      else (Ret (if String.eqb (exn_class e) "DisambiguationError"
                 then "Multiple results found for " ++ query ++
                      ". Please be more specific."
                 else if String.eqb (exn_class e) "PageError"
                 then "No Wikipedia page found for " ++ query
                 else "Could not access Wikipedia at this time"), s, [])
  end.
Proof.
  unfold search_wikipedia, try_except, try_catch, call.
  destruct (wikipedia_summary w query 3) as [e | summary]; simpl; [| reflexivity].
  destruct (is_interrupt e); [reflexivity |].
  destruct (String.eqb (exn_class e) "DisambiguationError"); [reflexivity |].
  now destruct (String.eqb (exn_class e) "PageError").
Qed.

(** X11.  [smart_search] changes nothing and says nothing itself; it
    returns the "Opening ..." text when [webbrowser.open] does not raise
    and the "Could not open ..." text when it raises an [Exception], since
    the fallback on the operating system cannot succeed; an interrupt of
    [webbrowser.open] passes its three handlers; and it never returns its
    "Error occurred ..." text. *)
Theorem smart_search_outcome (w : world) (query platform : string) (s : assistant) :
  smart_search w query platform s =
  match webbrowser_open w (search_url platform (quote_plus query)) with
  | None =>
      (Ret ("Opening " ++ platform ++ " and searching for " ++ query), s, [])
  | Some e =>
      if is_interrupt e then (Raise e, s, [])
      else (Ret ("Could not open " ++ platform ++
                 ". Please check your default browser settings."), s, [])
  end /\
  (forall reply s' out,
      smart_search w query platform s = (Ret reply, s', out) ->
      s' = s /\ out = [] /\
      reply <> "Error occurred while trying to search " ++ platform).
Proof.
  split; [apply smart_search_run |].
  intros reply s' out. rewrite smart_search_run.
  destruct (webbrowser_open w _) as [e |]; [destruct (is_interrupt e) |];
    intros H; try discriminate H; injection H as <- <- <-;
    repeat split; discriminate.
Qed.

(** X12.  Under the fallback rule the router says exactly one reply, of at
    most 247 characters, and changes nothing: the answer of the chatbot is
    cut after 200 characters, and the three suggestions are short. *)
Theorem fallback_reply_bounded (cfg : settings) (w : world) (query : string)
  (s : assistant) :
  query <> "" ->
  rule_of query = Fallback ->
  exists reply,
    process_command cfg w query s = (Ret tt, s, [reply]) /\
    String.length reply <= 247.
Proof.
  intros Hq Hrule.
  rewrite process_command_nonempty by assumption.
  rewrite Hrule. cbn [run_rule].
  unfold fallback_branch, try_except, try_catch, bind, get,
    chatbot_get_response, choice, say, ret.
  destruct (ai_model_loaded s).
  - eexists. split; [reflexivity |].
    set (response := ChatbotCore.get_response _ _ _ _).
    destruct (Nat.ltb_spec 200 (String.length response)); [| lia].
    rewrite length_append.
    pose proof (length_take 200 response).
    change (String.length "... Would you like me to elaborate on any part?")
      with 47. lia.
  - eexists. split; [reflexivity |].
    assert (Hlt : random_draw w mod 3 < 3) by (apply Nat.mod_upper_bound; lia).
    change (List.length suggestions) with 3.
    destruct (random_draw w mod 3) as [| [| [| n]]];
      [apply Nat.leb_le; reflexivity .. | lia].
Qed.

Lemma fallback_reply_bounded_witness :
  exists reply,
    process_command config_py Samples.blank_answer_world "sing for me"
      Samples.loaded_assistant = (Ret tt, Samples.loaded_assistant, [reply]) /\
    String.length reply <= 247.
Proof.
  apply (fallback_reply_bounded config_py Samples.blank_answer_world
           "sing for me" Samples.loaded_assistant).
  - discriminate.
  - reflexivity.
Defined.

(** X13.  Under the Wikipedia rule the router changes nothing.  When
    nothing is left of the utterance once "wikipedia" and "search" are
    removed and it is trimmed, it says the clarification.  Otherwise it
    says what [smart_search] returns for the rest and the platform
    wikipedia ("Opening wikipedia and searching for <rest>", or "Could not
    open wikipedia ..."), then asks [search_wikipedia] for the rest and
    says its text (the summary, or the excuse by the class of the failure)
    only when that has fewer than 200 characters.  An interrupt of the
    browser passes before anything is said, one of the summary after the
    first reply. *)
Theorem wikipedia_replies (cfg : settings) (w : world) (query : string)
  (s : assistant) :
  rule_of query = Wikipedia ->
  let rest := strip (replace (replace query "wikipedia" "") "search" "") in
  let second (text : string) : list string :=
    if (String.length text <? 200)%nat then [text] else [] in
  let after_search (found : string) : res unit * assistant * list string :=
    match wikipedia_summary w rest 3 with
    | inr summary => (Ret tt, s, found :: second summary)
    | inl e =>
        if is_interrupt e then (Raise e, s, [found])
        else (Ret tt, s,
              found ::
              second (if String.eqb (exn_class e) "DisambiguationError"
                      then "Multiple results found for " ++ rest ++
                           ". Please be more specific."
                      else if String.eqb (exn_class e) "PageError"
                      then "No Wikipedia page found for " ++ rest
                      else "Could not access Wikipedia at this time"))
    end in
  (rest = "" ->
   process_command cfg w query s =
   (Ret tt, s, ["What would you like me to search on Wikipedia?"])) /\
  (rest <> "" ->
   process_command cfg w query s =
   match webbrowser_open w
           ("https://en.wikipedia.org/wiki/Special:Search?search=" ++
            quote_plus rest) with
   | None => after_search ("Opening wikipedia and searching for " ++ rest)
   | Some e =>
       if is_interrupt e then (Raise e, s, [])
       else after_search
              "Could not open wikipedia. Please check your default browser settings."
   end) /\
  (rest <> "" ->
   forall found wiki,
     smart_search w rest "wikipedia" s = (Ret found, s, []) ->
     search_wikipedia w rest s = (Ret wiki, s, []) ->
     process_command cfg w query s = (Ret tt, s, found :: second wiki)).
Proof.
  intros Hrule rest second after_search.
  rewrite process_command_nonempty by (apply rule_nonempty; now rewrite Hrule).
  rewrite Hrule. cbn [run_rule]. unfold wikipedia_branch. fold rest.
  split; [| split].
  - intros ->. reflexivity.
  - intros Hrest. destruct rest as [| a r] eqn:Hsq; [contradiction |].
    cbn [truthy].
    unfold try_except, try_catch, bind at 1.
    rewrite smart_search_run.
    change (search_url "wikipedia" (quote_plus (String a r)))
      with ("https://en.wikipedia.org/wiki/Special:Search?search=" ++
            quote_plus (String a r)).
    assert (Hafter : forall found,
               match
                 (let '(r0, s2, o2) :=
                    (say found ;;
                     wiki_result <- search_wikipedia w (String a r) ;;
                     (if (String.length wiki_result <? 200)%nat
                      then say wiki_result else ret tt)) s in
                  (r0, s2, ([] ++ o2)%list))
               with
               | (Ret a0, s1, o1) => (Ret a0, s1, o1)
               | (Raise e, s1, o1) =>
                   let '(r0, s2, o2) :=
                     (if is_interrupt e then raise e else say error_reply) s1 in
                   (r0, s2, (o1 ++ o2)%list)
               end = after_search found).
    { intros found. subst after_search second. cbv beta.
      unfold bind, say. rewrite search_wikipedia_run.
      destruct (wikipedia_summary w (String a r) 3) as [e | summary].
      - destruct (is_interrupt e) eqn:He; cbn [app]; [now rewrite He |].
        match goal with
        | |- context [(String.length ?x <? 200)%nat] =>
            destruct (String.length x <? 200)%nat
        end; reflexivity.
      - cbn [app].
        destruct (String.length summary <? 200)%nat; reflexivity. }
    destruct (webbrowser_open w _) as [e |].
    + destruct (is_interrupt e) eqn:He.
      * now rewrite He.
      * apply Hafter.
    + apply Hafter.
  - intros Hrest found wiki Hfound Hwiki.
    destruct rest as [| a r] eqn:Hsq; [contradiction |].
    cbn [truthy].
    apply run_except_ret.
    rewrite (run_bind_ret _ _ _ _ _ _ Hfound).
    unfold bind at 1, say at 1. cbv zeta iota beta.
    rewrite (run_bind_ret _ _ _ _ _ _ Hwiki).
    subst second. cbv beta.
    destruct (String.length wiki <? 200)%nat; reflexivity.
Qed.

Lemma wikipedia_replies_witness :
  process_command config_py (Samples.world_of 0 true)
    "search einstein on wikipedia" Samples.fresh =
  (Ret tt, Samples.fresh,
   ["Opening wikipedia and searching for einstein on";
    "Could not access Wikipedia at this time"]).
Proof.
  assert (Hrest : strip (replace (replace "search einstein on wikipedia"
                                    "wikipedia" "") "search" "") <> "")
    by discriminate.
  pose proof (wikipedia_replies config_py (Samples.world_of 0 true)
                "search einstein on wikipedia" Samples.fresh eq_refl) as H.
  cbv zeta in H.
  destruct H as (_ & Hrun & _).
  rewrite (Hrun Hrest). reflexivity.
Defined.

(** X14.  The city handed to the weather service is never empty, as long
    as the default city is not: the words after "in" are taken only when
    there is at least one. *)
Theorem weather_city_nonempty (cfg : settings) (query : string) :
  DEFAULT_CITY cfg <> "" -> weather_city cfg query <> "".
Proof.
  intros Hdefault. unfold weather_city.
  destruct (mem "in" (split query)); [| exact Hdefault].
  destruct (index "in" (split query)) as [i |] eqn:Hidx; [| exact Hdefault].
  destruct (index_some _ _ _ Hidx) as (pre & post & Hsplit & Hpre & ->).
  rewrite Hsplit, skipn_after, length_app. cbn [List.length].
  destruct post as [| x post].
  - replace (_ <? _)%nat with false; [exact Hdefault |].
    symmetry. apply Nat.ltb_ge. cbn [List.length]. lia.
  - replace (_ <? _)%nat with true
      by (symmetry; apply Nat.ltb_lt; cbn [List.length]; lia).
    assert (Hwords : Forall (fun t => t <> "") (x :: post)).
    { pose proof (split_nonempty query) as Hall. rewrite Hsplit in Hall.
      apply Forall_app in Hall. destruct Hall as [_ Hall].
      now inversion Hall. }
    pose proof (join_truthy " " (x :: post) Hwords) as Hjoin.
    intros Heq. rewrite Heq in Hjoin. discriminate Hjoin.
Qed.

Lemma weather_city_nonempty_witness :
  weather_city config_py "how is the weather in  " <> "".
Proof.
  apply (weather_city_nonempty config_py). discriminate.
Defined.

(** X15.  An utterance that matches an information-request keyword but
    gives no topic (nothing, or only blanks, after the keyword on its
    line) gets the clarification as its only reply; the model is not
    loaded and nothing changes. *)
Theorem tell_me_without_topic (cfg : settings) (w : world) (query : string)
  (s : assistant) :
  is_tell_me query = true ->
  extract_topic topic_patterns query = None \/
  extract_topic topic_patterns query = Some "" ->
  process_command cfg w query s =
  (Ret tt, s,
   ["I didn't catch what you want to know about. Please say 'tell me about' followed by a topic."]).
Proof.
  intros Htell Htopic.
  assert (Hrule : rule_of query = TellMe).
  { unfold rule_of, rule_tests. cbn [first_rule]. now rewrite Htell. }
  rewrite process_command_nonempty by (apply rule_nonempty; now rewrite Hrule).
  rewrite Hrule. cbn [run_rule].
  unfold tell_me_branch, handle_tell_me_about.
  destruct Htopic as [-> | ->]; reflexivity.
Qed.

Lemma tell_me_without_topic_witness :
  snd (process_command config_py (Samples.world_of 0 true) "please explain  "
         Samples.fresh) =
  ["I didn't catch what you want to know about. Please say 'tell me about' followed by a topic."].
Proof.
  rewrite (tell_me_without_topic config_py (Samples.world_of 0 true)
             "please explain  " Samples.fresh eq_refl).
  - reflexivity.
  - right. reflexivity.
Defined.

(** *** The query in the address *)

(** What [quote_plus] writes for one character. *)
Lemma quote_plus_cons (c : ascii) (r : string) :
  quote_plus (String c r) = quote_plus (String c EmptyString) ++ quote_plus r.
Proof.
  cbn [quote_plus].
  destruct (isalnum c || contains (String c EmptyString) "_.-~"); [reflexivity |].
  destruct (Ascii.eqb c " "%char); reflexivity.
Qed.

Lemma unquote_plus_char (c : ascii) (x : string) :
  unquote_plus (quote_plus (String c EmptyString) ++ x) = String c (unquote_plus x).
Proof.
  destruct c as [[] [] [] [] [] [] [] []]; reflexivity.
Qed.

Lemma unquote_plus_quote_plus (s : string) : unquote_plus (quote_plus s) = s.
Proof.
  induction s as [| c r IH]; [reflexivity |].
  now rewrite quote_plus_cons, unquote_plus_char, IH.
Qed.

Lemma url_char_quote_plus_char (c : ascii) :
  all_chars url_char (quote_plus (String c EmptyString)) = true.
Proof.
  destruct c as [[] [] [] [] [] [] [] []]; reflexivity.
Qed.

Lemma all_chars_app (p : ascii -> bool) (a b : string) :
  all_chars p (a ++ b) = all_chars p a && all_chars p b.
Proof.
  induction a as [| c a IH]; [reflexivity |].
  cbn [append all_chars]. now rewrite IH, andb_assoc.
Qed.

Lemma all_chars_contains (p : ascii -> bool) (s : string) (c : ascii) :
  all_chars p s = true -> p c = false ->
  contains (String c EmptyString) s = false.
Proof.
  intros Hall Hc.
  induction s as [| d r IH]; [reflexivity |].
  cbn [all_chars] in Hall. apply andb_true_iff in Hall. destruct Hall as [Hd Hr].
  cbn [contains]. rewrite (IH Hr), orb_false_r.
  cbn [String.prefix].
  destruct (ascii_dec c d) as [-> | Hne]; [congruence | reflexivity].
Qed.

(** X16.  The query [smart_search] puts into the address is written with
    letters, digits and the signs [_ . - ~ + %] only, so it holds no space,
    quote, slash, ampersand or question mark; and different queries give
    different addresses: the query can be read back from what
    [quote_plus] writes. *)
Theorem quote_plus_safe_and_faithful (query other : string) :
  all_chars url_char (quote_plus query) = true /\
  (forall c, url_char c = false ->
             contains (String c EmptyString) (quote_plus query) = false) /\
  unquote_plus (quote_plus query) = query /\
  (quote_plus query = quote_plus other -> query = other).
Proof.
  assert (Hall : all_chars url_char (quote_plus query) = true).
  { induction query as [| c r IH]; [reflexivity |].
    rewrite quote_plus_cons, all_chars_app, url_char_quote_plus_char.
    exact IH. }
  split; [exact Hall | split; [| split]].
  - intros c Hc. now apply (all_chars_contains url_char).
  - apply unquote_plus_quote_plus.
  - intros Heq.
    rewrite <- (unquote_plus_quote_plus query), <- (unquote_plus_quote_plus other).
    now rewrite Heq.
Qed.

Lemma quote_plus_safe_and_faithful_witness :
  contains " " (quote_plus "rock & roll?") = false /\
  quote_plus "rock & roll?" = "rock+%26+roll%3F".
Proof.
  split; [| reflexivity].
  apply (proj1 (proj2 (quote_plus_safe_and_faithful "rock & roll?" ""))).
  reflexivity.
Defined.

(** *** The topic of an information request *)

Lemma lower_app (a b : string) : lower (a ++ b) = lower a ++ lower b.
Proof.
  unfold lower.
  induction a as [| c a IH]; [reflexivity |].
  cbn [append map_chars]. now rewrite IH.
Qed.

Lemma length_lower (a : string) : String.length (lower a) = String.length a.
Proof.
  unfold lower.
  induction a as [| c a IH]; [reflexivity |].
  cbn [map_chars String.length]. now rewrite IH.
Qed.

Lemma drop_app_length (a b : string) : drop (String.length a) (a ++ b) = b.
Proof.
  induction a as [| c a IH]; [now destruct b | exact IH].
Qed.

(** X17.  When an utterance begins with "tell me about " in any mix of
    upper and lower case and the rest of its line is not empty, the topic
    is the rest of that line, trimmed. *)
Theorem tell_me_about_topic (keyword rest : string) :
  lower keyword = "tell me about " ->
  line_of rest <> "" ->
  extract_topic topic_patterns (keyword ++ rest) = Some (strip (line_of rest)).
Proof.
  intros Hkey Hrest.
  assert (Hlen : String.length keyword = String.length "tell me about ").
  { now rewrite <- Hkey, length_lower. }
  unfold topic_patterns. cbn [extract_topic].
  destruct keyword as [| k keyword]; [discriminate Hkey |].
  cbn [append re_search_group].
  change (String k (keyword ++ rest)) with (String k keyword ++ rest).
  rewrite lower_app, Hkey, prefix_app_self.
  rewrite <- Hlen, drop_app_length.
  destruct (line_of rest) as [| c l]; [contradiction | reflexivity].
Qed.

Lemma tell_me_about_topic_witness :
  extract_topic topic_patterns "Tell Me ABOUT  black holes " = Some "black holes".
Proof.
  apply (tell_me_about_topic "Tell Me ABOUT " " black holes ").
  - reflexivity.
  - discriminate.
Defined.

(** *** The name of a report file *)

Lemma all_chars_take (p : ascii -> bool) (n : nat) (s : string) :
  all_chars p s = true -> all_chars p (take n s) = true.
Proof.
  revert s; induction n as [| n IH]; intros [| c r]; try reflexivity.
  cbn [all_chars take]. intros H.
  apply andb_true_iff in H. destruct H as [Hc Hr].
  now rewrite Hc, IH.
Qed.

Lemma all_chars_lstrip (p : ascii -> bool) (s : string) :
  all_chars p s = true -> all_chars p (lstrip s) = true.
Proof.
  induction s as [| c r IH]; [reflexivity |].
  cbn [lstrip]. destruct (isspace c); [| trivial].
  cbn [all_chars]. intros H.
  apply andb_true_iff in H. now apply IH.
Qed.

Lemma all_chars_rstrip (p : ascii -> bool) (s : string) :
  all_chars p s = true -> all_chars p (rstrip s) = true.
Proof.
  induction s as [| c r IH]; [reflexivity |].
  cbn [rstrip all_chars]. intros H.
  apply andb_true_iff in H. destruct H as [Hc Hr].
  specialize (IH Hr).
  destruct (rstrip r) as [| d t].
  - destruct (isspace c); [reflexivity |].
    cbn [all_chars]. now rewrite Hc.
  - cbn [all_chars] in *. now rewrite Hc, IH.
Qed.

Lemma all_chars_filter (keep : ascii -> bool) (s : string) :
  all_chars keep (Report.filter_chars keep s) = true.
Proof.
  induction s as [| c r IH]; [reflexivity |].
  cbn [Report.filter_chars].
  destruct (keep c) eqn:Hc; [| exact IH].
  cbn [all_chars]. now rewrite Hc.
Qed.

Lemma all_chars_collapse (in_run : bool) (s : string) :
  all_chars (fun c => Report.is_word c || Report.is_separator c) s = true ->
  all_chars Report.is_word (Report.collapse_runs in_run s) = true.
Proof.
  revert in_run.
  induction s as [| c r IH]; intros in_run; [reflexivity |].
  cbn [all_chars Report.collapse_runs]. intros H.
  apply andb_true_iff in H. destruct H as [Hc Hr].
  destruct (Report.is_separator c) eqn:Hsep.
  - destruct in_run; [now apply IH |].
    cbn [all_chars]. now rewrite IH.
  - rewrite orb_false_r in Hc.
    cbn [all_chars]. now rewrite Hc, IH.
Qed.

(** X18.  The part of a report's file name made from the topic holds
    letters, digits and underscores only and is at most 30 characters
    long: whatever the topic, it brings no slash, backslash, dot, colon or
    blank into the name. *)
Theorem safe_topic_is_safe (topic : string) :
  all_chars Report.is_word (Report.safe_topic topic) = true /\
  String.length (Report.safe_topic topic) <= 30 /\
  (forall c, Report.is_word c = false ->
             contains (String c EmptyString) (Report.safe_topic topic) = false).
Proof.
  assert (Hall : all_chars Report.is_word (Report.safe_topic topic) = true).
  { unfold Report.safe_topic. cbv zeta.
    apply all_chars_take, all_chars_collapse.
    unfold strip. apply all_chars_rstrip, all_chars_lstrip, all_chars_filter. }
  split; [exact Hall | split].
  - unfold Report.safe_topic. apply length_take.
  - intros c Hc. now apply (all_chars_contains Report.is_word).
Qed.

(** *** Reading an utterance *)

Lemma lower_lower_char (c : ascii) : lower_char (lower_char c) = lower_char c.
Proof. destruct c as [[] [] [] [] [] [] [] []]; reflexivity. Qed.

Lemma isspace_lower_char (c : ascii) : isspace (lower_char c) = isspace c.
Proof. destruct c as [[] [] [] [] [] [] [] []]; reflexivity. Qed.

Lemma lower_lower (s : string) : lower (lower s) = lower s.
Proof.
  unfold lower.
  induction s as [| c r IH]; [reflexivity |].
  cbn [map_chars]. now rewrite IH, lower_lower_char.
Qed.

Lemma lstrip_lower (s : string) : lstrip (lower s) = lower (lstrip s).
Proof.
  unfold lower.
  induction s as [| c r IH]; [reflexivity |].
  cbn [map_chars lstrip]. rewrite isspace_lower_char.
  destruct (isspace c); [exact IH | reflexivity].
Qed.

Lemma rstrip_lower (s : string) : rstrip (lower s) = lower (rstrip s).
Proof.
  unfold lower.
  induction s as [| c r IH]; [reflexivity |].
  cbn [map_chars rstrip]. rewrite IH, isspace_lower_char.
  destruct (rstrip r); cbn [map_chars]; [| reflexivity].
  destruct (isspace c); reflexivity.
Qed.

Lemma strip_lower (s : string) : strip (lower s) = lower (strip s).
Proof. unfold strip. now rewrite lstrip_lower, rstrip_lower. Qed.

Lemma rstrip_rstrip (s : string) : rstrip (rstrip s) = rstrip s.
Proof.
  induction s as [| c r IH]; [reflexivity |].
  cbn [rstrip].
  destruct (rstrip r) as [| d t] eqn:Hr.
  - destruct (isspace c) eqn:Hc; [reflexivity |].
    cbn [rstrip]. now rewrite Hc.
  - cbn [rstrip] in *. now rewrite IH.
Qed.

Lemma lstrip_head (s : string) :
  lstrip s = "" \/ exists c r, lstrip s = String c r /\ isspace c = false.
Proof.
  induction s as [| c r IH]; [now left |].
  cbn [lstrip]. destruct (isspace c) eqn:Hc; [exact IH |].
  right. now exists c, r.
Qed.

Lemma strip_strip (s : string) : strip (strip s) = strip s.
Proof.
  unfold strip.
  destruct (lstrip_head s) as [-> | (c & r & -> & Hc)]; [reflexivity |].
  assert (Hhead : exists t, rstrip (String c r) = String c t).
  { cbn [rstrip]. destruct (rstrip r).
    - rewrite Hc. now eexists.
    - now eexists. }
  destruct Hhead as [t Ht].
  rewrite Ht. cbn [lstrip]. rewrite Hc, <- Ht.
  apply rstrip_rstrip.
Qed.

Lemma text_input_normal_form_aux (i : NoahLoop.inputs) (s : assistant) :
  exists query,
    NoahLoop.text_input i s = (Ret query, s, []) /\
    (forall line, NoahLoop.console_input i = inr line ->
                  query = lower (strip line)) /\
    (forall e, NoahLoop.console_input i = inl e ->
               query = if NoahLoop.class_is "KeyboardInterrupt" e
                          || NoahLoop.class_is "EOFError" e
                       then "exit" else "").
Proof.
  unfold NoahLoop.text_input, try_catch, bind, call.
  destruct (NoahLoop.console_input i) as [e | line]; simpl.
  - destruct (NoahLoop.class_is "KeyboardInterrupt" e
              || NoahLoop.class_is "EOFError" e) eqn:Hclass;
      eexists; (split; [reflexivity |]);
      split; intros x Hx; try discriminate Hx;
      injection Hx as <-; now rewrite Hclass.
  - eexists. split; [reflexivity |].
    split; intros x Hx; [now injection Hx as <- | discriminate Hx].
Qed.

(** X19.  In text mode [get_input] never raises and touches nothing: a
    typed line comes back trimmed and in lower case (trimming or lowering
    it again changes nothing), the end of input and an interrupt come back
    as "exit", and any other failure as the empty utterance. *)
Theorem text_input_normal_form (i : NoahLoop.inputs) (s : assistant) :
  exists query,
    NoahLoop.text_input i s = (Ret query, s, []) /\
    lower query = query /\ strip query = query /\
    (forall line, NoahLoop.console_input i = inr line ->
                  query = lower (strip line)) /\
    (forall e, NoahLoop.console_input i = inl e ->
               query = if NoahLoop.class_is "KeyboardInterrupt" e
                          || NoahLoop.class_is "EOFError" e
                       then "exit" else "").
Proof.
  unfold NoahLoop.text_input, try_catch, bind, call.
  destruct (NoahLoop.console_input i) as [e | line]; simpl.
  - destruct (NoahLoop.class_is "KeyboardInterrupt" e
              || NoahLoop.class_is "EOFError" e) eqn:Hclass;
      eexists; (split; [reflexivity |]);
      repeat split; try reflexivity; intros x Hx; try discriminate Hx.
    + injection Hx as <-. now rewrite Hclass.
    + injection Hx as <-. now rewrite Hclass.
  - eexists. split; [reflexivity |].
    repeat split.
    + apply lower_lower.
    + now rewrite <- strip_lower, strip_strip.
    + intros x Hx. now injection Hx as <-.
    + intros x Hx. discriminate Hx.
Qed.

Lemma bind_get {A} (k : assistant -> M A) (s : assistant) :
  bind get k s = k s s.
Proof.
  unfold bind, get. now destruct (k s s) as [[r s2] o2].
Qed.

Lemma enter_without_microphone (depth : nat) (in_listen : bool)
  (i : NoahLoop.inputs) (s : assistant) :
  text_mode s = false -> microphone s = false ->
  NoahLoop.enter depth in_listen i s = (Raise NoahLoop.recursion_error, s, []).
Proof.
  intros Hmode Hmic. revert in_listen.
  induction depth as [| d IH]; intros in_listen; [reflexivity |].
  cbn [NoahLoop.enter]. rewrite bind_get, Hmode, Hmic.
  destruct in_listen; apply IH.
Qed.

(** X20.  [get_input] and [listen] call each other.  When voice mode is on
    only with a microphone, two frames are enough: [get_input] is the text
    input in text mode and the voice input otherwise.  With voice mode on
    and no microphone the two call each other without end, and the call
    ends in [RecursionError] whatever the depth allowed, with nothing said
    and nothing changed. *)
Theorem get_input_recursion (depth : nat) (i : NoahLoop.inputs) (s : assistant) :
  (voice_needs_microphone s -> 2 <= depth ->
   NoahLoop.get_input depth i s =
   if text_mode s then NoahLoop.text_input i s else NoahLoop.voice_input i s) /\
  (text_mode s = false -> microphone s = false ->
   NoahLoop.get_input depth i s = (Raise NoahLoop.recursion_error, s, [])).
Proof.
  split.
  - intros Hinv Hdepth.
    destruct depth as [| [| d]]; try lia.
    unfold NoahLoop.get_input. cbn [NoahLoop.enter].
    rewrite bind_get.
    destruct (text_mode s) eqn:Hmode; [reflexivity |].
    rewrite bind_get, Hmode, (Hinv Hmode). reflexivity.
  - intros Hmode Hmic. now apply enter_without_microphone.
Qed.

Lemma get_input_recursion_witness :
  NoahLoop.get_input 2
    {| NoahLoop.console_input := inr "  What TIME is it? ";
       NoahLoop.speech := inl Samples.offline |}
    Samples.fresh =
  (Ret "what time is it?", Samples.fresh, []).
Proof.
  rewrite (proj1 (get_input_recursion 2
                    {| NoahLoop.console_input := inr "  What TIME is it? ";
                       NoahLoop.speech := inl Samples.offline |}
                    Samples.fresh)).
  - reflexivity.
  - intros H. discriminate H.
  - lia.
Defined.

(** *** The main loop *)

Lemma enter_voice (depth : nat) (in_listen : bool) (i : NoahLoop.inputs) :
  preserves voice_needs_microphone (NoahLoop.enter depth in_listen i).
Proof.
  revert in_listen.
  induction depth as [| d IH]; intros in_listen; [apply preserves_raise |].
  cbn [NoahLoop.enter].
  apply preserves_bind; [apply preserves_get | intros s].
  unfold NoahLoop.text_input, NoahLoop.voice_input.
  destruct in_listen; repeat preserves_step; apply IH.
Qed.

Lemma iteration_voice (cfg : settings) (depth : nat) (i : NoahLoop.inputs)
  (w : world) :
  preserves voice_needs_microphone (NoahLoop.iteration cfg depth i w).
Proof.
  unfold NoahLoop.iteration, NoahLoop.get_input.
  apply preserves_try_catch; [| intros e; repeat preserves_step].
  apply preserves_bind; [apply enter_voice | intros query].
  apply preserves_bind; [| intros _; apply preserves_ret].
  destruct (truthy query); [| apply preserves_ret].
  apply preserves_process_command, run_rule_voice.
Qed.

Lemma run_loop_voice (cfg : settings) (depth : nat)
  (rounds : list (NoahLoop.inputs * world)) :
  preserves voice_needs_microphone (NoahLoop.run_loop cfg depth rounds).
Proof.
  induction rounds as [| [i w] rest IH]; cbn [NoahLoop.run_loop];
    (apply preserves_bind; [apply preserves_get | intros s]);
    (destruct (is_listening s); [| apply preserves_ret]).
  - apply preserves_ret.
  - apply preserves_bind; [apply iteration_voice | intros go_on].
    destruct go_on; [exact IH | apply preserves_ret].
Qed.

Lemma prefix_greeting (a n rest : string) :
  String.prefix (a ++ n ++ "!") (a ++ n ++ String "!"%char rest) = true.
Proof.
  induction a as [| c a IHa]; cbn [append String.prefix].
  - induction n as [| c n IHn]; cbn [append String.prefix].
    + destruct (ascii_dec "!" "!") as [_ | Hne]; [now destruct rest | now elim Hne].
    + destruct (ascii_dec c c) as [_ | Hne]; [exact IHn | now elim Hne].
  - destruct (ascii_dec c c) as [_ | Hne]; [exact IHa | now elim Hne].
Qed.

(** A round never raises: it goes on, or it breaks, and it breaks only
    after the shutdown text. *)
Lemma iteration_returns (cfg : settings) (depth : nat) (i : NoahLoop.inputs)
  (w : world) (s : assistant) :
  exists go_on s' out,
    NoahLoop.iteration cfg depth i w s = (Ret go_on, s', out) /\
    (go_on = false -> exists pre, out = (pre ++ [NoahLoop.shutdown_text])%list).
Proof.
  unfold NoahLoop.iteration, try_catch.
  assert (Hbody :
            match fst (fst
              ((query <- NoahLoop.get_input depth i ;;
                (if truthy query then process_command cfg w query else ret tt) ;;
                ret true) s)) with
            | Ret a => a = true
            | Raise _ => True
            end).
  { unfold bind, ret.
    destruct (NoahLoop.get_input depth i s) as [[[query | e] s0] o0];
      [| exact I].
    now destruct ((if truthy query then process_command cfg w query
                   else fun s => (Ret tt, s, [])) s0) as [[[[] | e] s2] o2]. }
  destruct (bind _ _ s) as [[[go_on | e] s1] o1].
  - cbn [fst] in Hbody. subst go_on.
    do 3 eexists. split; [reflexivity | discriminate].
  - destruct (NoahLoop.class_is "KeyboardInterrupt" e); unfold bind, say, ret.
    + do 3 eexists. split; [reflexivity |]. intros _. now exists o1.
    + do 3 eexists. split; [reflexivity |]. discriminate.
Qed.

(** The loop never raises.  It ends waiting for its next round only with
    [is_listening] true, and stopped only with [is_listening] false or
    right after the shutdown text. *)
Lemma run_loop_returns (cfg : settings) (depth : nat)
  (rounds : list (NoahLoop.inputs * world)) (s : assistant) :
  exists r s' out,
    NoahLoop.run_loop cfg depth rounds s = (Ret r, s', out) /\
    (r = NoahLoop.Waiting -> is_listening s' = true) /\
    (r = NoahLoop.Stopped ->
     is_listening s' = false \/
     exists pre, out = (pre ++ [NoahLoop.shutdown_text])%list).
Proof.
  revert s.
  induction rounds as [| [i w] rest IH]; intros s;
    cbn [NoahLoop.run_loop]; rewrite bind_get;
    destruct (is_listening s) eqn:Hlistening.
  - do 3 eexists. split; [reflexivity |]. split; [auto | discriminate].
  - do 3 eexists. split; [reflexivity |]. split; [discriminate | auto].
  - destruct (iteration_returns cfg depth i w s)
      as (go_on & s1 & o1 & Hit & Hbreak).
    rewrite (run_bind_ret _ _ _ _ _ _ Hit).
    destruct go_on.
    + destruct (IH s1) as (r & s2 & o2 & Hrest & Hwait & Hstop).
      rewrite Hrest. exists r, s2, (o1 ++ o2)%list.
      split; [reflexivity |]. split; [exact Hwait |].
      intros Hr. destruct (Hstop Hr) as [Hoff | [pre Hpre]]; [now left |].
      right. exists (o1 ++ pre)%list. now rewrite Hpre, app_assoc.
    + destruct (Hbreak eq_refl) as [pre Hpre].
      do 3 eexists. split; [reflexivity |]. split; [discriminate |].
      intros _. right. exists pre. now rewrite app_nil_r.
  - do 3 eexists. split; [reflexivity |]. split; [discriminate | auto].
Qed.


Lemma exit_round (cfg : settings) (depth : nat) (i : NoahLoop.inputs)
  (w : world) (s : assistant) (query : string) :
  NoahLoop.get_input depth i s = (Ret query, s, []) ->
  rule_of query = Exit ->
  NoahLoop.iteration cfg depth i w s =
  (Ret true, with_is_listening false s, [farewell (user_name s)]).
Proof.
  intros Hinput Hrule.
  assert (Hq : query <> "") by (apply rule_nonempty; now rewrite Hrule).
  unfold NoahLoop.iteration.
  apply run_try_ret.
  rewrite (run_bind_ret _ _ _ _ _ _ Hinput).
  destruct query as [| c q]; [contradiction |]. cbn [truthy].
  assert (Hrun : process_command cfg w (String c q) s =
                 (Ret tt, with_is_listening false s, [farewell (user_name s)])).
  { rewrite process_command_nonempty by assumption. now rewrite Hrule. }
  rewrite (run_bind_ret _ _ _ _ _ _ Hrun). reflexivity.
Qed.

Lemma run_loop_halted (cfg : settings) (depth : nat)
  (rounds : list (NoahLoop.inputs * world)) (s : assistant) :
  is_listening s = false ->
  NoahLoop.run_loop cfg depth rounds s = (Ret NoahLoop.Stopped, s, []).
Proof.
  intros H. destruct rounds as [| [i w] rest];
    cbn [NoahLoop.run_loop]; now rewrite bind_get, H.
Qed.

(** X22.  The loop of [run] stops at an exit utterance.  Once
    [is_listening] is false no round takes place.  In text mode, a typed
    line that the exit rule answers once trimmed and lowered, and also the
    end of input or an interrupt at the prompt, make the loop say the
    farewell, clear [is_listening] and leave the rounds that follow
    untouched: the loop is left. *)
Theorem run_loop_stops_at_exit (cfg : settings) (depth : nat)
  (i : NoahLoop.inputs) (w : world) (rest : list (NoahLoop.inputs * world))
  (s : assistant) :
  (is_listening s = false ->
   NoahLoop.run_loop cfg depth ((i, w) :: rest) s =
   (Ret NoahLoop.Stopped, s, [])) /\
  (is_listening s = true -> text_mode s = true -> 1 <= depth ->
   (forall line, NoahLoop.console_input i = inr line ->
                 rule_of (lower (strip line)) = Exit) ->
   (forall e, NoahLoop.console_input i = inl e ->
              NoahLoop.class_is "KeyboardInterrupt" e
              || NoahLoop.class_is "EOFError" e = true) ->
   NoahLoop.run_loop cfg depth ((i, w) :: rest) s =
   (Ret NoahLoop.Stopped, with_is_listening false s, [farewell (user_name s)])).
Proof.
  split; [apply run_loop_halted |].
  intros Hlistening Hmode Hdepth Hline Hbreak.
  destruct (text_input_normal_form_aux i s) as (query & Hinput & Hl & He).
  assert (Hget : NoahLoop.get_input depth i s = (Ret query, s, [])).
  { destruct depth as [| d]; [lia |].
    unfold NoahLoop.get_input. cbn [NoahLoop.enter].
    now rewrite bind_get, Hmode. }
  assert (Hrule : rule_of query = Exit).
  { destruct (NoahLoop.console_input i) as [e | line] eqn:Hconsole.
    - rewrite (He e eq_refl), (Hbreak e eq_refl). reflexivity.
    - rewrite (Hl line eq_refl). now apply Hline. }
  cbn [NoahLoop.run_loop]. rewrite bind_get, Hlistening.
  rewrite (run_bind_ret _ _ _ _ _ _ (exit_round cfg depth i w s query Hget Hrule)).
  now rewrite run_loop_halted.
Qed.

Lemma run_loop_stops_at_exit_witness :
  NoahLoop.run_loop config_py 2
    [({| NoahLoop.console_input :=
           inl {| exn_class := "EOFError"; exn_message := "EOF when reading a line" |};
         NoahLoop.speech := inl Samples.offline |},
      Samples.world_of 0 true);
     ({| NoahLoop.console_input := inr "hello";
         NoahLoop.speech := inl Samples.offline |},
      Samples.world_of 0 true)]
    Samples.fresh =
  (Ret NoahLoop.Stopped, with_is_listening false Samples.fresh,
   ["Goodbye Rudra! It was great helping you today with Google Gemini AI from config!"]).
Proof.
  apply (proj2 (run_loop_stops_at_exit config_py 2 _ _ _ Samples.fresh));
    try reflexivity.
  - lia.
  - intros line H. discriminate H.
  - intros e H. injection H as <-. reflexivity.
Defined.

(** X23.  A round of the loop in text mode hands the typed line, trimmed
    and in lower case, to [process_command]: the router never sees a
    capital letter or an outer blank from the console.  When the command
    returns, the round goes on with what the command said and left.  When
    the command is interrupted (it raises nothing but an interrupt), the
    round says the shutdown text after what the command said and breaks
    the loop.  A blank line changes and says nothing, and the loop goes
    on. *)
Theorem text_round_lowers_the_line (cfg : settings) (depth : nat)
  (i : NoahLoop.inputs) (w : world) (s : assistant) (line : string) :
  text_mode s = true ->
  1 <= depth ->
  NoahLoop.console_input i = inr line ->
  NoahLoop.iteration cfg depth i w s =
  match process_command cfg w (lower (strip line)) s with
  | (Ret _, s', out) => (Ret true, s', out)
  | (Raise e, s', out) =>
      if is_interrupt e
      then (Ret false, s', (out ++ ["Shutting down NOAH Assistant. Goodbye!"])%list)
      else (Ret true, s', (out ++ ["I encountered an error. Please try again."])%list)
  end /\
  (forall e s' out,
      process_command cfg w (lower (strip line)) s = (Raise e, s', out) ->
      is_interrupt e = true) /\
  (strip line = "" -> NoahLoop.iteration cfg depth i w s = (Ret true, s, [])).
Proof.
  intros Hmode Hdepth Hline.
  destruct (text_input_normal_form_aux i s) as (query & Hinput & Hl & _).
  rewrite (Hl line Hline) in Hinput.
  assert (Hget : NoahLoop.get_input depth i s =
                 (Ret (lower (strip line)), s, [])).
  { destruct depth as [| d]; [lia |].
    unfold NoahLoop.get_input. cbn [NoahLoop.enter].
    now rewrite bind_get, Hmode. }
  assert (Hit : NoahLoop.iteration cfg depth i w s =
                match process_command cfg w (lower (strip line)) s with
                | (Ret _, s', out) => (Ret true, s', out)
                | (Raise e, s', out) =>
                    if is_interrupt e
                    then (Ret false, s',
                          (out ++ ["Shutting down NOAH Assistant. Goodbye!"])%list)
                    else (Ret true, s',
                          (out ++ ["I encountered an error. Please try again."])%list)
                end).
  { unfold NoahLoop.iteration, try_catch.
    rewrite (run_bind_ret _ _ _ _ _ _ Hget).
    destruct (lower (strip line)) as [| c q] eqn:Hq; cbn [truthy].
    - reflexivity.
    - unfold bind at 1.
      destruct (process_command cfg w (String c q) s) as [[[[] | e] s'] out].
      + cbn. now rewrite app_nil_r.
      + unfold NoahLoop.class_is, is_interrupt.
        now destruct (String.eqb (exn_class e) "KeyboardInterrupt"). }
  split; [exact Hit | split].
  - intros e s' out. apply process_command_raises.
  - intros Hblank. rewrite Hit, Hblank. reflexivity.
Qed.

Lemma text_round_lowers_the_line_witness :
  NoahLoop.iteration config_py 1
    {| NoahLoop.console_input := inr " My Name Is ALEX ";
       NoahLoop.speech := inl Samples.offline |}
    (Samples.world_of 0 true) Samples.fresh =
  (Ret true,
   snd (fst (process_command config_py (Samples.world_of 0 true)
               "my name is alex" Samples.fresh)),
   ["Nice to meet you, Alex!"]) /\
  NoahLoop.iteration config_py 1
    {| NoahLoop.console_input := inr " WEATHER in Pune ";
       NoahLoop.speech := inl Samples.offline |}
    Samples.interrupted_world Samples.fresh =
  (Ret false, Samples.fresh, ["Shutting down NOAH Assistant. Goodbye!"]).
Proof.
  split.
  - rewrite (proj1 (text_round_lowers_the_line config_py 1
                      {| NoahLoop.console_input := inr " My Name Is ALEX ";
                         NoahLoop.speech := inl Samples.offline |}
                      (Samples.world_of 0 true) Samples.fresh
                      " My Name Is ALEX " eq_refl (le_n 1) eq_refl)).
    reflexivity.
  - rewrite (proj1 (text_round_lowers_the_line config_py 1
                      {| NoahLoop.console_input := inr " WEATHER in Pune ";
                         NoahLoop.speech := inl Samples.offline |}
                      Samples.interrupted_world Samples.fresh
                      " WEATHER in Pune " eq_refl (le_n 1) eq_refl)).
    reflexivity.
Defined.

(** *** Handlers that fall back *)

(** X24.  When an information request with a topic finds the model not
    loaded and cannot load it, the handler does not ask the chatbot: it
    says that it loads the model, that this failed, and that it uses
    Wikipedia, and returns the "found Wikipedia information" text when the
    five-sentence summary comes, the apology when it raises an
    [Exception]; an interrupt of the summary passes the handler after
    those four texts.  The flag [ai_model_loaded] stays false. *)
Theorem tell_me_about_without_model (cfg : settings) (w : world)
  (query topic : string) (s : assistant) :
  extract_topic topic_patterns query = Some topic ->
  topic <> "" ->
  ai_model_loaded s = false ->
  fst (ChatbotCore.load_gemini_api cfg (backend w) None (chatbot s)) = false ->
  let s' := with_chatbot
              (snd (ChatbotCore.load_gemini_api cfg (backend w) None (chatbot s)))
              s in
  let said :=
    ["Let me load my advanced AI knowledge base first...";
     "Loading advanced Gemini AI model from configuration...";
     "Failed to load Gemini AI model. Please check your API key in config.py file.";
     "Using Wikipedia for information..."] in
  handle_tell_me_about cfg w query s =
  match wikipedia_summary w topic 5 with
  | inr _ =>
      (Ret ("I couldn't load the AI model, but I found Wikipedia information about "
            ++ topic ++ "."), s', said)
  | inl e =>
      if is_interrupt e then (Raise e, s', said)
      else (Ret "Sorry, I couldn't load the AI model or find Wikipedia information.",
            s', said)
  end /\
  ai_model_loaded s' = false.
Proof.
  intros Htopic Hne Hflag Hload s' said.
  split; [| exact Hflag].
  pose proof (initialize_ai_model_run cfg w) as Hinit. cbv zeta in Hinit.
  unfold handle_tell_me_about. rewrite Htopic.
  destruct topic as [| c t]; [contradiction |]. cbn [truthy negb].
  unfold try_except at 1, try_catch at 1.
  rewrite bind_get, Hflag. cbn [negb].
  unfold bind at 1. unfold bind at 1. unfold say at 1. cbv iota beta.
  unfold bind at 1. rewrite Hinit, Hload. cbv iota beta. cbn [negb].
  unfold bind, say, try_except, try_catch, call, ret, raise.
  destruct (wikipedia_summary w (String c t) 5) as [e | summary];
    [| reflexivity].
  destruct (is_interrupt e) eqn:He; cbn [app]; now rewrite ?He.
Qed.

Lemma tell_me_about_without_model_witness :
  let cfg := {| GEMINI_API_KEY := None;
                GEMINI_MODEL := "gemini-1.5-flash";
                DEFAULT_USER_NAME := "Master";
                DEFAULT_CITY := "Surat" |} in
  fst (fst (handle_tell_me_about cfg (Samples.world_of 0 true)
              "tell me about rivers" Samples.fresh)) =
  Ret "Sorry, I couldn't load the AI model or find Wikipedia information.".
Proof.
  intros cfg.
  assert (Htopic : "rivers" <> "") by discriminate.
  pose proof (tell_me_about_without_model cfg (Samples.world_of 0 true)
                "tell me about rivers" "rivers" Samples.fresh
                eq_refl Htopic eq_refl eq_refl) as H.
  cbv zeta in H. destruct H as [Hrun _].
  rewrite Hrun. reflexivity.
Defined.

(** X25.  The open rule changes nothing.  It says exactly one reply and
    returns, unless the start of the application or the opening of the
    browser is interrupted: then nothing is said and the interrupt
    passes.  On a system other than Windows only the browser is opened:
    asking for Notepad or the calculator gets "Application opening is
    limited on this platform"; and an utterance that names no known
    application gets the question which one to open. *)
Theorem open_rule_replies (cfg : settings) (w : world) (query : string)
  (s : assistant) :
  rule_of query = Open ->
  ((forall exe, calm_unit (subprocess_Popen w exe) = true) ->
   calm_unit (webbrowser_open w "https://www.google.com") = true ->
   exists reply, process_command cfg w query s = (Ret tt, s, [reply])) /\
  (forall e s' out,
      process_command cfg w query s = (Raise e, s', out) ->
      is_interrupt e = true /\ s' = s /\ out = [] /\
      ((exists exe, subprocess_Popen w exe = Some e) \/
       webbrowser_open w "https://www.google.com" = Some e)) /\
  (platform_system w <> "Windows" ->
   contains "notepad" query = true \/ contains "calculator" query = true ->
   process_command cfg w query s =
   (Ret tt, s, ["Application opening is limited on this platform"])) /\
  (contains "notepad" query = false -> contains "calculator" query = false ->
   contains "browser" query = false -> contains "chrome" query = false ->
   process_command cfg w query s =
   (Ret tt, s, ["Which application would you like me to open?"])).
Proof.
  intros Hrule.
  rewrite process_command_nonempty by (apply rule_nonempty; now rewrite Hrule).
  rewrite Hrule. cbn [run_rule].
  assert (Happ : forall app_name,
             open_application w app_name s =
             if String.eqb (platform_system w) "Windows" then
               match apps app_name with
               | Some exe =>
                   match subprocess_Popen w exe with
                   | None => (Ret tt, s, ["Opening " ++ app_name])
                   | Some e =>
                       if is_interrupt e then (Raise e, s, [])
                       else (Ret tt, s, ["Could not open " ++ app_name])
                   end
               | None => (Ret tt, s, ["I don't know how to open " ++ app_name])
               end
             else if String.eqb app_name "browser" then
               match webbrowser_open w "https://www.google.com" with
               | None => (Ret tt, s, ["Opening default browser"])
               | Some e =>
                   if is_interrupt e then (Raise e, s, [])
                   else (Ret tt, s, ["Could not open " ++ app_name])
               end
             else (Ret tt, s, ["Application opening is limited on this platform"])).
  { intros app_name.
    unfold open_application, try_except, try_catch, bind, call_unit, say, raise.
    destruct (String.eqb (platform_system w) "Windows").
    - destruct (apps app_name) as [exe |] eqn:Hexe.
      + destruct (subprocess_Popen w exe) as [e |]; [| reflexivity].
        now destruct (is_interrupt e).
      + unfold apps in Hexe.
        destruct (String.eqb app_name "notepad"); [discriminate |].
        destruct (String.eqb app_name "calc"); [discriminate |].
        destruct (String.eqb app_name "browser"); [discriminate | reflexivity].
    - destruct (String.eqb app_name "browser"); [| reflexivity].
      destruct (webbrowser_open w _) as [e |]; [| reflexivity].
      now destruct (is_interrupt e). }
  assert (Hwrap :
            (exists app_name, open_branch w query s = open_application w app_name s)
            \/ open_branch w query s =
               (Ret tt, s, ["Which application would you like me to open?"])).
  { unfold open_branch.
    destruct (contains "notepad" query); [left; now eexists |].
    destruct (contains "calculator" query); [left; now eexists |].
    destruct (contains "browser" query || contains "chrome" query);
      [left; now eexists | now right]. }
  split; [| split; [| split]].
  - intros Hpopen Hweb.
    destruct Hwrap as [[app_name Hopen] | Hopen].
    + unfold try_except, try_catch. rewrite Hopen, Happ.
      destruct (String.eqb (platform_system w) "Windows").
      * destruct (apps app_name) as [exe |]; [| now eexists].
        specialize (Hpopen exe).
        destruct (subprocess_Popen w exe) as [e |]; [| now eexists].
        cbn [calm_unit] in Hpopen. apply negb_true_iff in Hpopen.
        rewrite Hpopen. now eexists.
      * destruct (String.eqb app_name "browser"); [| now eexists].
        destruct (webbrowser_open w _) as [e |]; [| now eexists].
        cbn [calm_unit] in Hweb. apply negb_true_iff in Hweb.
        rewrite Hweb. now eexists.
    + unfold try_except, try_catch. rewrite Hopen. now eexists.
  - intros e s' out.
    destruct Hwrap as [[app_name Hopen] | Hopen];
      unfold try_except, try_catch; rewrite Hopen; [| discriminate].
    rewrite Happ.
    destruct (String.eqb (platform_system w) "Windows").
    + destruct (apps app_name) as [exe |]; [| discriminate].
      destruct (subprocess_Popen w exe) as [e0 |] eqn:Hexe; [| discriminate].
      destruct (is_interrupt e0) eqn:He0; [| discriminate].
      rewrite He0. unfold raise. cbn [app].
      intros H. injection H as <- <- <-.
      repeat split; auto. left. now exists exe.
    + destruct (String.eqb app_name "browser"); [| discriminate].
      destruct (webbrowser_open w _) as [e0 |] eqn:Hweb; [| discriminate].
      destruct (is_interrupt e0) eqn:He0; [| discriminate].
      rewrite He0. unfold raise. cbn [app].
      intros H. injection H as <- <- <-.
      repeat split; auto.
  - intros Hplatform Hasked.
    apply String.eqb_neq in Hplatform.
    apply run_except_ret. unfold open_branch.
    destruct (contains "notepad" query).
    + rewrite Happ, Hplatform. reflexivity.
    + destruct Hasked as [Hasked | Hasked]; [discriminate Hasked |].
      rewrite Hasked, Happ, Hplatform. reflexivity.
  - intros H1 H2 H3 H4. apply run_except_ret.
    unfold open_branch. now rewrite H1, H2, H3, H4.
Qed.

Lemma open_rule_replies_witness :
  process_command config_py (Samples.world_of 0 true) "open notepad" Samples.fresh =
  (Ret tt, Samples.fresh, ["Application opening is limited on this platform"]).
Proof.
  assert (Hplatform : platform_system (Samples.world_of 0 true) <> "Windows")
    by discriminate.
  exact (proj1 (proj2 (proj2 (open_rule_replies config_py
                                (Samples.world_of 0 true)
                                "open notepad" Samples.fresh eq_refl)))
           Hplatform (or_introl eq_refl)).
Defined.

(** *** Instances *)

Lemma google_rule_never_fires_witness :
  is_google "google search for cats" = true /\
  rule_of "google search for cats" <> Google.
Proof.
  split; [reflexivity |].
  exact (google_rule_never_fires "google search for cats").
Defined.

Lemma smart_search_outcome_witness :
  smart_search (Samples.world_of 0 true) "laptop" "ebay" Samples.fresh =
  (Ret "Opening ebay and searching for laptop", Samples.fresh, []) /\
  "Opening ebay and searching for laptop" <>
  "Error occurred while trying to search ebay" /\
  smart_search Samples.interrupted_world "laptop" "ebay" Samples.fresh =
  (Raise Samples.ctrl_c, Samples.fresh, []).
Proof.
  destruct (smart_search_outcome (Samples.world_of 0 true) "laptop" "ebay"
              Samples.fresh) as (Hrun & Hnever).
  split; [exact Hrun | split].
  - exact (proj2 (proj2 (Hnever _ _ _ Hrun))).
  - exact (proj1 (smart_search_outcome Samples.interrupted_world "laptop" "ebay"
                    Samples.fresh)).
Defined.

Lemma safe_topic_is_safe_witness :
  contains "/" (Report.safe_topic "../etc/passwd: the file") = false /\
  Report.safe_topic "../etc/passwd: the file" = "etcpasswd_the_file".
Proof.
  split; [| reflexivity].
  apply (proj2 (proj2 (safe_topic_is_safe "../etc/passwd: the file"))).
  reflexivity.
Defined.

Lemma text_input_normal_form_witness :
  NoahLoop.text_input
    {| NoahLoop.console_input :=
         inl {| exn_class := "KeyboardInterrupt"; exn_message := "" |};
       NoahLoop.speech := inl Samples.offline |}
    Samples.fresh = (Ret "exit", Samples.fresh, []).
Proof.
  destruct (text_input_normal_form
              {| NoahLoop.console_input :=
                   inl {| exn_class := "KeyboardInterrupt"; exn_message := "" |};
                 NoahLoop.speech := inl Samples.offline |}
              Samples.fresh) as (query & Hrun & _ & _ & _ & Hexn).
  rewrite Hrun. now rewrite (Hexn _ eq_refl).
Defined.


End NoahExtra.
